(** * whisper-dictate: a shallow embedding of the recording session core

    The development follows the Python sources file by file.

    - [Py]          the builtins the program relies on ([str.strip],
                    [str.split], [str.join], truthiness, [str(int)],
                    exceptions);
    - [np]          the NumPy arithmetic of the audio level, in IEEE 754
                    binary32;
    - [host]        the machine the program runs on: files, processes and
                    the calls made to collaborators (audio device, output
                    sinks, signals);
    - [utils]       [whisper_dictate/utils.py], the marker file;
    - [transcriber] [whisper_dictate/transcriber.py];
    - [recorder]    [whisper_dictate/recorder.py];
    - [window]      [whisper_dictate/window.py], the session controller,
                    with the signal handlers and the start-up sequence of
                    [whisper_dictate/cli.py] in [cli];
    - [tools]       the detection of external tools and the two output
                    sinks of [whisper_dictate/utils.py], with the
                    constructor of the transcriber;
    - [models]      the model files of [whisper_dictate/transcriber.py];
    - [config]      [whisper_dictate/config.py];
    - [placement]   where [whisper_dictate/window.py] puts the window.

    Python values are modelled as the program sees them: a [str] is a
    sequence of Unicode code points, [bytes] a sequence of octets, an
    [int] is unbounded.  Code that can raise returns a [result]; objects
    are records threaded through the methods that mutate them; everything
    outside the process is a field of [host.world]. *)

From Stdlib Require Import ZArith NArith List Bool Lia.
From Stdlib Require Import Strings.String Strings.Ascii.
From Stdlib Require Import Numbers.DecimalString Numbers.DecimalPos.
From Stdlib Require Import QArith.QArith_base QArith.Qpower.
From Stdlib Require Import Floats.SpecFloat.
From stdpp Require Import base list strings gmap.
Import ListNotations.
Close Scope Q_scope.

(* ===================================================================== *)
(** * Part I: the program                                                 *)
(* ===================================================================== *)

(** ** Python builtins *)

Module Py.

(** A Python [str]: the sequence of its code points. *)
Definition str := list N.

(** A Python [bytes] object. *)
Definition bytes := list Byte.byte.

(** String literals of the sources are ASCII; [lit] reads one off a Rocq
    string, character by character. *)
Definition lit (s : string) : str :=
  map N_of_ascii (list_ascii_of_string s).

Definition NL : N := 10%N.
Definition SP : N := 32%N.

(** [str.isspace] for one character: the 29 code points whose Unicode
    category is Zs or whose bidirectional class is WS, B or S. *)
Definition isspace (c : N) : bool :=
  ((9 <=? c) && (c <=? 13) || (28 <=? c) && (c <=? 32)
   || (c =? 0x85) || (c =? 0xa0) || (c =? 0x1680)
   || (0x2000 <=? c) && (c <=? 0x200a)
   || (c =? 0x2028) || (c =? 0x2029) || (c =? 0x202f)
   || (c =? 0x205f) || (c =? 0x3000))%N.

(** A string of whitespace only. *)
Definition blank (s : list N) : Prop := Forall (fun c => isspace c = true) s.

(** [s.lstrip()], [s.rstrip()] and [s.strip()] with no argument: CPython
    advances a left index over whitespace, then a right index, and
    returns the slice between them. *)
Fixpoint lstrip (s : str) : str :=
  match s with
  | [] => []
  | c :: s' => if isspace c then lstrip s' else s
  end.

Fixpoint rstrip (s : str) : str :=
  match s with
  | [] => []
  | c :: s' =>
      match rstrip s' with
      | [] => if isspace c then [] else [c]
      | r => c :: r
      end
  end.

Definition strip (s : str) : str := rstrip (lstrip s).

(** [s.split(sep)] for a one-character separator: every occurrence of
    [sep] ends a field, so the result has one more field than [s] has
    separators and is never empty. *)
Fixpoint split (sep : N) (s : str) : list str :=
  match s with
  | [] => [[]]
  | c :: s' =>
      if (c =? sep)%N then [] :: split sep s'
      else match split sep s' with
           | [] => [[c]]
           | field :: fields => (c :: field) :: fields
           end
  end.

(** [sep.join(items)]. *)
Fixpoint join (sep : str) (items : list str) : str :=
  match items with
  | [] => []
  | [x] => x
  | x :: rest => x ++ sep ++ join sep rest
  end.

(** Truth value of a [str] and of a list: non-empty. *)
Definition truthy {A} (s : list A) : bool :=
  match s with [] => false | _ :: _ => true end.

(** [str(n)] for an [int]. *)
Definition str_of_int (n : Z) : str :=
  lit (NilZero.string_of_int (Z.to_int n)).

(** The exception classes the program meets.  [UnicodeDecodeError] is a
    subclass of [ValueError] and is folded into it; [OtherException]
    stands for every remaining subclass of [Exception]. *)
Inductive exn_class :=
| TimeoutExpired
| ProcessLookupError
| PermissionError
| FileNotFoundError
| ValueError
| OverflowError
| OtherException.

(** An exception instance: its class and [str(e)]. *)
Inductive exn := Exn (cls : exn_class) (msg : str).

Definition exn_cls (e : exn) : exn_class := let 'Exn c _ := e in c.
Definition exn_msg (e : exn) : str := let 'Exn _ m := e in m.

(** Outcome of a call that may raise. *)
Inductive result (A : Type) :=
| Return (a : A)
| Raise (e : exn).
Arguments Return {A} a.
Arguments Raise {A} e.

End Py.

(** ** NumPy: the arithmetic of the audio level *)

(** [np.float32] is IEEE 754 binary32, given here by the operations of
    the Standard Library's [SpecFloat] at precision 24 and maximal
    exponent 128, rounding to nearest, ties to even. *)

Module np.
Import Py.
Local Open Scope Z_scope.

Definition prec : Z := 24.
Definition emax : Z := 128.

Definition float32 := spec_float.

Definition add (x y : float32) : float32 := SFadd prec emax x y.

Definition true_divide (x y : float32) : float32 := SFdiv prec emax x y.

(** The [float32] nearest to an integer. *)
Definition float32_of_int (z : Z) : float32 :=
  binary_normalize prec emax z 0 false.

(** The number a [float32] stands for, when it stands for one. *)
Definition value (x : float32) : option Q :=
  match x with
  | S754_zero _ => Some 0%Q
  | S754_finite s m e =>
      Some ((if s then -1 else 1) * inject_Z (Zpos m) * 2 ^ e)%Q
  | S754_infinity _ | S754_nan => None
  end.


(** One little-endian [int16]. *)
Definition int16 (lo hi : Byte.byte) : Z :=
  let u := Z.of_N (Byte.to_N lo) + 256 * Z.of_N (Byte.to_N hi) in
  if u <? 32768 then u else u - 65536.

Fixpoint int16_pairs (in_data : bytes) : list Z :=
  match in_data with
  | lo :: hi :: rest => int16 lo hi :: int16_pairs rest
  | _ => []
  end.

(** [np.frombuffer(in_data, dtype=np.int16)], on a little-endian
    host. *)
Definition frombuffer_int16 (in_data : bytes) : result (list Z) :=
  if Nat.even (length in_data) then Return (int16_pairs in_data)
  else Raise (Exn ValueError
                (lit "buffer size must be a multiple of element size")).

(** [a.astype(np.float32)] and [np.abs(a)]. *)
Definition astype_float32 (a : list Z) : list float32 :=
  map float32_of_int a.

Definition abs (a : list float32) : list float32 := map SFabs a.

(** The sum of a contiguous [float32] array, as [np.add.reduce]
    computes it: pairwise, over blocks of at most 128 elements summed
    with eight accumulators, and added to the identity of addition. *)
Definition sum_from (res : float32) (a : list float32) : float32 :=
  fold_left add a res.

(** [groups] times: [r[j] += a[i + j]] for [j] from 0 to 7. *)
Fixpoint accumulate (groups : nat) (r a : list float32)
    : list float32 * list float32 :=
  match groups with
  | O => (r, a)
  | S g => accumulate g (zip_with add r (take 8 a)) (drop 8 a)
  end.

Definition combine8 (r : list float32) : float32 :=
  match r with
  | [r0; r1; r2; r3; r4; r5; r6; r7] =>
      add (add (add r0 r1) (add r2 r3)) (add (add r4 r5) (add r6 r7))
  | _ => S754_nan       (* there are eight accumulators *)
  end.

(** A block of 8 to 128 elements. *)
Definition block (a : list float32) : float32 :=
  let '(r, rest) :=
    accumulate (length a / 8 - 1) (take 8 a) (drop 8 a) in
  sum_from (combine8 r) rest.

(** [depth] bounds the halvings; the length of the array is enough. *)
Fixpoint pairwise_sum (depth : nat) (a : list float32) : float32 :=
  let n := length a in
  if (n <? 8)%nat then sum_from (S754_zero true) a
  else if (n <=? 128)%nat then block a
  else
    match depth with
    | O => S754_nan     (* not reached when [length a <= depth] *)
    | S depth' =>
        let n2 := (n / 2)%nat in
        let n2 := (n2 - n2 mod 8)%nat in
        add (pairwise_sum depth' (take n2 a))
            (pairwise_sum depth' (drop n2 a))
    end.

Definition sum (a : list float32) : float32 :=
  add (S754_zero false) (pairwise_sum (length a) a).

(** [a.mean()] for a [float32] array: the sum, divided by the number of
    elements.  NumPy divides in binary64 and rounds the quotient to
    binary32; for a count below 2^24, which is a binary32 number, that
    is the binary32 quotient of the two, by which the mean is given
    here. *)
Definition mean (a : list float32) : float32 :=
  true_divide (sum a) (float32_of_int (Z.of_nat (length a))).

(** *** Notions used to bound what rounding gives *)






End np.

(** ** The machine around the process *)

(** The marker file, the temporary directory, the other processes and
    the record of the calls the program makes to its collaborators.
    Files that exist can be read, written and removed: failures of the
    file system itself (permissions, a full disk) are outside the model,
    and so are failures of the audio device. *)

Module host.
Import Py.

(** A file of the temporary directory: as [NamedTemporaryFile] leaves it
    (zero bytes), or as the [wave] module writes it, given by the
    parameters set on the writer and the bytes handed to [writeframes]
    (which a little-endian host stores unchanged). *)
Inductive artifact :=
| Blank
| Wave (nchannels sampwidth framerate : Z) (frames : bytes).

(** Signals the program sends or handles. *)
Inductive signum := SIGUSR1 | SIGTERM | SIGINT.

(** What the kernel finds when [os.kill(pid, sig)] names [pid]: another
    process, which the caller may signal; no process
    ([ProcessLookupError]); a process of another user
    ([PermissionError]); or a number too large for a process identifier
    ([OverflowError]). *)
Inductive target := Live | Gone | Forbidden | Unrepresentable.

(** Calls that leave the process, in the order they are made. *)
Inductive call :=
| Signal (pid : Z) (sig : signum)   (* [os.kill(pid, sig)] delivered *)
| UnlinkPidFile                     (* [PID_FILE.unlink(missing_ok=True)] *)
| UnlinkTemp (path : string)        (* [Path(path).unlink(missing_ok=True)] *)
| StreamOpen (sampwidth channels rate frames_per_buffer : Z)
| StreamStop                        (* [stream.stop_stream()] *)
| StreamClose                       (* [stream.close()] *)
| Terminate                         (* [PyAudio.terminate()] *)
| Level (level : np.float32)        (* [level_callback(level)] *)
| Clipboard (text : str)            (* [copy_to_clipboard(text)] *)
| Typing (text : str)               (* [type_text(text)] *)
| Print (line : str).

Record world := World {
  pid_file : option str;        (* text of [PID_FILE]; [None]: no file *)
  tmp : gmap string artifact;   (* the temporary directory *)
  getpid : Z;                   (* [os.getpid()] *)
  processes : Z -> target;      (* the process table, as [kill] sees it *)
  trace : list call             (* calls made so far, oldest first *)
}.

Definition set_pid_file (v : option str) (w : world) : world :=
  World v (tmp w) (getpid w) (processes w) (trace w).

Definition set_tmp (v : gmap string artifact) (w : world) : world :=
  World (pid_file w) v (getpid w) (processes w) (trace w).

Definition log (cs : list call) (w : world) : world :=
  World (pid_file w) (tmp w) (getpid w) (processes w) (trace w ++ cs).

(** A computation on the machine that may raise. *)
Definition M (A : Type) : Type := world -> result A * world.

Definition ret {A} (a : A) : M A := fun w => (Return a, w).

Definition raise {A} (c : exn_class) : M A := fun w => (Raise (Exn c []), w).

Definition bind {A B} (m : M A) (k : A -> M B) : M B :=
  fun w =>
    match m w with
    | (Return a, w') => k a w'
    | (Raise e, w') => (Raise e, w')
    end.

(** [try: body / except classes: handler]; an exception of another
    class passes through. *)
Definition try_except {A} (body : M A) (classes : exn_class -> bool)
    (handler : M A) : M A :=
  fun w =>
    match body w with
    | (Return a, w') => (Return a, w')
    | (Raise e, w') =>
        if classes (exn_cls e) then handler w' else (Raise e, w')
    end.

(** A state change that cannot fail. *)
Definition act (f : world -> world) : M unit := fun w => (Return tt, f w).

Declare Scope host_scope.
Delimit Scope host_scope with host.
Notation "'let*' x ':=' m 'in' k" := (bind m (fun x => k))
  (at level 10, x pattern, m at level 100, k at level 200) : host_scope.
Notation "m ';;' k" := (bind m (fun _ => k))
  (at level 100, k at level 200, right associativity) : host_scope.

(** [os.kill(pid, sig)]; [sig = None] is signal number 0, which checks
    for the process and delivers nothing. *)
Definition os_kill (pid : Z) (sig : option signum) : M unit :=
  fun w =>
    match processes w pid with
    | Live =>
        match sig with
        | None => (Return tt, w)
        | Some s => (Return tt, log [Signal pid s] w)
        end
    | Gone => (Raise (Exn ProcessLookupError []), w)
    | Forbidden => (Raise (Exn PermissionError []), w)
    | Unrepresentable => (Raise (Exn OverflowError []), w)
    end.

End host.

(** ** whisper_dictate/utils.py *)

Module utils.
Import Py host.
Local Open Scope host_scope.

(** Operations of the [Path] object [PID_FILE]. *)
Definition PID_FILE_exists : M bool :=
  fun w => (Return (bool_decide (is_Some (pid_file w))), w).

Definition PID_FILE_read_text : M str :=
  fun w =>
    match pid_file w with
    | Some text => (Return text, w)
    | None => (Raise (Exn FileNotFoundError []), w)
    end.

Definition PID_FILE_write_text (text : str) : M unit :=
  act (set_pid_file (Some text)).

Definition PID_FILE_unlink : M unit :=
  act (fun w => log [UnlinkPidFile] (set_pid_file None w)).

Definition is_ProcessLookupError_or_ValueError (c : exn_class) : bool :=
  match c with
  | ProcessLookupError | ValueError => true
  | _ => false
  end.

Section marker.

(** The builtin [int(text)]; [None] stands for the [ValueError] it raises
    when [text] is no integer literal. *)
Variable int_ : str -> option Z.

Definition int_or_raise (text : str) : M Z :=
  match int_ text with
  | Some n => ret n
  | None => raise ValueError
  end.

(** [is_already_running()].  The handler of the [except] clause falls
    through to the final [return False]. *)
Definition is_already_running : M bool :=
  let* present := PID_FILE_exists in
  if (present : bool) then
    try_except
      (let* text := PID_FILE_read_text in
       let* pid := int_or_raise (strip text) in
       os_kill pid None ;;
       os_kill pid (Some SIGUSR1) ;;
       ret true)
      is_ProcessLookupError_or_ValueError
      (PID_FILE_unlink ;;
       ret false)
  else ret false.

End marker.

(** [write_pid()]. *)
Definition write_pid : M unit :=
  fun w => PID_FILE_write_text (str_of_int (getpid w)) w.

(** [cleanup_pid()]. *)
Definition cleanup_pid : M unit := PID_FILE_unlink.

(** [int] on ASCII text: an optional sign, then digits, single
    underscores allowed between digits, surrounding whitespace ignored.
    The builtin also reads the decimal digits of other scripts, which
    is why [is_already_running] takes [int] as a parameter and the
    properties of Part II hold for any reading of it; [int_ascii] serves
    in the examples. *)
Definition digit (c : N) : option Z :=
  if ((48 <=? c) && (c <=? 57))%N then Some (Z.of_N c - 48)%Z else None.

Fixpoint digits (acc : Z) (after_digit : bool) (s : str) : option Z :=
  match s with
  | [] => if after_digit then Some acc else None
  | c :: s' =>
      match digit c with
      | Some d => digits (10 * acc + d)%Z true s'
      | None =>
          if ((c =? 95)%N && after_digit)%bool   (* "_" *)
          then match s' with
               | c' :: _ => if digit c' is Some _ then digits acc false s' else None
               | [] => None
               end
          else None
      end
  end.

Definition int_ascii (text : str) : option Z :=
  match strip text with
  | 43%N :: s => digits 0 false s                   (* "+" *)
  | 45%N :: s => option_map Z.opp (digits 0 false s) (* "-" *)
  | s => digits 0 false s
  end.

End utils.

(** ** whisper_dictate/transcriber.py *)

Module transcriber.
Import Py.

(** What [subprocess.run(..., capture_output=True, text=True, timeout=t)]
    can do: return a [CompletedProcess] (the call has no [check=True], so
    any exit status returns normally) or raise. *)
Inductive run_outcome :=
| Completed (returncode : Z) (stdout : str)
| Raised (e : exn).

(** The environment: which outcome a command line and a timeout lead to. *)
Definition subprocess := list str -> Z -> run_outcome.

Record Transcriber := {
  model_path : str;
  language : str;
  threads : Z;
  timeout : Z;
  whisper_cli : str
}.

(** The command line [transcribe] builds. *)
Definition command (self : Transcriber) (audio_file : str) : list str :=
  [ whisper_cli self; lit "-m"; model_path self; lit "-f"; audio_file;
    lit "--no-timestamps"; lit "-t"; str_of_int (threads self);
    lit "--language"; language self ].

(** The list comprehension of [transcribe]:
    [[line.strip() for line in stdout.strip().split("\n") if line.strip()]]. *)
Definition clean_lines (stdout : str) : list str :=
  map strip
    (List.filter (fun line => truthy (strip line)) (split NL (strip stdout))).

(** [Transcriber.transcribe]: the returned string and the lines printed. *)
Definition transcribe (run : subprocess) (self : Transcriber)
    (audio_file : str) : str * list str :=
  match run (command self audio_file) (timeout self) with
  | Completed _ stdout => (join (lit " ") (clean_lines stdout), [])
  | Raised (Exn TimeoutExpired _) =>
      ([], [lit "Transcription timed out after "
              ++ str_of_int (timeout self) ++ lit "s"])
  | Raised (Exn _ msg) => ([], [lit "Transcription error: " ++ msg])
  end.

(** *** The contract of [transcribe] in the specification's words *)

(** "TranscriptionResult — either non-empty cleaned text or an explicit
    failure reason (timeout, process error, empty output)". *)
Inductive failure_reason := Timeout | ProcessError | EmptyOutput.

Inductive TranscriptionResult :=
| Text (text : str)
| Failure (reason : failure_reason).

(** "the raw output is split into lines, each trimmed, empty lines
    discarded, and the remaining lines joined with single spaces". *)
Definition spec_clean (raw : str) : str :=
  join [SP] (List.filter truthy (map strip (split NL raw))).

(** "killed ... returns a Timeout failure"; "On any other process-launch
    or non-zero-exit failure, returns a ProcessError"; "if the joined
    result is empty, returns an EmptyOutput failure". *)
Definition spec_transcribe (o : run_outcome) : TranscriptionResult :=
  match o with
  | Raised (Exn TimeoutExpired _) => Failure Timeout
  | Raised _ => Failure ProcessError
  | Completed rc stdout =>
      if (rc =? 0)%Z then
        match spec_clean stdout with
        | [] => Failure EmptyOutput
        | text => Text text
        end
      else Failure ProcessError
  end.

(** The string a caller holding only text would keep of a result. *)
Definition text_of (r : TranscriptionResult) : str :=
  match r with
  | Text text => text
  | Failure _ => []
  end.

(** Runs that raise, and runs that exit with status zero. *)
Definition exits_zero_or_raises (o : run_outcome) : Prop :=
  match o with
  | Completed rc _ => rc = 0%Z
  | Raised _ => True
  end.

(** *** Auxiliary notions for the proofs about [clean_lines] *)

(** Lines kept by the comprehension, for an already split output. *)
Definition kept (lines : list str) : list str :=
  map strip (List.filter (fun line => truthy (strip line)) lines).

(** [ext short long]: [long] is [short] with blank characters appended
    to its last line and blank lines after it. *)
Inductive ext : list str -> list str -> Prop :=
| ext_last line w rest :
    blank w -> Forall blank rest -> ext [line] ((line ++ w) :: rest)
| ext_cons line short long :
    ext short long -> ext (line :: short) (line :: long).

End transcriber.

(** ** whisper_dictate/recorder.py *)

Module recorder.
Import Py host.

(** PortAudio sample formats and [PyAudio.get_sample_size]. *)
Inductive sample_format :=
| paFloat32 | paInt32 | paInt24 | paInt16 | paInt8 | paUInt8.

Definition get_sample_size (format : sample_format) : Z :=
  match format with
  | paFloat32 | paInt32 => 4
  | paInt24 => 3
  | paInt16 => 2
  | paInt8 | paUInt8 => 1
  end.

(** Audio settings. *)
Definition CHUNK : Z := 1024.
Definition FORMAT : sample_format := paInt16.
Definition CHANNELS : Z := 1.
Definition RATE : Z := 16000.

Record AudioRecorder := Build {
  level_callback : bool;            (* a callback was given *)
  recording : bool;
  audio_frames : list bytes;
  temp_file_path : option string;
  stream : bool                     (* [self.stream] is not [None] *)
}.

(** [AudioRecorder(level_callback)]. *)
Definition init (level_callback : bool) : AudioRecorder :=
  Build level_callback false [] None false.

(** Truth value of [self.temp_file_path]. *)
Definition path_truthy (p : option string) : bool :=
  match p with
  | Some path => negb (String.eqb path "")
  | None => false
  end.

(** The level [_audio_callback] computes from a chunk:
    [audio_data = np.frombuffer(in_data, dtype=np.int16)
    .astype(np.float32)], then [np.abs(audio_data).mean() / 32768.0].
    NumPy 1 carries out the last division in binary64 and NumPy 2 in
    binary32; dividing by 32768, a power of two, only lowers the
    exponent, so the number is the same. *)
Definition level (in_data : bytes) : result np.float32 :=
  match np.frombuffer_int16 in_data with
  | Raise e => Raise e
  | Return samples =>
      let audio_data := np.astype_float32 samples in
      Return (np.true_divide (np.mean (np.abs audio_data))
                             (np.float32_of_int 32768))
  end.

(** The calls made to the level callback for one chunk: one, with the
    level of the chunk, unless computing the level raises. *)
Definition reported (in_data : bytes) : list call :=
  match level in_data with
  | Return level => [Level level]
  | Raise _ => []
  end.

(** [_audio_callback(in_data, ...)].  For a chunk that is not a whole
    number of samples [np.frombuffer] raises [ValueError]: the
    exception leaves the method, after the chunk was appended, and the
    callback is not called.  What PortAudio does with the exception is
    not in this repository; here the method can be called again.  The
    value returned to PortAudio, [(in_data, paContinue)], is always the
    same and is left out. *)
Definition _audio_callback (in_data : bytes) (self : AudioRecorder)
    (w : world) : AudioRecorder * world :=
  if recording self then
    let self' :=
      Build (level_callback self) (recording self)
            (audio_frames self ++ [in_data])
            (temp_file_path self) (stream self) in
    if level_callback self then (self', log (reported in_data) w)
    else (self', w)
  else (self, w).

(** [start()].  [stem] is what [NamedTemporaryFile] picks: the directory
    and the random part of the name, to which the suffix is added; the
    file is created empty and kept ([delete=False]). *)
Definition start (stem : string) (self : AudioRecorder) (w : world)
    : AudioRecorder * world :=
  let name := (stem +:+ ".wav")%string in
  let w1 := set_tmp (<[name := Blank]> (tmp w)) w in
  let w2 := log [StreamOpen (get_sample_size FORMAT) CHANNELS RATE CHUNK] w1 in
  (Build (level_callback self) true [] (Some name) true, w2).

(** [stop()]: the path returned, the recorder and the machine afterwards. *)
Definition stop (self : AudioRecorder) (w : world)
    : option string * AudioRecorder * world :=
  if negb (recording self) then (None, self, w)
  else
    let w1 := if stream self then log [StreamStop; StreamClose] w else w in
    let self' :=
      Build (level_callback self) false (audio_frames self)
            (temp_file_path self) false in
    match temp_file_path self with
    | Some path =>
        if path_truthy (temp_file_path self) && truthy (audio_frames self)
        then
          let wav := Wave CHANNELS (get_sample_size FORMAT) RATE
                          (concat (audio_frames self)) in
          (Some path, self', set_tmp (<[path := wav]> (tmp w1)) w1)
        else (None, self', w1)
    | None => (None, self', w1)
    end.

(** [cleanup()]. *)
Definition cleanup (self : AudioRecorder) (w : world) : world :=
  log [Terminate] w.

(** [cleanup_temp_file()]. *)
Definition cleanup_temp_file (self : AudioRecorder) (w : world) : world :=
  match temp_file_path self with
  | Some path =>
      if path_truthy (temp_file_path self)
      then log [UnlinkTemp path] (set_tmp (delete path (tmp w)) w)
      else w
  | None => w
  end.

(** The audio thread delivering [chunks] one after the other. *)
Definition deliver (chunks : list bytes) (self : AudioRecorder) (w : world)
    : AudioRecorder * world :=
  fold_left (fun st in_data => _audio_callback in_data (fst st) (snd st))
            chunks (self, w).

End recorder.

(** ** whisper_dictate/window.py *)

Module window.
Import Py host.

(** Keys the window tells apart. *)
Inductive Key := Key_Escape | Key_Space | Key_other (code : Z).

(** A [RecorderWindow]: the attributes the methods read or write, and
    what the Qt runtime holds for the object (pending single-shot timers,
    started threads, queued cross-thread signal emissions, whether a
    close event was accepted). *)
Record RecorderWindow := Build {
  output_mode : str;                    (* [config.general.output_mode] *)
  transcriber : transcriber.Transcriber;
  recording : bool;
  recorder : recorder.AudioRecorder;
  status : str;                         (* text of [status_label] *)
  animating : bool;                     (* the visualizer's timer runs *)
  start_pending : bool;                 (* [singleShot(100, start_recording)] *)
  threads : list string;                (* threads started, not yet run *)
  done_queue : list str;                (* [transcription_done] emitted by
                                           a thread, not yet delivered *)
  close_timers : nat;                   (* [singleShot(100, close)] pending *)
  closed : bool                         (* a close event was accepted *)
}.

Definition with_recording (v : bool) (s : RecorderWindow) : RecorderWindow :=
  Build (output_mode s) (transcriber s) v (recorder s) (status s)
        (animating s) (start_pending s) (threads s) (done_queue s)
        (close_timers s) (closed s).

Definition with_recorder (v : recorder.AudioRecorder) (s : RecorderWindow)
    : RecorderWindow :=
  Build (output_mode s) (transcriber s) (recording s) v (status s)
        (animating s) (start_pending s) (threads s) (done_queue s)
        (close_timers s) (closed s).

Definition with_status (v : str) (s : RecorderWindow) : RecorderWindow :=
  Build (output_mode s) (transcriber s) (recording s) (recorder s) v
        (animating s) (start_pending s) (threads s) (done_queue s)
        (close_timers s) (closed s).

Definition with_animating (v : bool) (s : RecorderWindow) : RecorderWindow :=
  Build (output_mode s) (transcriber s) (recording s) (recorder s) (status s)
        v (start_pending s) (threads s) (done_queue s)
        (close_timers s) (closed s).

Definition with_start_pending (v : bool) (s : RecorderWindow)
    : RecorderWindow :=
  Build (output_mode s) (transcriber s) (recording s) (recorder s) (status s)
        (animating s) v (threads s) (done_queue s)
        (close_timers s) (closed s).

Definition with_threads (v : list string) (s : RecorderWindow)
    : RecorderWindow :=
  Build (output_mode s) (transcriber s) (recording s) (recorder s) (status s)
        (animating s) (start_pending s) v (done_queue s)
        (close_timers s) (closed s).

Definition with_done_queue (v : list str) (s : RecorderWindow)
    : RecorderWindow :=
  Build (output_mode s) (transcriber s) (recording s) (recorder s) (status s)
        (animating s) (start_pending s) (threads s) v
        (close_timers s) (closed s).

Definition with_close_timers (v : nat) (s : RecorderWindow) : RecorderWindow :=
  Build (output_mode s) (transcriber s) (recording s) (recorder s) (status s)
        (animating s) (start_pending s) (threads s) (done_queue s)
        v (closed s).

Definition with_closed (v : bool) (s : RecorderWindow) : RecorderWindow :=
  Build (output_mode s) (transcriber s) (recording s) (recorder s) (status s)
        (animating s) (start_pending s) (threads s) (done_queue s)
        (close_timers s) v.

(** [RecorderWindow(config)]: the recorder is given [_on_audio_level] as
    its level callback, the visualizer starts its timer, and
    [start_recording] is scheduled. *)
Definition init (output_mode : str) (t : transcriber.Transcriber)
    : RecorderWindow :=
  Build output_mode t false (recorder.init true) (lit "Listening...")
        true true [] [] 0 false.

(** [start_recording()]. *)
Definition start_recording (stem : string) (self : RecorderWindow) (w : world)
    : RecorderWindow * world :=
  let '(r, w') := recorder.start stem (recorder self) w in
  (with_recorder r (with_recording true self), w').

(** [_on_transcription_done(text)]. *)
Definition _on_transcription_done (text : str) (self : RecorderWindow)
    (w : world) : RecorderWindow * world :=
  let w1 := recorder.cleanup (recorder self) w in
  let w2 := snd (utils.cleanup_pid w1) in
  (with_close_timers (S (close_timers self)) self, w2).

(** [stop_and_transcribe()].  [transcription_done.emit("")] is emitted
    on the thread the window lives on, so the slot runs at once. *)
Definition stop_and_transcribe (self : RecorderWindow) (w : world)
    : RecorderWindow * world :=
  if negb (recording self) then (self, w)
  else
    let self1 := with_status (lit "Processing...") (with_recording false self) in
    let '(audio_file, r, w1) := recorder.stop (recorder self1) w in
    let self2 := with_recorder r self1 in
    match audio_file with
    | Some path => (with_threads (threads self2 ++ [path]) self2, w1)
    | None => _on_transcription_done [] self2 w1
    end.

(** [_transcribe_thread(audio_file)].  [run] is the behaviour of the
    external executable, [clip] and [typed] what [copy_to_clipboard] and
    [type_text] do when called.  The emission of [transcription_done]
    comes from another thread and is queued.  The body is run in one
    piece: of its calls, only the removal of the temporary file is one
    the controller's own steps are ordered against, and that is a single
    call. *)
Definition _transcribe_thread (run : transcriber.subprocess)
    (clip typed : result bool) (audio_file : string)
    (self : RecorderWindow) (w : world) : RecorderWindow * world :=
  let '(text0, printed) :=
    transcriber.transcribe run (transcriber self) (lit audio_file) in
  let w1 := log (map Print printed) w in
  let failed e :=
    Print (lit "Error during transcription: " ++ exn_msg e) in
  let '(text, w2) :=
    if truthy text0 then
      match clip with
      | Raise e => ([], log [Clipboard text0; failed e] w1)
      | Return _ =>
          if bool_decide (output_mode self = lit "type") then
            match typed with
            | Raise e => ([], log [Clipboard text0; Typing text0; failed e] w1)
            | Return _ => (text0, log [Clipboard text0; Typing text0] w1)
            end
          else (text0, log [Clipboard text0] w1)
      end
    else (text0, w1) in
  let w3 := recorder.cleanup_temp_file (recorder self) w2 in
  (with_done_queue (done_queue self ++ [text]) self, w3).

(** [keyPressEvent(event)]. *)
Definition keyPressEvent (key : Key) (self : RecorderWindow) (w : world)
    : RecorderWindow * world :=
  match key with
  | Key_Escape | Key_Space => stop_and_transcribe self w
  | Key_other _ => (self, w)
  end.

(** [closeEvent(event)]: [event.ignore()] leaves the window open,
    [event.accept()] closes it. *)
Definition closeEvent (self : RecorderWindow) (w : world)
    : RecorderWindow * world :=
  if recording self then stop_and_transcribe self w
  else
    let self1 := with_animating false self in
    let w1 := snd (utils.cleanup_pid w) in
    (with_closed true self1, w1).

End window.

(** ** whisper_dictate/cli.py: start-up and signal handlers *)

Module cli.
Import Py host.
Local Open Scope host_scope.

(** What the check at the start of [main] leads to. *)
Inductive claim := Claimed | SignaledExisting.

(** Lines 154-159 of [main]: [if is_already_running(): sys.exit(0)], then
    [write_pid()].  The specification calls this [claimOrSignal]. *)
Definition claimOrSignal (int_ : str -> option Z) : M claim :=
  let* running := utils.is_already_running int_ in
  if (running : bool) then ret SignaledExisting
  else (utils.write_pid ;; ret Claimed).

(** The same two calls with other processes running in between:
    [others] is what they make of the marker after
    [is_already_running] has returned and before [write_pid] runs. *)
Definition claimOrSignal_raced (int_ : str -> option Z)
    (others : option str -> option str) : M claim :=
  let* running := utils.is_already_running int_ in
  if (running : bool) then ret SignaledExisting
  else (act (fun w => set_pid_file (others (pid_file w)) w) ;;
        utils.write_pid ;;
        ret Claimed).

(** [sigusr1_handler]: [window.stop_signal.emit()], connected to
    [stop_and_transcribe]. *)
Definition sigusr1_handler (self : window.RecorderWindow) (w : world)
    : window.RecorderWindow * world :=
  window.stop_and_transcribe self w.

(** [sigterm_handler]. *)
Definition sigterm_handler (self : window.RecorderWindow) (w : world)
    : window.RecorderWindow * world :=
  window.stop_and_transcribe self (snd (utils.cleanup_pid w)).

(** What can happen to a running session. *)
Inductive event :=
| StartTimer (stem : string)     (* the start single shot fires *)
| AudioChunk (in_data : bytes)   (* PortAudio hands over a chunk *)
| KeyPress (key : window.Key)
| PeerStop                       (* SIGUSR1 from a second invocation *)
| Terminated                     (* SIGTERM or SIGINT *)
| CloseRequest                   (* the window is asked to close *)
| ThreadRuns (run : transcriber.subprocess) (clip typed : result bool)
| DoneDelivered                  (* a queued [transcription_done] arrives *)
| CloseTimer.                    (* a close single shot fires: [close()] *)

Definition fire (e : event) (st : window.RecorderWindow * world)
    : window.RecorderWindow * world :=
  let '(self, w) := st in
  match e with
  | StartTimer stem =>
      if window.start_pending self
      then window.start_recording stem (window.with_start_pending false self) w
      else st
  | AudioChunk in_data =>
      let '(r, w') := recorder._audio_callback in_data (window.recorder self) w in
      (window.with_recorder r self, w')
  | KeyPress key => window.keyPressEvent key self w
  | PeerStop => sigusr1_handler self w
  | Terminated => sigterm_handler self w
  | CloseRequest => window.closeEvent self w
  | ThreadRuns run clip typed =>
      match window.threads self with
      | audio_file :: rest =>
          window._transcribe_thread run clip typed audio_file
            (window.with_threads rest self) w
      | [] => st
      end
  | DoneDelivered =>
      match window.done_queue self with
      | text :: rest =>
          window._on_transcription_done text (window.with_done_queue rest self) w
      | [] => st
      end
  | CloseTimer =>
      match window.close_timers self with
      | S n => window.closeEvent (window.with_close_timers n self) w
      | O => st
      end
  end.

Definition run_events (es : list event) (st : window.RecorderWindow * world)
    : window.RecorderWindow * world :=
  fold_left (fun st e => fire e st) es st.

(** The finalization steps among the calls of a trace. *)
Inductive step := RemoveArtifact | Teardown | Release.

Definition step_of (c : call) : option step :=
  match c with
  | UnlinkTemp _ => Some RemoveArtifact
  | Terminate => Some Teardown
  | UnlinkPidFile => Some Release
  | _ => None
  end.

Definition finalization (cs : list call) : list step :=
  omap step_of cs.

(** The finalization steps a machine has seen. *)
Definition steps (w : world) : list step := finalization (trace w).
Arguments steps : simpl never.

Definition is_teardown_or_release (s : step) : bool :=
  match s with
  | RemoveArtifact => false
  | Teardown | Release => true
  end.

Definition is_release (s : step) : bool :=
  match s with
  | Release => true
  | RemoveArtifact | Teardown => false
  end.

(** Where a session stands, read off the window: waiting for the start
    single shot, recording, waiting for the transcription thread,
    waiting for the delivery of its result, finished. *)
Inductive phase := Idle | Recording | Transcribing | Delivering | Finished.

Definition has_temp_file (self : window.RecorderWindow) : Prop :=
  exists path,
    recorder.temp_file_path (window.recorder self) = Some path
    /\ recorder.path_truthy (Some path) = true.

Definition in_phase (p : phase) (self : window.RecorderWindow) : Prop :=
  match p with
  | Idle =>
      window.start_pending self = true
      /\ window.recording self = false
      /\ recorder.recording (window.recorder self) = false
      /\ window.threads self = [] /\ window.done_queue self = []
      /\ window.close_timers self = 0
  | Recording =>
      window.start_pending self = false
      /\ window.recording self = true
      /\ recorder.recording (window.recorder self) = true
      /\ has_temp_file self
      /\ window.threads self = [] /\ window.done_queue self = []
      /\ window.close_timers self = 0
  | Transcribing =>
      window.start_pending self = false
      /\ window.recording self = false
      /\ recorder.recording (window.recorder self) = false
      /\ has_temp_file self
      /\ (exists audio_file, window.threads self = [audio_file])
      /\ window.done_queue self = []
      /\ window.close_timers self = 0
  | Delivering =>
      window.start_pending self = false
      /\ window.recording self = false
      /\ recorder.recording (window.recorder self) = false
      /\ window.threads self = []
      /\ (exists text, window.done_queue self = [text])
      /\ window.close_timers self = 0
  | Finished =>
      window.start_pending self = false
      /\ window.recording self = false
      /\ recorder.recording (window.recorder self) = false
      /\ window.threads self = [] /\ window.done_queue self = []
      /\ window.close_timers self <= 1
  end.

(** The steps other than release that have run by each phase. *)
Definition done_by (p : phase) (work : list step) : Prop :=
  match p with
  | Idle | Recording | Transcribing => work = []
  | Delivering => work = [RemoveArtifact]
  | Finished => work = [RemoveArtifact; Teardown] \/ work = [Teardown]
  end.

(** What holds of a session that began on the machine [w0]: it is in
    one of the phases, the steps run since are the releases and the
    work of that phase, and a closed window has no marker. *)
Definition session_invariant (w0 : world)
    (st : window.RecorderWindow * world) : Prop :=
  exists p new,
    in_phase p (fst st)
    /\ steps (snd st) = steps w0 ++ new
    /\ done_by p (List.filter (fun s => negb (is_release s)) new)
    /\ (window.closed (fst st) = true ->
        pid_file (snd st) = None /\ In Release new).

(** The stop requests of a session: the two keys, the signal of a peer,
    and a request to close the window. *)
Definition is_stop_request (e : event) : Prop :=
  e = KeyPress window.Key_Escape \/ e = KeyPress window.Key_Space
  \/ e = PeerStop \/ e = CloseRequest.

End cli.
(** ** More builtins: prefixes, suffixes, optional strings *)

Module builtins.
Import Py.

(** [s.startswith(prefix)] and [s.endswith(suffix)]: the slice of the
    right length at that end is compared with the argument. *)
Definition startswith (prefix s : str) : bool :=
  bool_decide (take (length prefix) s = prefix).

Definition endswith (suffix s : str) : bool :=
  (length suffix <=? length s)%nat
  && bool_decide (drop (length s - length suffix) s = suffix).

(** Truth value of an [Optional[str]]: [None] and [""] are false. *)
Definition truthy_opt (o : option str) : bool :=
  match o with
  | Some s => truthy s
  | None => false
  end.

(** [a or b] on optional strings. *)
Definition or_else (a b : option str) : option str :=
  if truthy_opt a then a else b.

(** [base / rel] for a [Path] [base] that is absolute and a relative
    [rel]: one separator between the two, none added after the root. *)
Definition Path_div (base rel : str) : str :=
  if bool_decide (base = lit "/") then base ++ rel
  else base ++ lit "/" ++ rel.

(** [s.encode()], UTF-8: a surrogate code point has no encoding, and
    [UnicodeEncodeError], a subclass of [ValueError], names the first
    run of them. *)
Definition is_surrogate (c : N) : bool :=
  ((0xD800 <=? c) && (c <=? 0xDFFF))%N.

Definition hex_digit (d : N) : N :=
  if (d <? 10)%N then (48 + d)%N else (87 + d)%N.

(** [c] as the four hexadecimal digits of a [\u] escape. *)
Definition hex4 (c : N) : str :=
  [ hex_digit (c / 4096 mod 16); hex_digit (c / 256 mod 16);
    hex_digit (c / 16 mod 16); hex_digit (c mod 16) ]%N.

Fixpoint surrogate_run (s : str) : nat :=
  match s with
  | c :: rest => if is_surrogate c then S (surrogate_run rest) else 0
  | [] => 0
  end.

Fixpoint encode_error_at (position : nat) (s : str) : option exn :=
  match s with
  | [] => None
  | c :: rest =>
      if is_surrogate c then
        Some
          (Exn ValueError
             (match surrogate_run rest with
              | 0 =>
                  lit "'utf-8' codec can't encode character '\u" ++ hex4 c
                  ++ lit "' in position "
                  ++ str_of_int (Z.of_nat position)
                  ++ lit ": surrogates not allowed"
              | S more =>
                  lit "'utf-8' codec can't encode characters in position "
                  ++ str_of_int (Z.of_nat position) ++ lit "-"
                  ++ str_of_int (Z.of_nat (position + S more))
                  ++ lit ": surrogates not allowed"
              end))
      else encode_error_at (S position) rest
  end.

(** The exception [s.encode()] raises, if it raises. *)
Definition encode_error (s : str) : option exn := encode_error_at 0 s.

End builtins.

(** ** whisper_dictate/utils.py: external tools *)

Module tools.
Import Py builtins.

(** What the detection functions ask the system: [shutil.which],
    [Path.exists] and [Path.home]. *)
Record system := System {
  which : str -> option str;
  path_exists : str -> bool;
  home : str
}.

(** [detect_clipboard_tool()]. *)
Definition detect_clipboard_tool (sys : system) : option str :=
  if truthy_opt (which sys (lit "wl-copy")) then Some (lit "wl-copy")
  else if truthy_opt (which sys (lit "xclip")) then Some (lit "xclip")
  else if truthy_opt (which sys (lit "pbcopy")) then Some (lit "pbcopy")
  else None.

(** [detect_typing_tool()]. *)
Definition detect_typing_tool (sys : system) : option str :=
  if truthy_opt (which sys (lit "ydotool")) then Some (lit "ydotool")
  else if truthy_opt (which sys (lit "xdotool")) then Some (lit "xdotool")
  else None.

(** The two loops of [detect_whisper_cli]: the first candidate that
    [shutil.which] finds, the first path that exists. *)
Fixpoint first_on_path (sys : system) (candidates : list str) : option str :=
  match candidates with
  | [] => None
  | cmd :: rest =>
      let path := which sys cmd in
      if truthy_opt path then path else first_on_path sys rest
  end.

Fixpoint first_existing (sys : system) (paths : list str) : option str :=
  match paths with
  | [] => None
  | path_obj :: rest =>
      if path_exists sys path_obj then Some path_obj
      else first_existing sys rest
  end.

Definition candidates : list str :=
  [lit "whisper-cli"; lit "whisper"; lit "main"].

Definition common_paths (sys : system) : list str :=
  [ lit "/usr/bin/whisper-cli";
    lit "/usr/local/bin/whisper-cli";
    Path_div (home sys) (lit ".local/bin/whisper-cli") ].

(** [detect_whisper_cli()]. *)
Definition detect_whisper_cli (sys : system) : option str :=
  match first_on_path sys candidates with
  | Some path => Some path
  | None => first_existing sys (common_paths sys)
  end.

(** The display variables of the environment. *)
Record environ := Environ {
  WAYLAND_DISPLAY : option str;
  DISPLAY : option str
}.

(** [detect_display_server()]. *)
Definition detect_display_server (env : environ) : str :=
  if truthy_opt (WAYLAND_DISPLAY env) then lit "wayland"
  else if truthy_opt (DISPLAY env) then lit "x11"
  else lit "unknown".

(** What a child process is given on standard input: nothing,
    [input=text.encode()], or [input=text] with [text=True]. *)
Inductive stdin :=
| NoInput
| Encoded (text : str)
| AsText (text : str).

(** One call of [subprocess.run(argv, input=..., check=True)]. *)
Record invocation := Invocation {
  argv : list str;
  input : stdin
}.

(** What the call meets before [check=True] is applied: the exit status
    of the child, or an exception of its own (the executable is missing,
    an argument cannot be passed). *)
Inductive met :=
| Exit (returncode : Z)
| Fails (e : exn).

Definition runner := invocation -> met.

(** [try: subprocess.run(..., check=True); return True
    except subprocess.CalledProcessError: return False]:
    the value returned or the exception that escapes, and the calls made. *)
Definition run_checked (run : runner) (inv : invocation)
    : result bool * list invocation :=
  match run inv with
  | Exit rc => (Return (rc =? 0)%Z, [inv])
  | Fails e => (Raise e, [inv])
  end.

(** [if not tool: tool = detect()]: the tool the function goes on
    with. *)
Definition resolved (detected : option str) (tool : option str) : option str :=
  if negb (truthy_opt tool) then detected else tool.

(** [subprocess.run(argv, input=text.encode(), check=True)] inside the
    same [try]: the argument is encoded before the call is made, and
    [UnicodeEncodeError] is not caught. *)
Definition run_encoded (run : runner) (argv : list str) (text : str)
    : result bool * list invocation :=
  match encode_error text with
  | Some e => (Raise e, [])
  | None => run_checked run (Invocation argv (Encoded text))
  end.

(** [copy_to_clipboard(text, tool)]. *)
Definition copy_to_clipboard (sys : system) (run : runner) (text : str)
    (tool : option str) : result bool * list invocation :=
  let tool := resolved (detect_clipboard_tool sys) tool in
  match tool with
  | Some name =>
      if negb (truthy name) then (Return false, [])
      else if bool_decide (name = lit "wl-copy") then
        run_checked run (Invocation [lit "wl-copy"; text] NoInput)
      else if bool_decide (name = lit "xclip") then
        run_encoded run [lit "xclip"; lit "-selection"; lit "clipboard"] text
      else if bool_decide (name = lit "pbcopy") then
        run_encoded run [lit "pbcopy"] text
      else (Return false, [])
  | None => (Return false, [])
  end.

(** [type_text(text, tool)]. *)
Definition type_text (sys : system) (run : runner) (text : str)
    (tool : option str) : result bool * list invocation :=
  let tool := resolved (detect_typing_tool sys) tool in
  match tool with
  | Some name =>
      if negb (truthy name) then (Return false, [])
      else if bool_decide (name = lit "ydotool") then
        run_checked run
          (Invocation [lit "ydotool"; lit "type"; lit "--file"; lit "-"]
                      (AsText text))
      else if bool_decide (name = lit "xdotool") then
        run_checked run
          (Invocation [lit "xdotool"; lit "type"; lit "--"; text] NoInput)
      else (Return false, [])
  | None => (Return false, [])
  end.

(** The tools each function knows how to drive. *)
Definition clipboard_tools : list str :=
  [lit "wl-copy"; lit "xclip"; lit "pbcopy"].

Definition typing_tools : list str := [lit "ydotool"; lit "xdotool"].

(** *** Notions used to state what detection returns *)

(** [preferred installed names t]: [t] is in [names], it is installed,
    and no name listed before it is. *)
Definition preferred (installed : str -> bool) (names : list str) (t : str)
    : Prop :=
  exists before after,
    names = before ++ t :: after
    /\ installed t = true
    /\ Forall (fun c => installed c = false) before.

Definition on_path (sys : system) (cmd : str) : bool :=
  truthy_opt (which sys cmd).

(** The program an invocation starts. *)
Definition program (inv : invocation) : str :=
  match argv inv with
  | name :: _ => name
  | [] => []
  end.

(** What the value returned owes to the one command run: [True] for the
    exit status zero, [False] for any other, and the exception of the
    call when it raised. *)
Definition decided_by (run : runner) (inv : invocation) (r : result bool)
    : Prop :=
  match run inv with
  | Exit rc => r = Return (rc =? 0)%Z
  | Fails e => r = Raise e
  end.

(** [Transcriber.__init__]: [whisper_cli or detect_whisper_cli()], and
    [RuntimeError] when neither gives a path. *)
Definition Transcriber_init (sys : system) (model_path : str)
    (whisper_cli : option str) (language : str) (threads timeout : Z)
    : result transcriber.Transcriber :=
  let detected_cli := or_else whisper_cli (detect_whisper_cli sys) in
  match detected_cli with
  | Some cli =>
      if negb (truthy cli) then
        Raise (Exn OtherException
                 (lit "Could not find whisper-cli. Please install whisper.cpp or specify the path in your configuration."))
      else
        Return (transcriber.Build_Transcriber model_path language threads
                  timeout cli)
  | None =>
      Raise (Exn OtherException
               (lit "Could not find whisper-cli. Please install whisper.cpp or specify the path in your configuration."))
  end.

End tools.

(** ** whisper_dictate/transcriber.py: model files *)

Module models.
Import Py builtins.

(** The name [download_model] gives the file: ["ggml-"] in front unless
    it is there, [".bin"] behind unless it is there. *)
Definition normalize (model_name : str) : str :=
  let model_name :=
    if negb (startswith (lit "ggml-") model_name)
    then lit "ggml-" ++ model_name
    else model_name in
  if negb (endswith (lit ".bin") model_name)
  then model_name ++ lit ".bin"
  else model_name.

(** The file name [RecorderWindow.__init__] looks for, given
    [config.model.name]. *)
Definition window_model_file (name : str) : str :=
  if negb (endswith (lit ".bin") name)
  then lit "ggml-" ++ name ++ lit ".bin"
  else name.

(** Matching of a file name against a pattern made of literal
    characters and [*], as [Path.glob] does for one path component on a
    case-sensitive file system. *)
Fixpoint fnmatch (pat : str) (name : str) {struct pat} : bool :=
  match pat with
  | [] => negb (truthy name)
  | p :: pat' =>
      if (p =? 42)%N then
        (fix star (name : str) : bool :=
           fnmatch pat' name
           || match name with
              | [] => false
              | _ :: rest => star rest
              end) name
      else
        match name with
        | c :: rest => (c =? p)%N && fnmatch pat' rest
        | [] => false
        end
  end.

Definition model_pattern : str := lit "ggml-*.bin".

(** [get_available_models(models_dir)].  [entries] is what the
    directory holds, in the order the system lists it; [None] when the
    directory does not exist. *)
Definition get_available_models (entries : option (list str)) : list str :=
  match entries with
  | None => []
  | Some names => List.filter (fnmatch model_pattern) names
  end.

(** What the download meets: [urlopen] raises, [open(output_path, "wb")]
    raises, [copyfileobj] raises after [partial] has been written, or
    the copy completes with [body]. *)
Inductive transfer :=
| UrlopenRaises (e : exn)
| OpenRaises (e : exn)
| CopyRaises (partial : bytes) (e : exn)
| Copied (body : bytes).

Definition base_url : str :=
  lit "https://huggingface.co/ggerganov/whisper.cpp/resolve/main".

(** [path.exists()], over the files by path. *)
Definition exists_ (fs : gmap str bytes) (path : str) : bool :=
  bool_decide (is_Some (fs !! path)).

(** What a call of [download_model] amounts to. *)
Record download := Download {
  returned : bool;
  files_after : gmap str bytes;
  requested : list str;      (* the URLs opened *)
  printed : list str
}.

(** The [except] clause of [download_model]: the message, then
    [if output_path.exists(): output_path.unlink()]; [fs] is the files
    when the exception arrives. *)
Definition except_clause (fs : gmap str bytes) (output_path url downloading : str)
    (e : exn) : download :=
  let fs :=
    if exists_ fs output_path then delete output_path fs else fs in
  Download false fs [url]
           [downloading; lit "Failed to download model: " ++ exn_msg e].

(** [download_model(model_name, models_dir)], for a models directory
    that exists or can be made.  [fs] is the files before the call,
    [net] what opening a URL leads to; [open(output_path, "wb")] makes
    the file, empty, and [copyfileobj] fills it. *)
Definition download_model (model_name models_dir : str)
    (fs : gmap str bytes) (net : str -> transfer) : download :=
  let model_name := normalize model_name in
  let output_path := Path_div models_dir model_name in
  if exists_ fs output_path then
    Download true fs []
             [lit "Model already exists: " ++ output_path]
  else
    let url := base_url ++ lit "/" ++ model_name in
    let downloading := lit "Downloading " ++ model_name ++ lit "..." in
    match net url with
    | UrlopenRaises e => except_clause fs output_path url downloading e
    | OpenRaises e => except_clause fs output_path url downloading e
    | CopyRaises partial e =>
        except_clause (<[output_path := partial]> fs)
                      output_path url downloading e
    | Copied body =>
        Download true (<[output_path := body]> fs) [url]
                 [downloading; lit "Downloaded to: " ++ output_path]
    end.

End models.

(** ** whisper_dictate/config.py *)

Module config.
Import Py builtins.

(** A value of a TOML document.  A dataclass does not check the type of
    what it is given, so the fields of a [Config] hold such values too.
    [VOther] is a float, a date or a time: the code asks nothing of it
    but its type and its truth value. *)
#[warnings="-register-all"] Inductive value :=
| VStr (s : str)
| VInt (z : Z)
| VBool (b : bool)
| VOther (type_name : str) (truth : bool) (id : N)
| VArray (items : list value)
| VTable (entries : list (str * value)).

(** [bool(v)]. *)
Definition truth (v : value) : bool :=
  match v with
  | VStr s => truthy s
  | VInt z => negb (z =? 0)%Z
  | VBool b => b
  | VOther _ t _ => t
  | VArray items => negb (bool_decide (items = []))
  | VTable entries => negb (bool_decide (entries = []))
  end.

Definition type_name_of (v : value) : str :=
  match v with
  | VStr _ => lit "str"
  | VInt _ => lit "int"
  | VBool _ => lit "bool"
  | VOther n _ _ => n
  | VArray _ => lit "list"
  | VTable _ => lit "dict"
  end.

(** [v == s] for a string [s]. *)
Definition eq_str (v : value) (s : str) : bool :=
  match v with
  | VStr s' => bool_decide (s' = s)
  | _ => false
  end.

(** [d[k]] where [k in d], for a dict. *)
Fixpoint item (k : str) (d : list (str * value)) : option value :=
  match d with
  | [] => None
  | (k', v) :: rest => if bool_decide (k = k') then Some v else item k rest
  end.

(** [g.get(k, default)]: only a table has the method. *)
Definition get (g : value) (k : str) (default : value) : result value :=
  match g with
  | VTable entries =>
      Return (match item k entries with Some v => v | None => default end)
  | _ =>
      Raise (Exn OtherException
               (lit "'" ++ type_name_of g
                ++ lit "' object has no attribute 'get'"))
  end.

Record GeneralConfig := Build_GeneralConfig {
  output_mode : value;
  language : value
}.

Record ModelConfig := Build_ModelConfig {
  name : value;
  path : value
}.

Record TranscriptionConfig := Build_TranscriptionConfig {
  whisper_cli : value;
  threads : value;
  timeout : value
}.

Record UIConfig := Build_UIConfig {
  position : value;
  edge_margin : value;
  theme : value
}.

Record Config := Build_Config {
  general : GeneralConfig;
  model : ModelConfig;
  transcription : TranscriptionConfig;
  ui : UIConfig
}.

(** [ModelConfig(name=..., path=...)] with its [__post_init__];
    [models_dir] is [str(get_models_dir())]. *)
Definition ModelConfig_init (models_dir : str) (name path : value)
    : ModelConfig :=
  let path := if negb (truth path) then VStr models_dir else path in
  Build_ModelConfig name path.

(** [Config()]. *)
Definition Config_default (models_dir : str) : Config :=
  Build_Config
    (Build_GeneralConfig (VStr (lit "clipboard")) (VStr (lit "en")))
    (ModelConfig_init models_dir (VStr (lit "small.en")) (VStr (lit "")))
    (Build_TranscriptionConfig (VStr (lit "")) (VInt 4) (VInt 60))
    (Build_UIConfig (VStr (lit "bottom")) (VInt 60) (VStr (lit "google"))).

(** What [load_config] finds at [path]: nothing, a file that cannot be
    opened or is not TOML, or a document. *)
Inductive file :=
| Missing
| Unreadable (e : exn)
| Document (data : list (str * value)).

Definition with_general (g : GeneralConfig) (c : Config) : Config :=
  Build_Config g (model c) (transcription c) (ui c).
Definition with_model (m : ModelConfig) (c : Config) : Config :=
  Build_Config (general c) m (transcription c) (ui c).
Definition with_transcription (t : TranscriptionConfig) (c : Config) : Config :=
  Build_Config (general c) (model c) t (ui c).
Definition with_ui (u : UIConfig) (c : Config) : Config :=
  Build_Config (general c) (model c) (transcription c) u.

(** The four sections of the [try] block of [load_config], each
    assigning to [config] once its values have been fetched. *)
Definition load_general (data : list (str * value)) (config : Config)
    : result Config :=
  match item (lit "general") data with
  | None => Return config
  | Some g =>
      match get g (lit "output_mode") (VStr (lit "clipboard")) with
      | Raise e => Raise e
      | Return o =>
          match get g (lit "language") (VStr (lit "en")) with
          | Raise e => Raise e
          | Return l => Return (with_general (Build_GeneralConfig o l) config)
          end
      end
  end.

Definition load_model (models_dir : str) (data : list (str * value))
    (config : Config) : result Config :=
  match item (lit "model") data with
  | None => Return config
  | Some m =>
      match get m (lit "name") (VStr (lit "small.en")) with
      | Raise e => Raise e
      | Return n =>
          match get m (lit "path") (VStr (lit "")) with
          | Raise e => Raise e
          | Return p =>
              Return (with_model (ModelConfig_init models_dir n p) config)
          end
      end
  end.

Definition load_transcription (data : list (str * value)) (config : Config)
    : result Config :=
  match item (lit "transcription") data with
  | None => Return config
  | Some t =>
      match get t (lit "whisper_cli") (VStr (lit "")) with
      | Raise e => Raise e
      | Return c =>
          match get t (lit "threads") (VInt 4) with
          | Raise e => Raise e
          | Return n =>
              match get t (lit "timeout") (VInt 60) with
              | Raise e => Raise e
              | Return s =>
                  Return (with_transcription
                            (Build_TranscriptionConfig c n s) config)
              end
          end
      end
  end.

Definition load_ui (data : list (str * value)) (config : Config)
    : result Config :=
  match item (lit "ui") data with
  | None => Return config
  | Some u =>
      match get u (lit "position") (VStr (lit "bottom")) with
      | Raise e => Raise e
      | Return p =>
          match get u (lit "edge_margin") (VInt 60) with
          | Raise e => Raise e
          | Return m =>
              match get u (lit "theme") (VStr (lit "google")) with
              | Raise e => Raise e
              | Return t => Return (with_ui (Build_UIConfig p m t) config)
              end
          end
      end
  end.

Definition warning (path : str) (e : exn) : str :=
  lit "Warning: Could not load config from " ++ path ++ lit ": " ++ exn_msg e.

(** [load_config(path)]: the configuration returned and the lines
    printed.  An exception leaves [config] as the sections before it
    made it. *)
Definition load_config (models_dir path : str) (f : file)
    : Config * list str :=
  let config := Config_default models_dir in
  match f with
  | Missing => (config, [])
  | Unreadable e => (config, [warning path e])
  | Document data =>
      match load_general data config with
      | Raise e => (config, [warning path e])
      | Return c1 =>
          match load_model models_dir data c1 with
          | Raise e => (c1, [warning path e])
          | Return c2 =>
              match load_transcription data c2 with
              | Raise e => (c2, [warning path e])
              | Return c3 =>
                  match load_ui data c3 with
                  | Raise e => (c3, [warning path e])
                  | Return c4 => (c4, [])
                  end
              end
          end
      end
  end.

(** What a document says for [key] of [section], [default] if it says
    nothing. *)
Definition setting (data : list (str * value)) (section key : str)
    (default : value) : value :=
  match item section data with
  | Some (VTable entries) =>
      match item key entries with
      | Some v => v
      | None => default
      end
  | _ => default
  end.

(** A section that is there is a table. *)
Definition section_ok (data : list (str * value)) (section : str) : bool :=
  match item section data with
  | Some (VTable _) | None => true
  | Some _ => false
  end.

(** The [data] dict [save_config] builds. *)
Definition save_data (config : Config) : list (str * value) :=
  [ (lit "general",
     VTable [ (lit "output_mode", output_mode (general config));
              (lit "language", language (general config)) ]);
    (lit "model",
     VTable [ (lit "name", name (model config));
              (lit "path", path (model config)) ]);
    (lit "transcription",
     VTable [ (lit "whisper_cli", whisper_cli (transcription config));
              (lit "threads", threads (transcription config));
              (lit "timeout", timeout (transcription config)) ]);
    (lit "ui",
     VTable [ (lit "position", position (ui config));
              (lit "edge_margin", edge_margin (ui config));
              (lit "theme", theme (ui config)) ]) ].

(** What writing the file meets: the directory is made, the file
    opened and the document dumped into it; or [mkdir] or [open]
    raises, before anything is written; or [open] succeeds, which
    empties the file, and [tomli_w.dump] raises (for a string that has
    no encoding, say), [remains] being what the file holds by then. *)
Inductive disk :=
| Writable
| Refuses (e : exn)
| Truncates (e : exn) (remains : file).

(** [save_config(config, path)]: the value returned, the file
    afterwards and the lines printed.  After a dump that went through,
    the file is taken to hold the document that was dumped into it. *)
Definition save_config (config : Config) (path : str) (d : disk) (f : file)
    : bool * file * list str :=
  let error e :=
    [lit "Error saving config to " ++ path ++ lit ": " ++ exn_msg e] in
  match d with
  | Writable => (true, Document (save_data config), [])
  | Refuses e => (false, f, error e)
  | Truncates e remains => (false, remains, error e)
  end.

(** [create_default_config()]. *)
Definition create_default_config (models_dir path : str) (d : disk) (f : file)
    : file :=
  match f with
  | Missing => snd (fst (save_config (Config_default models_dir) path d f))
  | _ => f
  end.

End config.

(** ** whisper_dictate/window.py: where the window is put *)

Module placement.
Import Py.

(** A [QRect]: where it starts on the screen and how large it is. *)
Record QRect := Rect {
  left : Z;
  top : Z;
  width : Z;
  height : Z
}.

(** [position_window()] for an [edge_margin] that is an integer: the
    rectangle handed to [setGeometry].  [None] when there is no primary
    screen; [available] is its [availableGeometry()], of which the
    method reads the width and the height only, and [size] the width
    and the height of the window. *)
Definition position_window (available : option QRect) (size : Z * Z)
    (position : config.value) (edge_margin : Z) : option QRect :=
  match available with
  | None => None
  | Some available =>
      let x := ((width available - fst size) / 2)%Z in
      let y :=
        if config.eq_str position (lit "top") then edge_margin
        else (height available - snd size - edge_margin)%Z in
      Some (Rect x y (fst size) (snd size))
  end.

End placement.

(** ** What a session does to the audio device and to the sinks *)

Module observed.
Import Py host.

(** The calls to PortAudio within a list of calls, and those to the
    clipboard and to the typing tool. *)
Definition is_device (c : call) : bool :=
  match c with
  | StreamOpen _ _ _ _ | StreamStop | StreamClose | Terminate => true
  | _ => false
  end.

Definition is_sink (c : call) : bool :=
  match c with
  | Clipboard _ | Typing _ => true
  | _ => false
  end.

Definition devices (w : world) : list call := List.filter is_device (trace w).
Arguments devices : simpl never.

Definition sinks (w : world) : list call := List.filter is_sink (trace w).
Arguments sinks : simpl never.

(** The life of the audio device, in full. *)
Definition device_life : list call :=
  [StreamOpen 2 1 16000 1024; StreamStop; StreamClose; Terminate].

(** The part of it that lies behind a session in each phase. *)
Definition devices_by (p : cli.phase) : list call :=
  match p with
  | cli.Idle => []
  | cli.Recording => take 1 device_life
  | cli.Transcribing | cli.Delivering => take 3 device_life
  | cli.Finished => device_life
  end.

(** One delivery at most: nothing, or one text, not empty, copied and,
    in the output mode ["type"] only, typed after that. *)
Definition delivered (output_mode : str) (s : list call) : Prop :=
  s = []
  \/ exists text,
       text <> []
       /\ (s = [Clipboard text]
           \/ (s = [Clipboard text; Typing text] /\ output_mode = lit "type")).

Definition sinks_by (output_mode : str) (p : cli.phase) (s : list call)
    : Prop :=
  match p with
  | cli.Idle | cli.Recording | cli.Transcribing => s = []
  | cli.Delivering | cli.Finished => delivered output_mode s
  end.

(** What holds of the device and the sinks in a session of output mode
    [om] that began on the machine [w0]. *)
Definition observed_invariant (om : str) (w0 : world)
    (st : window.RecorderWindow * world) : Prop :=
  exists p s,
    cli.in_phase p (fst st)
    /\ window.output_mode (fst st) = om
    /\ (p = cli.Recording ->
        recorder.stream (window.recorder (fst st)) = true)
    /\ devices (snd st) = devices w0 ++ devices_by p
    /\ sinks (snd st) = sinks w0 ++ s
    /\ sinks_by om p s.

(** Of two markers, the second is the first or none. *)
Definition kept_or_removed (before after : option str) : Prop :=
  after = before \/ after = None.

End observed.


(** ** Concrete machines and sessions used as examples *)

Module examples.
Import Py host.

(** A machine on which no process is alive, holding [marker]. *)
Definition machine (marker : option str) : world :=
  World marker ∅ 7001 (fun _ => Gone) [].


Definition stale_machine : world := machine (Some (lit "4242")).

(** Another process that leaves a marker naming the dead process 4343
    behind, whatever it finds. *)
Definition second_stale (_ : option str) : option str := Some (lit "4343").

Definition a_transcriber : transcriber.Transcriber :=
  transcriber.Build_Transcriber
    (lit "/models/ggml-small.en.bin") (lit "en") 4 60 (lit "/usr/bin/whisper-cli").

Definition an_audio_file : string := "/tmp/tmpk3v9x0q2.wav".

(** A session: start, one chunk of two samples, Escape, the
    transcription says "hi" and is copied, the window closes. *)
Definition a_session : list cli.event :=
  [ cli.StartTimer "/tmp/tmpk3v9x0q2";
    cli.AudioChunk [Byte.x01; Byte.x00; Byte.xff; Byte.x7f];
    cli.KeyPress window.Key_Escape;
    cli.ThreadRuns (fun _ _ => transcriber.Completed 0 (lit "hi" ++ [NL]))
                   (Return true) (Return true);
    cli.DoneDelivered;
    cli.CloseTimer ].

(** The same session up to the moment the recording has stopped and the
    transcription thread is about to run. *)
Definition a_stopped_session : list cli.event :=
  [ cli.StartTimer "/tmp/tmpk3v9x0q2";
    cli.AudioChunk [Byte.x01; Byte.x00; Byte.xff; Byte.x7f];
    cli.KeyPress window.Key_Escape ].

(** A session stopped by Escape before any chunk arrived. *)
Definition a_silent_session : list cli.event :=
  [ cli.StartTimer "/tmp/tmpk3v9x0q2";
    cli.KeyPress window.Key_Escape;
    cli.CloseTimer ].

(** The window of a process that has claimed the marker. *)
Definition a_start : window.RecorderWindow * world :=
  (window.init (lit "clipboard") a_transcriber, machine (Some (lit "7001"))).

(** A system with the X11 tools and a whisper.cpp build on the search
    path. *)
Definition an_x11_system : tools.system :=
  tools.System
    (fun cmd =>
       if bool_decide (cmd = lit "xclip") then Some (lit "/usr/bin/xclip")
       else if bool_decide (cmd = lit "xdotool") then Some (lit "/usr/bin/xdotool")
       else if bool_decide (cmd = lit "whisper") then Some (lit "/opt/whisper/whisper")
       else None)
    (fun path => bool_decide (path = lit "/usr/local/bin/whisper-cli"))
    (lit "/home/user").

(** A system with none of the tools. *)
Definition a_bare_system : tools.system :=
  tools.System (fun _ => None) (fun _ => false) (lit "/home/user").

(** A configuration file that asks for typed output and a larger
    model, and says nothing else. *)
Definition a_config_document : list (str * config.value) :=
  [ (lit "general",
     config.VTable [ (lit "output_mode", config.VStr (lit "type")) ]);
    (lit "model",
     config.VTable [ (lit "name", config.VStr (lit "medium")) ]) ].

(** The same file with [model = "medium"] written where a table
    [[model]] is expected, followed by a section for the window. *)
Definition a_broken_document : list (str * config.value) :=
  [ (lit "general",
     config.VTable [ (lit "output_mode", config.VStr (lit "type")) ]);
    (lit "model", config.VStr (lit "medium"));
    (lit "ui",
     config.VTable [ (lit "position", config.VStr (lit "top")) ]) ].

Definition a_models_dir : str :=
  lit "/home/user/.local/share/whisper-dictate/models".

Definition a_config_path : str :=
  lit "/home/user/.config/whisper-dictate/config.toml".

(** The chunk of the repository's test of the level callback,
    [b"\x00\x10" * 512]: 512 samples of 4096. *)
Definition a_chunk : bytes := concat (repeat [Byte.x00; Byte.x10] 512).

(** 512 samples of -32768. *)
Definition a_full_scale_chunk : bytes :=
  concat (repeat [Byte.x00; Byte.x80] 512).

(** The samples 1, 0, 0. *)
Definition a_faint_chunk : bytes :=
  [Byte.x01; Byte.x00; Byte.x00; Byte.x00; Byte.x00; Byte.x00].

End examples.
(* ===================================================================== *)
(** * Part II: properties                                                 *)
(* ===================================================================== *)

Module PyFacts.
Import Py.

(** Closes goals [blank s] and [Forall blank l] built from the context. *)
Ltac blank_tac :=
  unfold blank in *;
  repeat first [ assumption | apply List.Forall_nil | apply List.Forall_cons ].

Lemma isspace_NL : isspace NL = true.
Proof. reflexivity. Qed.

Lemma eqb_sep_space c : (c =? NL)%N = true -> isspace c = true.
Proof. intros H%N.eqb_eq. subst. reflexivity. Qed.

Lemma split_nonempty sep s : split sep s <> [].
Proof.
  destruct s as [|c s]; simpl; [discriminate|].
  destruct (c =? sep)%N; [discriminate|].
  destruct (split sep s); discriminate.
Qed.

Lemma rstrip_nil_space s : rstrip s = [] -> blank s.
Proof.
  unfold blank. induction s as [|c s IH]; simpl; intros H; [constructor|].
  destruct (rstrip s) eqn:E; [|discriminate].
  destruct (isspace c) eqn:Ec; [|discriminate].
  constructor; auto.
Qed.

Lemma rstrip_space s : blank s -> rstrip s = [].
Proof.
  induction 1 as [|c s Hc _ IH]; simpl; [reflexivity|].
  rewrite IH, Hc. reflexivity.
Qed.

Lemma lstrip_space s : blank s -> lstrip s = [].
Proof.
  induction 1 as [|c s Hc _ IH]; simpl; [reflexivity|].
  rewrite Hc. exact IH.
Qed.

Lemma rstrip_app_space s w :
  blank w -> rstrip (s ++ w) = rstrip s.
Proof.
  intros Hw. induction s as [|c s IH]; simpl.
  - apply rstrip_space, Hw.
  - rewrite IH. reflexivity.
Qed.

Lemma lstrip_app_space s w :
  blank w ->
  rstrip (lstrip (s ++ w)) = rstrip (lstrip s).
Proof.
  intros Hw. induction s as [|c s IH]; simpl.
  - rewrite (lstrip_space w Hw). reflexivity.
  - destruct (isspace c); [exact IH|].
    apply (rstrip_app_space (c :: s) w Hw).
Qed.

Lemma strip_app_space s w :
  blank w -> strip (s ++ w) = strip s.
Proof. apply lstrip_app_space. Qed.

Lemma strip_space s : blank s -> strip s = [].
Proof. intros H. unfold strip. rewrite (lstrip_space s H). reflexivity. Qed.

Lemma strip_cons_space c s : isspace c = true -> strip (c :: s) = strip s.
Proof. intros H. unfold strip. simpl. rewrite H. reflexivity. Qed.

End PyFacts.


(** ** utils.py and the start of main: the marker file *)

Module utils_facts.
Import Py host utils cli.

Section marker.

Variable int_ : str -> option Z.

(** Runs a computation of [M] as far as the equations given decide it. *)
Ltac run_with Hs :=
  unfold is_already_running, bind, try_except, PID_FILE_exists,
    PID_FILE_read_text, int_or_raise, os_kill, ret, raise;
  repeat (progress (cbn; rewrite ?Hs)).

Lemma is_already_running_absent w :
  pid_file w = None -> is_already_running int_ w = (Return false, w).
Proof.
  intros H. unfold is_already_running, bind, PID_FILE_exists.
  rewrite H. reflexivity.
Qed.

Lemma is_already_running_live w text pid :
  pid_file w = Some text -> int_ (strip text) = Some pid ->
  processes w pid = Live ->
  is_already_running int_ w = (Return true, log [Signal pid SIGUSR1] w).
Proof.
  intros Hm Hi Hp.
  run_with Hm. run_with Hi. run_with Hp. reflexivity.
Qed.

Lemma is_already_running_stale w text pid :
  pid_file w = Some text -> int_ (strip text) = Some pid ->
  processes w pid = Gone ->
  is_already_running int_ w
  = (Return false, log [UnlinkPidFile] (set_pid_file None w)).
Proof.
  intros Hm Hi Hp.
  run_with Hm. run_with Hi. run_with Hp. reflexivity.
Qed.

Lemma is_already_running_unparsable w text :
  pid_file w = Some text -> int_ (strip text) = None ->
  is_already_running int_ w
  = (Return false, log [UnlinkPidFile] (set_pid_file None w)).
Proof.
  intros Hm Hi.
  run_with Hm. run_with Hi. reflexivity.
Qed.

(** A recorded process that exists but may not be signalled makes
    [os.kill] raise [PermissionError], which the [except] clause does not
    name: the exception leaves [is_already_running], and with it [main],
    with the marker untouched and nothing sent. *)
Remark is_already_running_forbidden w text pid :
  pid_file w = Some text -> int_ (strip text) = Some pid ->
  processes w pid = Forbidden ->
  is_already_running int_ w = (Raise (Exn PermissionError []), w).
Proof.
  intros Hm Hi Hp.
  run_with Hm. run_with Hi. run_with Hp. reflexivity.
Qed.

(** When the check reports no running instance, the claim writes the
    caller's identifier over whatever the marker holds by then. *)
Lemma claim_after_negative_check others w w' :
  is_already_running int_ w = (Return false, w') ->
  claimOrSignal_raced int_ others w
  = (Return Claimed, set_pid_file (Some (str_of_int (getpid w'))) w').
Proof.
  intros H. unfold claimOrSignal_raced, bind. rewrite H.
  destruct w'. reflexivity.
Qed.

Lemma claimOrSignal_unraced w :
  claimOrSignal int_ w = claimOrSignal_raced int_ (fun m => m) w.
Proof.
  unfold claimOrSignal, claimOrSignal_raced, bind.
  destruct (is_already_running int_ w) as [[[]|e] [m t p ps tr]]; reflexivity.
Qed.


(** C10. A marker whose text is no integer is handled exactly like a
    stale one: the file is deleted, no signal is sent (the only call made
    is the unlink), the check answers [False], the result is the one a
    marker naming a dead process gives, and the invocation goes on to
    claim ownership with its own identifier. *)
Theorem unparsable_marker_treated_as_stale w text :
  pid_file w = Some text -> int_ (strip text) = None ->
  is_already_running int_ w
  = (Return false, World None (tmp w) (getpid w) (processes w)
                         (trace w ++ [UnlinkPidFile]))
  /\ (forall text' pid,
       int_ (strip text') = Some pid -> processes w pid = Gone ->
       is_already_running int_ (set_pid_file (Some text') w)
       = is_already_running int_ w)
  /\ claimOrSignal int_ w
     = (Return Claimed,
        World (Some (str_of_int (getpid w))) (tmp w) (getpid w) (processes w)
              (trace w ++ [UnlinkPidFile])).
Proof.
  intros Hm Hi.
  pose proof (is_already_running_unparsable w text Hm Hi) as E.
  split; [exact E|split].
  - intros text' pid Hi' Hp.
    rewrite E.
    rewrite (is_already_running_stale (set_pid_file (Some text') w) text' pid);
      [reflexivity|reflexivity|exact Hi'|exact Hp].
  - rewrite claimOrSignal_unraced.
    rewrite (claim_after_negative_check _ w _ E). reflexivity.
Qed.

(** C2, amended. A marker whose recorded process is not alive is
    deleted and the check answers [False]; the claim then succeeds at
    once: the caller's identifier is written without the marker being
    read again, so whatever other processes put there between the
    deletion and the write, a second stale marker included, is
    overwritten and the result is [Claimed], never an error. *)
Theorem stale_marker_deleted_then_overwritten w text pid :
  pid_file w = Some text -> int_ (strip text) = Some pid ->
  processes w pid = Gone ->
  is_already_running int_ w
  = (Return false, World None (tmp w) (getpid w) (processes w)
                         (trace w ++ [UnlinkPidFile]))
  /\ (forall others,
       claimOrSignal_raced int_ others w
       = (Return Claimed,
          World (Some (str_of_int (getpid w))) (tmp w) (getpid w) (processes w)
                (trace w ++ [UnlinkPidFile])))
  /\ claimOrSignal int_ w
     = (Return Claimed,
        World (Some (str_of_int (getpid w))) (tmp w) (getpid w) (processes w)
              (trace w ++ [UnlinkPidFile])).
Proof.
  intros Hm Hi Hp.
  pose proof (is_already_running_stale w text pid Hm Hi Hp) as E.
  split; [exact E|split].
  - intros others. rewrite (claim_after_negative_check others w _ E). reflexivity.
  - rewrite claimOrSignal_unraced.
    rewrite (claim_after_negative_check _ w _ E). reflexivity.
Qed.

End marker.

(** *** Writing and reading the marker *)

Lemma strip_no_space s :
  Forall (fun c => isspace c = false) s -> strip s = s.
Proof.
  intros H. unfold strip.
  assert (L : lstrip s = s).
  { destruct H as [|c s Hc Hs]; [reflexivity|]. simpl. rewrite Hc. reflexivity. }
  rewrite L. clear L.
  induction H as [|c s Hc Hs IH]; [reflexivity|].
  simpl. rewrite IH, Hc. destruct s; reflexivity.
Qed.

Lemma digits_no_space d :
  Forall (fun c => isspace c = false) (lit (NilEmpty.string_of_uint d)).
Proof. induction d; simpl; constructor; auto. Qed.

Lemma digits_of_uint_acc d : forall p,
  digits (Zpos p) true (lit (NilEmpty.string_of_uint d))
  = Some (Zpos (Pos.of_uint_acc d p)).
Proof.
  induction d; intros p; [reflexivity|..];
    cbn [NilEmpty.string_of_uint lit list_ascii_of_string map Pos.of_uint_acc];
    cbn [digits]; cbn -[Z.mul Z.add digits Pos.of_uint_acc];
    rewrite <- IHd; f_equal; lia.
Qed.

Lemma digits_of_uint d : forall b,
  d <> Decimal.Nil \/ b = true ->
  digits 0 b (lit (NilEmpty.string_of_uint d)) = Some (Z.of_N (Pos.of_uint d)).
Proof.
  induction d; intros b Hb;
    [destruct Hb as [Hb|Hb]; [congruence|subst b; reflexivity]|..];
    cbn [NilEmpty.string_of_uint lit list_ascii_of_string map Pos.of_uint];
    cbn [digits]; cbn -[Z.mul Z.add digits Pos.of_uint_acc Pos.of_uint Z.of_N];
    first [ apply IHd; right; reflexivity
          | apply digits_of_uint_acc ].
Qed.

Lemma int_ascii_str_of_int n :
  (0 <= n)%Z -> int_ascii (strip (str_of_int n)) = Some n.
Proof.
  intros Hn. destruct n as [|p|p]; [reflexivity| |lia].
  unfold str_of_int. cbn [Z.to_int NilZero.string_of_int].
  pose proof (DecimalPos.Unsigned.to_uint_nonnil p) as Hnil.
  pose proof (DecimalPos.Unsigned.of_to p) as Hof.
  unfold NilZero.string_of_uint.
  destruct (Pos.to_uint p) as [|d|d|d|d|d|d|d|d|d|d] eqn:E; [congruence|..];
    unfold int_ascii;
    rewrite !(strip_no_space _ (digits_no_space _));
    match goal with
    | |- context [lit (NilEmpty.string_of_uint ?u)] =>
        transitivity (digits 0 false (lit (NilEmpty.string_of_uint u)));
        [ reflexivity
        | rewrite (digits_of_uint u false) by (left; discriminate);
          rewrite Hof; reflexivity ]
    end.
Qed.

(** What the first invocation writes, the second one reads: on a
    machine without a marker the first process claims; a second process
    that then finds this marker, with the first process alive, sends it
    the stop signal and leaves the marker alone. *)
Lemma second_invocation_signals_first w w2 :
  pid_file w = None -> (0 <= getpid w)%Z ->
  pid_file w2 = pid_file (snd (claimOrSignal int_ascii w)) ->
  processes w2 (getpid w) = Live ->
  claimOrSignal int_ascii w2
  = (Return SignaledExisting, log [Signal (getpid w) SIGUSR1] w2).
Proof.
  intros Hfresh Hpid Hmarker Hlive.
  rewrite claimOrSignal_unraced in Hmarker.
  rewrite (claim_after_negative_check int_ascii _ w w
             (is_already_running_absent int_ascii w Hfresh)) in Hmarker.
  cbn [snd pid_file set_pid_file] in Hmarker.
  unfold claimOrSignal, bind.
  rewrite (is_already_running_live int_ascii w2 _ (getpid w) Hmarker
             (int_ascii_str_of_int _ Hpid) Hlive).
  reflexivity.
Qed.


Lemma unparsable_marker_treated_as_stale_witness :
  is_already_running int_ascii (examples.machine (Some (lit "not a pid")))
  = (Return false, World None ∅ 7001 (fun _ => Gone) [UnlinkPidFile]).
Proof.
  apply (unparsable_marker_treated_as_stale int_ascii
           (examples.machine (Some (lit "not a pid"))) (lit "not a pid"));
    reflexivity.
Defined.

Lemma stale_marker_deleted_then_overwritten_witness :
  claimOrSignal int_ascii examples.stale_machine
  = (Return Claimed,
     World (Some (lit "7001")) ∅ 7001 (fun _ => Gone) [UnlinkPidFile]).
Proof.
  apply (stale_marker_deleted_then_overwritten int_ascii
           examples.stale_machine (lit "4242") 4242%Z);
    reflexivity.
Defined.

(** C2 as stated fails.  The marker found names the dead process 4242
    and is deleted; before the caller writes, a second marker naming the
    dead process 4343 is in place.  The claim does not look again: it
    returns [Claimed], without an error, and the second stale marker is
    overwritten by the caller's identifier. *)
Lemma second_stale_marker_not_fatal :
  (pid_file examples.stale_machine = Some (lit "4242")
   /\ int_ascii (strip (lit "4242")) = Some 4242%Z
   /\ processes examples.stale_machine 4242 = Gone)
  /\ (examples.second_stale None = Some (lit "4343")
      /\ int_ascii (strip (lit "4343")) = Some 4343%Z
      /\ processes examples.stale_machine 4343 = Gone)
  /\ claimOrSignal_raced int_ascii examples.second_stale examples.stale_machine
     = (Return Claimed,
        World (Some (lit "7001")) ∅ 7001 (fun _ => Gone) [UnlinkPidFile])
  /\ ~ (exists e,
          fst (claimOrSignal_raced int_ascii examples.second_stale
                 examples.stale_machine) = Raise e).
Proof.
  repeat split; try reflexivity.
  intros [e H]. discriminate H.
Qed.

End utils_facts.
(** ** transcriber.py: output cleaning *)

Module transcriber_facts.
Import Py PyFacts transcriber.

Lemma kept_blank lines : Forall blank lines -> kept lines = [].
Proof.
  induction 1 as [|l ls Hl _ IH]; [reflexivity|].
  unfold kept in *. simpl. rewrite (strip_space l Hl). exact IH.
Qed.

Lemma kept_cons line lines :
  kept (line :: lines)
  = (if truthy (strip line) then [strip line] else []) ++ kept lines.
Proof. unfold kept. simpl. destruct (truthy (strip line)); reflexivity. Qed.

Lemma kept_ext short long : ext short long -> kept short = kept long.
Proof.
  induction 1 as [line w rest Hw Hrest|line short long _ IH].
  - rewrite !kept_cons, (strip_app_space line w Hw), (kept_blank rest Hrest).
    reflexivity.
  - rewrite !kept_cons, IH. reflexivity.
Qed.

Lemma split_blank s :
  blank s -> exists w rest, split NL s = w :: rest /\ blank w /\ Forall blank rest.
Proof.
  induction 1 as [|c s Hc Hs IH]; simpl.
  - exists [], []. repeat split; blank_tac.
  - destruct IH as (w & rest & E & Hw & Hrest). rewrite E.
    destruct (c =? NL)%N.
    + exists [], (w :: rest). repeat split; blank_tac.
    + exists (c :: w), rest. repeat split; blank_tac.
Qed.

Lemma split_cons c s :
  split NL (c :: s)
  = if (c =? NL)%N then [] :: split NL s
    else match split NL s with
         | [] => [[c]]
         | field :: fields => (c :: field) :: fields
         end.
Proof. reflexivity. Qed.

Lemma ext_push c short long :
  ext short long ->
  ext match short with [] => [[c]] | field :: fields => (c :: field) :: fields end
      match long with [] => [[c]] | field :: fields => (c :: field) :: fields end.
Proof.
  destruct 1 as [line w rest Hw Hrest|line short long Hext].
  - apply (ext_last (c :: line) w rest); assumption.
  - apply ext_cons, Hext.
Qed.

Lemma split_rstrip s : ext (split NL (rstrip s)) (split NL s).
Proof.
  induction s as [|c s IH].
  - apply (ext_last [] [] []); blank_tac.
  - rewrite split_cons. simpl rstrip.
    destruct (rstrip s) as [|r0 r] eqn:Er.
    + pose proof (rstrip_nil_space s Er) as Hs.
      destruct (split_blank s Hs) as (w & rest & E & Hw & Hrest). rewrite E.
      destruct (isspace c) eqn:Ec.
      * destruct (c =? NL)%N.
        -- apply (ext_last [] [] (w :: rest)); blank_tac.
        -- apply (ext_last [] (c :: w) rest); blank_tac.
      * destruct (c =? NL)%N eqn:En.
        -- apply eqb_sep_space in En. congruence.
        -- simpl. rewrite En. apply (ext_last [c] w rest); assumption.
    + rewrite split_cons.
      destruct (c =? NL)%N; [apply ext_cons, IH|].
      apply ext_push, IH.
Qed.

Lemma kept_split_cons_space c s :
  isspace c = true -> kept (split NL (c :: s)) = kept (split NL s).
Proof.
  intros Hc. simpl. destruct (c =? NL)%N.
  - rewrite kept_cons. reflexivity.
  - destruct (split NL s) as [|field fields] eqn:E.
    + destruct (split_nonempty _ _ E).
    + rewrite !kept_cons, (strip_cons_space c field Hc). reflexivity.
Qed.

Lemma kept_split_lstrip s : kept (split NL (lstrip s)) = kept (split NL s).
Proof.
  induction s as [|c s IH]; simpl lstrip; [reflexivity|].
  destruct (isspace c) eqn:Ec; [|reflexivity].
  rewrite IH. symmetry. apply kept_split_cons_space, Ec.
Qed.

(** Stripping the whole output first does not change which lines are kept. *)
Lemma kept_split_strip s : kept (split NL (strip s)) = kept (split NL s).
Proof.
  unfold strip. rewrite (kept_ext _ _ (split_rstrip (lstrip s))).
  apply kept_split_lstrip.
Qed.

(** Filtering on the stripped line and then stripping is stripping and
    then dropping the empty results. *)
Lemma kept_filter_map lines :
  kept lines = List.filter truthy (map strip lines).
Proof.
  induction lines as [|l ls IH]; [reflexivity|].
  rewrite kept_cons, IH. simpl. destruct (truthy (strip l)); reflexivity.
Qed.

Lemma clean_lines_spec stdout :
  clean_lines stdout = List.filter truthy (map strip (split NL stdout)).
Proof.
  change (clean_lines stdout) with (kept (split NL (strip stdout))).
  rewrite kept_split_strip. apply kept_filter_map.
Qed.

Lemma transcribe_completed run self audio_file rc stdout :
  run (command self audio_file) (timeout self) = Completed rc stdout ->
  transcribe run self audio_file = (spec_clean stdout, []).
Proof.
  intros H. unfold transcribe. rewrite H.
  rewrite clean_lines_spec. reflexivity.
Qed.

(** C4. For every raw standard output of an external run that exits with
    status zero, [transcribe] returns the output split into lines on
    newline, each line trimmed, the lines that are empty after trimming
    discarded and the rest joined with single spaces, and prints
    nothing; the output "Hello\n\nworld\n" yields exactly "Hello world". *)
Theorem transcribe_cleans_output :
  (forall self audio_file stdout,
      transcribe (fun _ _ => Completed 0 stdout) self audio_file
      = (spec_clean stdout, []))
  /\ (forall self audio_file,
      fst (transcribe
             (fun _ _ => Completed 0 (lit "Hello" ++ [NL; NL] ++ lit "world" ++ [NL]))
             self audio_file)
      = lit "Hello world").
Proof.
  split; intros.
  - apply (transcribe_completed _ _ _ 0%Z). reflexivity.
  - rewrite (transcribe_completed _ _ _ 0%Z _ eq_refl). reflexivity.
Qed.

(** The exit status of the child plays no part in the result. *)
Lemma transcribe_ignores_returncode self audio_file rc stdout :
  transcribe (fun _ _ => Completed rc stdout) self audio_file
  = transcribe (fun _ _ => Completed 0 stdout) self audio_file.
Proof. reflexivity. Qed.

Lemma transcribe_raised self audio_file e :
  fst (transcribe (fun _ _ => Raised e) self audio_file) = [].
Proof. destruct e as [[] msg]; reflexivity. Qed.

Lemma text_of_spec_clean stdout :
  text_of (spec_transcribe (Completed 0 stdout)) = spec_clean stdout.
Proof. simpl. destruct (spec_clean stdout); reflexivity. Qed.

Lemma text_of_nil_failure o :
  text_of (spec_transcribe o) = [] <-> exists r, spec_transcribe o = Failure r.
Proof.
  split.
  - destruct o as [rc stdout|[[] msg]]; simpl; eauto.
    destruct (rc =? 0)%Z; [|eauto].
    destruct (spec_clean stdout); [eauto|discriminate].
  - intros [r ->]. reflexivity.
Qed.

(** C1, amended. [transcribe] returns a plain string, not a tagged
    result.  For a run that times out, fails to launch or exits with
    status zero, the string is the text of the specified result: the
    cleaned output when that is non-empty, and the empty string for each
    of the failures (timeout, process error, empty output).  A caller
    can therefore tell text from failure, by the string being empty, and
    cannot tell the failures from one another. *)
Theorem transcribe_failure_is_empty_string self audio_file o :
  exits_zero_or_raises o ->
  fst (transcribe (fun _ _ => o) self audio_file) = text_of (spec_transcribe o)
  /\ (fst (transcribe (fun _ _ => o) self audio_file) = []
      <-> exists r, spec_transcribe o = Failure r).
Proof.
  intros H.
  assert (E : fst (transcribe (fun _ _ => o) self audio_file)
              = text_of (spec_transcribe o)).
  { destruct o as [rc stdout|e].
    - simpl in H. subst rc.
      rewrite (transcribe_completed _ _ _ 0%Z stdout eq_refl).
      symmetry. apply text_of_spec_clean.
    - rewrite transcribe_raised. destruct e as [[] msg]; reflexivity. }
  split; [exact E|]. rewrite E. apply text_of_nil_failure.
Qed.

Lemma transcribe_failure_is_empty_string_witness :
  fst (transcribe (fun _ _ => Completed 0 [NL; NL; NL])
         examples.a_transcriber (lit examples.an_audio_file))
  = text_of (spec_transcribe (Completed 0 [NL; NL; NL]))
  /\ (fst (transcribe (fun _ _ => Completed 0 [NL; NL; NL])
            examples.a_transcriber (lit examples.an_audio_file)) = []
      <-> exists r, spec_transcribe (Completed 0 [NL; NL; NL]) = Failure r).
Proof.
  apply (transcribe_failure_is_empty_string examples.a_transcriber
           (lit examples.an_audio_file) (Completed 0 [NL; NL; NL])).
  simpl. reflexivity.
Defined.

(** C1 as stated fails.  A run that prints only blank lines, a run that
    times out and an executable that cannot be launched all make
    [transcribe] return the same value, the empty string, where the
    claim has three different results (EmptyOutput, Timeout,
    ProcessError); so no reading of the returned string recovers the
    result the claim describes. *)
Lemma transcribe_failures_not_explicit :
  fst (transcribe (fun _ _ => Completed 0 [NL; NL; NL])
         examples.a_transcriber (lit examples.an_audio_file)) = []
  /\ fst (transcribe (fun _ _ => Raised (Exn TimeoutExpired []))
            examples.a_transcriber (lit examples.an_audio_file)) = []
  /\ fst (transcribe (fun _ _ => Raised (Exn FileNotFoundError []))
            examples.a_transcriber (lit examples.an_audio_file)) = []
  /\ spec_transcribe (Completed 0 [NL; NL; NL]) = Failure EmptyOutput
  /\ spec_transcribe (Raised (Exn TimeoutExpired [])) = Failure Timeout
  /\ spec_transcribe (Raised (Exn FileNotFoundError [])) = Failure ProcessError
  /\ ~ (exists classify : str -> TranscriptionResult,
          forall o,
            classify (fst (transcribe (fun _ _ => o) examples.a_transcriber
                             (lit examples.an_audio_file)))
            = spec_transcribe o).
Proof.
  repeat split.
  intros [classify H].
  pose proof (H (Completed 0 [NL; NL; NL])) as H1.
  pose proof (H (Raised (Exn TimeoutExpired []))) as H2.
  change (classify [] = Failure EmptyOutput) in H1.
  change (classify [] = Failure Timeout) in H2.
  congruence.
Qed.

End transcriber_facts.

(** ** NumPy: what rounding to binary32 cannot do *)

(** The operations of [SpecFloat] are followed through their steps, the
    shift to the right with its rounding and sticky bits, the rounding
    to nearest and the renormalization, to bound their results: a sum
    or a quotient whose exact value is at most a number that is itself
    a float is rounded to at most that number. *)

Module np_facts.
Import Py np.
Local Open Scope Z_scope.



Lemma Zdigits2_nonneg m : 0 <= Zdigits2 m.
Proof. destruct m; cbn; lia. Qed.









Lemma pow_split a b : 0 <= a -> 0 <= b -> 2 ^ (a + b) = 2 ^ a * 2 ^ b.
Proof. intros. apply Z.pow_add_r; assumption. Qed.

Lemma pow_pos k : 0 <= k -> 0 < 2 ^ k.
Proof. intros. apply Z.pow_pos_nonneg; lia. Qed.











Lemma scale_lt a p b q k :
  0 <= p -> 0 <= q -> 0 <= p + k -> 0 <= q + k ->
  a * 2 ^ p < b * 2 ^ q -> a * 2 ^ (p + k) < b * 2 ^ (q + k).
Proof.
  intros Hp Hq Hpk Hqk H. destruct (Z_le_gt_dec 0 k) as [L|G].
  - rewrite !pow_split by lia.
    assert (0 < 2 ^ k) by (apply pow_pos; lia). nia.
  - assert (P : 0 < 2 ^ (- k)) by (apply pow_pos; lia).
    replace p with (p + k + - k) in H by lia.
    replace q with (q + k + - k) in H by lia.
    rewrite !(pow_split _ (- k)) in H by lia. nia.
Qed.



Section Summation.
Variable P : nat -> float32 -> Prop.
Variable bound : Z.
Hypothesis P_add : forall j k x y,
  P j x -> P k y -> Z.of_nat (j + k) < bound -> P (j + k) (add x y).
Hypothesis P_start : P 0 (S754_zero true).







End Summation.

End np_facts.

(** ** recorder.py: the capture buffer and the artifact *)

Module recorder_facts.
Import Py host recorder.

Lemma log_nil w : log [] w = w.
Proof. destruct w. unfold log. simpl. rewrite app_nil_r. reflexivity. Qed.

Lemma log_log cs cs' w : log cs' (log cs w) = log (cs ++ cs') w.
Proof. unfold log. simpl. rewrite app_assoc. reflexivity. Qed.

Lemma suffixed_path_truthy stem : path_truthy (Some (stem +:+ ".wav")) = true.
Proof. destruct stem; reflexivity. Qed.

Lemma deliver_cons in_data chunks self w :
  deliver (in_data :: chunks) self w
  = deliver chunks (fst (_audio_callback in_data self w))
                   (snd (_audio_callback in_data self w)).
Proof.
  unfold deliver. simpl. destruct (_audio_callback in_data self w). reflexivity.
Qed.

(** While capturing, the chunks handed over are appended in the order of
    arrival, and the level callback, when there is one, is called once
    for each chunk that has a level. *)
Lemma deliver_capturing chunks : forall self w,
  recording self = true ->
  deliver chunks self w
  = (Build (level_callback self) true (audio_frames self ++ chunks)
           (temp_file_path self) (stream self),
     log (if level_callback self then flat_map reported chunks else []) w).
Proof.
  induction chunks as [|in_data chunks IH]; intros [lc rc frames path st] w Hrec;
    simpl in Hrec; subst rc.
  - unfold deliver. simpl. rewrite app_nil_r.
    destruct lc; rewrite log_nil; reflexivity.
  - rewrite deliver_cons. unfold _audio_callback.
    cbn [recording level_callback audio_frames temp_file_path stream].
    destruct lc; cbn [fst snd]; rewrite IH by reflexivity;
      cbn [recording level_callback audio_frames temp_file_path stream
           flat_map];
      rewrite <- app_assoc; simpl app; [rewrite log_log|]; reflexivity.
Qed.

(** A chunk has a level when it is a whole number of 16-bit samples. *)
Lemma level_whole in_data :
  Nat.even (length in_data) = true ->
  level in_data
  = Return (np.true_divide
              (np.mean (np.abs (np.astype_float32 (np.int16_pairs in_data))))
              (np.float32_of_int 32768)).
Proof.
  intros E. unfold level, np.frombuffer_int16. rewrite E. reflexivity.
Qed.

Lemma level_ragged in_data :
  Nat.even (length in_data) = false ->
  level in_data
  = Raise (Exn ValueError
             (lit "buffer size must be a multiple of element size")).
Proof.
  intros E. unfold level, np.frombuffer_int16. rewrite E. reflexivity.
Qed.

Lemma reported_whole chunks :
  flat_map reported chunks
  = map (fun in_data =>
           Level (np.true_divide
                    (np.mean (np.abs (np.astype_float32
                                        (np.int16_pairs in_data))))
                    (np.float32_of_int 32768)))
        (List.filter (fun in_data => Nat.even (length in_data)) chunks).
Proof.
  induction chunks as [|in_data chunks IH]; [reflexivity|].
  cbn [flat_map List.filter]. rewrite IH. unfold reported.
  destruct (Nat.even (length in_data)) eqn:E.
  - rewrite (level_whole _ E). reflexivity.
  - rewrite (level_ragged _ E). reflexivity.
Qed.

(** When not capturing, chunks are dropped. *)
Lemma deliver_idle chunks self w :
  recording self = false -> deliver chunks self w = (self, w).
Proof.
  intros H. induction chunks as [|in_data chunks IH]; [reflexivity|].
  rewrite deliver_cons. unfold _audio_callback. rewrite H. exact IH.
Qed.

Lemma stop_after_capture stem self w chunks :
  let started := start stem self w in
  let captured := deliver chunks (fst started) (snd started) in
  stop (fst captured) (snd captured)
  = match chunks with
    | [] =>
        (None,
         Build (level_callback self) false [] (Some (stem +:+ ".wav")) false,
         log [StreamStop; StreamClose] (snd captured))
    | _ :: _ =>
        (Some (stem +:+ ".wav"),
         Build (level_callback self) false chunks (Some (stem +:+ ".wav")) false,
         set_tmp (<[(stem +:+ ".wav")%string
                    := Wave 1 2 16000 (concat chunks)]>
                    (tmp (log [StreamStop; StreamClose] (snd captured))))
                 (log [StreamStop; StreamClose] (snd captured)))
    end.
Proof.
  cbv zeta. unfold start. cbn [fst snd].
  rewrite deliver_capturing by reflexivity. cbn [fst snd].
  unfold stop. cbn [recording negb stream temp_file_path audio_frames
                    level_callback app].
  rewrite suffixed_path_truthy.
  destruct chunks as [|c chunks]; reflexivity.
Qed.

(** C6. For every sequence of chunks delivered to the callback between
    [start()] and [stop()], the file [stop()] returns holds a wave file of
    1 channel, 2 bytes (16 bits) per sample and 16000 frames per second
    whose frames are the concatenation of the chunks in the order of
    arrival; and [stop()] does return the temporary file as soon as one
    chunk was delivered. *)
Theorem stop_writes_chunks_in_order stem self w chunks :
  let started := start stem self w in
  let captured := deliver chunks (fst started) (snd started) in
  let stopped := stop (fst captured) (snd captured) in
  (forall path,
      fst (fst stopped) = Some path ->
      tmp (snd stopped) !! path = Some (Wave 1 2 16000 (concat chunks)))
  /\ (chunks <> [] -> fst (fst stopped) = Some (stem +:+ ".wav")).
Proof.
  cbv zeta. rewrite stop_after_capture.
  destruct chunks as [|c chunks]; cbn [fst snd].
  - split; [intros path H; discriminate H|congruence].
  - split; [|reflexivity].
    intros path H. injection H as <-.
    unfold set_tmp. cbn [tmp]. apply lookup_insert_eq.
Qed.

Lemma stop_writes_chunks_in_order_witness :
  tmp (snd (stop
         (fst (deliver [[Byte.x01; Byte.x00]; [Byte.xff; Byte.x7f]]
                 (fst (start "/tmp/tmpk3v9x0q2" (init true) (examples.machine None)))
                 (snd (start "/tmp/tmpk3v9x0q2" (init true) (examples.machine None)))))
         (snd (deliver [[Byte.x01; Byte.x00]; [Byte.xff; Byte.x7f]]
                 (fst (start "/tmp/tmpk3v9x0q2" (init true) (examples.machine None)))
                 (snd (start "/tmp/tmpk3v9x0q2" (init true) (examples.machine None)))))))
    !! "/tmp/tmpk3v9x0q2.wav"
  = Some (Wave 1 2 16000 [Byte.x01; Byte.x00; Byte.xff; Byte.x7f])
  /\ fst (fst (stop
         (fst (deliver [[Byte.x01; Byte.x00]; [Byte.xff; Byte.x7f]]
                 (fst (start "/tmp/tmpk3v9x0q2" (init true) (examples.machine None)))
                 (snd (start "/tmp/tmpk3v9x0q2" (init true) (examples.machine None)))))
         (snd (deliver [[Byte.x01; Byte.x00]; [Byte.xff; Byte.x7f]]
                 (fst (start "/tmp/tmpk3v9x0q2" (init true) (examples.machine None)))
                 (snd (start "/tmp/tmpk3v9x0q2" (init true) (examples.machine None)))))))
     = Some "/tmp/tmpk3v9x0q2.wav".
Proof.
  split.
  - apply (proj1 (stop_writes_chunks_in_order "/tmp/tmpk3v9x0q2" (init true)
                    (examples.machine None)
                    [[Byte.x01; Byte.x00]; [Byte.xff; Byte.x7f]])).
    reflexivity.
  - apply (proj2 (stop_writes_chunks_in_order "/tmp/tmpk3v9x0q2" (init true)
                    (examples.machine None)
                    [[Byte.x01; Byte.x00]; [Byte.xff; Byte.x7f]])).
    discriminate.
Defined.

(** C9. [stop()] on a recorder that is not capturing returns no path
    and leaves the recorder and the machine as they were; [stop()] on a
    recorder whose buffer is empty, in particular right after [start()],
    returns no path.  [stop] is total: neither case raises. *)
Theorem stop_without_audio :
  (forall self w, recording self = false -> stop self w = (None, self, w))
  /\ (forall self w, audio_frames self = [] -> fst (fst (stop self w)) = None)
  /\ (forall stem self w,
       fst (fst (stop (fst (start stem self w)) (snd (start stem self w))))
       = None).
Proof.
  split; [|split].
  - intros self w H. unfold stop. rewrite H. reflexivity.
  - intros self w H. unfold stop. rewrite H.
    destruct (recording self); simpl; [|reflexivity].
    destruct (temp_file_path self); [|reflexivity].
    rewrite andb_false_r. reflexivity.
  - intros stem self w. unfold start, stop. cbn.
    rewrite andb_false_r. reflexivity.
Qed.

Lemma stop_without_audio_witness :
  stop (init true) (examples.machine None)
  = (None, init true, examples.machine None)
  /\ fst (fst (stop (Build true true [] (Some "/tmp/tmpk3v9x0q2.wav") true)
                 (examples.machine None))) = None.
Proof.
  split.
  - apply (proj1 stop_without_audio). reflexivity.
  - apply (proj1 (proj2 stop_without_audio)). reflexivity.
Defined.

End recorder_facts.

(** ** recorder.py: the level of a chunk *)

Module level_facts.
Import Py host np np_facts recorder.
Local Open Scope Z_scope.



















(** The level of the chunk of the repository's test is 0.125, of a
    chunk at full scale 1.0; the level of the samples 1, 0, 0 is the
    float nearest to (1/3) / 32768, not that number. *)
Example level_of_the_test_chunk :
  exists l q,
    level examples.a_chunk = Return l /\ value l = Some q
    /\ Qeq_bool q (1 # 8) = true.
Proof.
  exists (S754_finite false 8388608 (-26)). eexists.
  repeat split; vm_compute; reflexivity.
Qed.

Example level_of_full_scale :
  exists l q,
    level examples.a_full_scale_chunk = Return l /\ value l = Some q
    /\ Qeq_bool q 1 = true.
Proof.
  exists (S754_finite false 8388608 (-23)). eexists.
  repeat split; vm_compute; reflexivity.
Qed.

Example level_is_rounded :
  exists l q,
    level examples.a_faint_chunk = Return l /\ value l = Some q
    /\ Qeq_bool (3 * 32768 * q) 1 = false.
Proof.
  exists (S754_finite false 11184811 (-40)). eexists.
  repeat split; vm_compute; reflexivity.
Qed.




End level_facts.

(** ** window.py and cli.py: the session *)

Module session_facts.
Import Py host window cli recorder_facts.

Lemma steps_log cs w : steps (log cs w) = steps w ++ finalization cs.
Proof. unfold steps, finalization, log. simpl. apply omap_app. Qed.

Lemma steps_set_tmp v w : steps (set_tmp v w) = steps w.
Proof. reflexivity. Qed.

Lemma steps_set_pid_file v w : steps (set_pid_file v w) = steps w.
Proof. reflexivity. Qed.

Lemma pid_file_log cs w : pid_file (log cs w) = pid_file w.
Proof. reflexivity. Qed.

Lemma pid_file_set_tmp v w : pid_file (set_tmp v w) = pid_file w.
Proof. reflexivity. Qed.

Lemma pid_file_set_pid_file v w : pid_file (set_pid_file v w) = v.
Proof. reflexivity. Qed.

Lemma finalization_prints lines : finalization (map Print lines) = [].
Proof. induction lines; [reflexivity|assumption]. Qed.

Lemma finalization_reported in_data :
  finalization (recorder.reported in_data) = [].
Proof. unfold recorder.reported. destruct (recorder.level in_data); reflexivity. Qed.

Lemma finalization_levels chunks :
  finalization (flat_map recorder.reported chunks) = [].
Proof.
  induction chunks as [|in_data chunks IH]; [reflexivity|].
  cbn [flat_map]. unfold finalization in *. rewrite omap_app, IH.
  fold (finalization (recorder.reported in_data)).
  rewrite finalization_reported. reflexivity.
Qed.

Create Rewrite HintDb world.
#[local] Hint Rewrite steps_log steps_set_tmp steps_set_pid_file pid_file_log
  pid_file_set_tmp pid_file_set_pid_file finalization_prints
  finalization_reported finalization_levels : world.

(** Runs the methods of the window and of the recorder on a state given
    field by field; the machine is left as a composition of [log] and
    the setters. *)
Ltac window_cbn :=
  cbv beta iota zeta delta
      [fire sigusr1_handler sigterm_handler start_recording
       _on_transcription_done stop_and_transcribe keyPressEvent closeEvent
       with_recording with_recorder with_status with_animating
       with_start_pending with_threads with_done_queue with_close_timers
       with_closed output_mode transcriber recording recorder status
       animating start_pending threads done_queue close_timers closed
       recorder.start recorder.stop recorder._audio_callback
       recorder.level_callback recorder.recording recorder.audio_frames
       recorder.temp_file_path recorder.stream truthy fst snd negb andb];
  cbn [app].

(** Normalizes the finalization steps of a machine built from [log] and
    the setters. *)
Ltac steps_tac :=
  unfold recorder.cleanup, utils.cleanup_pid, utils.PID_FILE_unlink, act;
  cbn [snd];
  autorewrite with world; cbn [finalization omap step_of list_omap];
  rewrite ?List.filter_app;
  cbn [List.filter is_teardown_or_release];
  rewrite ?app_nil_r, <- ?app_assoc; cbn [app]; auto.

Lemma run_events_app es es' st :
  run_events (es ++ es') st = run_events es' (run_events es st).
Proof. apply fold_left_app. Qed.

Lemma with_recorder_twice r r' self :
  with_recorder r' (with_recorder r self) = with_recorder r' self.
Proof. reflexivity. Qed.

Lemma with_recorder_same self : with_recorder (recorder self) self = self.
Proof. destruct self; reflexivity. Qed.

(** Chunks arriving at a window are handed to its recorder. *)
Lemma run_chunks chunks : forall self w,
  run_events (map AudioChunk chunks) (self, w)
  = (with_recorder (fst (recorder.deliver chunks (recorder self) w)) self,
     snd (recorder.deliver chunks (recorder self) w)).
Proof.
  induction chunks as [|in_data chunks IH]; intros self w.
  - unfold recorder.deliver. simpl. rewrite with_recorder_same. reflexivity.
  - rewrite deliver_cons. simpl map. unfold run_events. simpl fold_left.
    destruct (recorder._audio_callback in_data (recorder self) w) as [r w'].
    fold (run_events (map AudioChunk chunks) (with_recorder r self, w')).
    rewrite IH. reflexivity.
Qed.

(** While the window is recording, every stop request runs
    [stop_and_transcribe]. *)
Lemma stop_request_recording e self w :
  is_stop_request e -> recording self = true ->
  fire e (self, w) = stop_and_transcribe self w.
Proof.
  intros [-> | [-> | [-> | ->]]] H; try reflexivity.
  simpl. unfold closeEvent. rewrite H. reflexivity.
Qed.

(** Once the window is not recording, [stop_and_transcribe] does nothing. *)
Lemma stop_and_transcribe_idle self w :
  recording self = false -> stop_and_transcribe self w = (self, w).
Proof. intros H. unfold stop_and_transcribe. rewrite H. reflexivity. Qed.

Lemma stop_and_transcribe_stops self w :
  recording (fst (stop_and_transcribe self w)) = false.
Proof.
  unfold stop_and_transcribe.
  destruct (recording self) eqn:E; [|exact E]. cbn [negb].
  destruct (recorder.stop _ w) as [[[path|] r] w1]; reflexivity.
Qed.

(** C8, amended. While the window is recording, each stop request (a
    key press of Escape or Space, the stop signal of a peer, a request to
    close the window) runs [stop_and_transcribe], after which the window
    is no longer recording.  From then on, a stop request that arrives
    as a key press or as the stop signal of a peer changes nothing: the
    window and the machine stay as they are.  A request to close the
    window is not ignored: it stops no stream and starts no
    transcription (the recorder, the started threads and the temporary
    files are untouched), but it stops the visualizer, removes the marker
    and closes the window. *)
Theorem later_stop_requests self w :
  (recording self = true ->
   forall e, is_stop_request e ->
     fire e (self, w) = stop_and_transcribe self w
     /\ recording (fst (fire e (self, w))) = false)
  /\ (recording self = false ->
      (forall key, fire (KeyPress key) (self, w) = (self, w))
      /\ fire PeerStop (self, w) = (self, w)
      /\ fire CloseRequest (self, w)
         = (with_closed true (with_animating false self),
            log [UnlinkPidFile] (set_pid_file None w))
      /\ recorder (fst (fire CloseRequest (self, w))) = recorder self
      /\ threads (fst (fire CloseRequest (self, w))) = threads self
      /\ done_queue (fst (fire CloseRequest (self, w))) = done_queue self
      /\ tmp (snd (fire CloseRequest (self, w))) = tmp w
      /\ trace (snd (fire CloseRequest (self, w))) = trace w ++ [UnlinkPidFile]).
Proof.
  split.
  - intros H e He. rewrite (stop_request_recording e self w He H).
    split; [reflexivity|apply stop_and_transcribe_stops].
  - intros H.
    assert (E : fire CloseRequest (self, w)
                = (with_closed true (with_animating false self),
                   log [UnlinkPidFile] (set_pid_file None w))).
    { simpl. unfold closeEvent. rewrite H. reflexivity. }
    split; [|split; [|split; [exact E|rewrite E; repeat split]]].
    + intros [| |code]; simpl; try reflexivity;
        apply stop_and_transcribe_idle, H.
    + apply stop_and_transcribe_idle, H.
Qed.

Lemma later_stop_requests_witness :
  fire PeerStop
    (fst (run_events examples.a_stopped_session examples.a_start),
     snd (run_events examples.a_stopped_session examples.a_start))
  = (fst (run_events examples.a_stopped_session examples.a_start),
     snd (run_events examples.a_stopped_session examples.a_start))
  /\ recording (fst (fire (KeyPress Key_Escape)
                       (fst (fire (StartTimer "/tmp/tmpk3v9x0q2")
                               examples.a_start),
                        snd (fire (StartTimer "/tmp/tmpk3v9x0q2")
                               examples.a_start))))
     = false.
Proof.
  split.
  - apply (proj2 (later_stop_requests
                    (fst (run_events examples.a_stopped_session examples.a_start))
                    (snd (run_events examples.a_stopped_session examples.a_start)))).
    reflexivity.
  - apply (proj1 (later_stop_requests
                    (fst (fire (StartTimer "/tmp/tmpk3v9x0q2") examples.a_start))
                    (snd (fire (StartTimer "/tmp/tmpk3v9x0q2") examples.a_start)))).
    + reflexivity.
    + left. reflexivity.
Defined.

(** C8 as stated fails.  In a session that has stopped recording and
    waits for its transcription, a request to close the window is not a
    no-op: the window closes and the marker file is removed. *)
Lemma close_after_stop_changes_state :
  recording (fst (run_events examples.a_stopped_session examples.a_start))
  = false
  /\ closed (fst (run_events examples.a_stopped_session examples.a_start))
     = false
  /\ pid_file (snd (run_events examples.a_stopped_session examples.a_start))
     = Some (lit "7001")
  /\ closed (fst (fire CloseRequest
                    (run_events examples.a_stopped_session examples.a_start)))
     = true
  /\ pid_file (snd (fire CloseRequest
                      (run_events examples.a_stopped_session examples.a_start)))
     = None
  /\ fire CloseRequest (run_events examples.a_stopped_session examples.a_start)
     <> run_events examples.a_stopped_session examples.a_start.
Proof.
  repeat split.
  intros H. apply (f_equal (fun st => closed (fst st))) in H.
  discriminate H.
Qed.

(** The transcription thread removes the temporary file once, whatever
    the executable and the sinks do, and queues its result. *)
Lemma thread_removes_artifact run clip typed audio_file self w path :
  recorder.temp_file_path (recorder self) = Some path ->
  recorder.path_truthy (Some path) = true ->
  exists text,
    fst (_transcribe_thread run clip typed audio_file self w)
    = with_done_queue (done_queue self ++ [text]) self
    /\ steps (snd (_transcribe_thread run clip typed audio_file self w))
       = steps w ++ [RemoveArtifact]
    /\ pid_file (snd (_transcribe_thread run clip typed audio_file self w))
       = pid_file w.
Proof.
  intros Hpath Htruthy. unfold _transcribe_thread.
  destruct (transcriber.transcribe run (transcriber self) (lit audio_file))
    as [text0 printed].
  unfold recorder.cleanup_temp_file. rewrite Hpath, Htruthy.
  destruct (truthy text0); [destruct clip as [b|e]|].
  - destruct (bool_decide (output_mode self = lit "type"));
      [destruct typed as [b'|e']|].
    + exists text0. cbn [fst snd]. steps_tac.
    + exists []. cbn [fst snd]. steps_tac.
    + exists text0. cbn [fst snd]. steps_tac.
  - exists []. cbn [fst snd]. steps_tac.
  - exists text0. cbn [fst snd]. steps_tac.
Qed.

Lemma stop_with_audio self w chunks path :
  recording self = true ->
  recorder.recording (recorder self) = true ->
  recorder.temp_file_path (recorder self) = Some path ->
  recorder.path_truthy (Some path) = true ->
  recorder.audio_frames (recorder self) = chunks -> chunks <> [] ->
  exists self' w',
    stop_and_transcribe self w = (self', w')
    /\ recording self' = false
    /\ recorder.temp_file_path (recorder self') = Some path
    /\ threads self' = threads self ++ [path]
    /\ done_queue self' = done_queue self
    /\ close_timers self' = close_timers self
    /\ steps w' = steps w.
Proof.
  intros Hrec Hrrec Hpath Htruthy Hframes Hne.
  destruct self as [om t rec [lc rrec frames tp strm] st an sp th dq ct cl].
  cbn in Hrec, Hrrec, Hpath, Hframes. subst rec rrec tp frames.
  destruct chunks as [|c chunks]; [congruence|].
  unfold stop_and_transcribe, recorder.stop.
  cbn [recording negb with_recording with_status recorder output_mode
       transcriber status animating start_pending threads done_queue
       close_timers closed recorder.recording recorder.temp_file_path
       recorder.audio_frames recorder.stream recorder.level_callback].
  rewrite Htruthy. cbn [truthy andb].
  eexists _, _. split; [reflexivity|]. cbn.
  repeat split.
  destruct strm; steps_tac.
Qed.

Lemma silent_stop_finishes self w path :
  recording self = true ->
  recorder.recording (recorder self) = true ->
  recorder.temp_file_path (recorder self) = Some path ->
  recorder.audio_frames (recorder self) = [] ->
  exists self' w',
    stop_and_transcribe self w = (self', w')
    /\ recording self' = false
    /\ close_timers self' = S (close_timers self)
    /\ List.filter is_teardown_or_release (steps w')
       = List.filter is_teardown_or_release (steps w) ++ [Teardown; Release].
Proof.
  intros Hrec Hrrec Hpath Hframes.
  destruct self as [om t rec [lc rrec frames tp strm] st an sp th dq ct cl].
  cbn in Hrec, Hrrec, Hpath, Hframes. subst rec rrec tp frames.
  unfold stop_and_transcribe, recorder.stop.
  cbn [recording negb with_recording with_status recorder output_mode
       transcriber status animating start_pending threads done_queue
       close_timers closed recorder.recording recorder.temp_file_path
       recorder.audio_frames recorder.stream recorder.level_callback].
  rewrite andb_false_r.
  eexists _, _. split; [reflexivity|]. cbn.
  repeat split.
  destruct strm; steps_tac.
Qed.

(** Closing a window that is not recording releases the marker and
    closes. *)
Lemma close_idle self w :
  recording self = false ->
  closed (fst (closeEvent self w)) = true
  /\ steps (snd (closeEvent self w)) = steps w ++ [Release].
Proof.
  intros H. unfold closeEvent. rewrite H. cbn. split; [reflexivity|].
  steps_tac.
Qed.

Lemma fire_start om t stem w :
  fire (StartTimer stem) (init om t, w)
  = (Build om t true
       (recorder.Build true true [] (Some (stem +:+ ".wav")) true)
       (lit "Listening...") true false [] [] 0 false,
     log [StreamOpen 2 1 16000 1024]
         (set_tmp (<[(stem +:+ ".wav")%string := Blank]> (tmp w)) w)).
Proof. reflexivity. Qed.

(** C3 as stated fails.  In a session with audio captured, stopped by
    Escape, transcribed and closed, the marker is removed twice: once
    when the transcription is delivered and once more when the window
    closes.  The steps run are artifact removal, teardown, release,
    release. *)
Lemma release_runs_twice :
  closed (fst (run_events examples.a_session examples.a_start)) = true
  /\ finalization (trace (snd (run_events examples.a_session examples.a_start)))
     = [RemoveArtifact; Teardown; Release; Release]
  /\ finalization (trace (snd (run_events examples.a_session examples.a_start)))
     <> [RemoveArtifact; Teardown; Release].
Proof.
  split; [reflexivity|]. split; [reflexivity|].
  intros H. discriminate H.
Qed.

(** In a session stopped before any chunk arrived,
    [cleanup_temp_file] is not called: the empty file [start()] created
    stays in the temporary directory. *)
Remark silent_session_keeps_temp_file :
  finalization
    (trace (snd (run_events examples.a_silent_session examples.a_start)))
  = [Teardown; Release; Release]
  /\ tmp (snd (run_events examples.a_silent_session examples.a_start))
       !! "/tmp/tmpk3v9x0q2.wav" = Some Blank.
Proof. split; reflexivity. Qed.

(** *** The invariant of a session *)

Lemma init_invariant om t w0 : session_invariant w0 (init om t, w0).
Proof.
  exists Idle, []. cbn [fst snd]. split; [cbn; tauto|].
  split; [symmetry; apply app_nil_r|]. split; [reflexivity|].
  intros H. discriminate H.
Qed.

(** Shows the invariant after a step that adds [added] to the steps and
    leads to phase [ph]. *)
Ltac arrive ph new added Hs Hd Hc :=
  exists ph, (new ++ added); cbn [fst snd];
  split;
  [ cbn [in_phase]; unfold has_temp_file; window_cbn; repeat split;
    first [ reflexivity | lia
          | eexists; first [ reflexivity
                           | split; [ reflexivity
                                    | first [ apply suffixed_path_truthy
                                            | eassumption ] ] ] ]
  | split;
    [ steps_tac; rewrite ?Hs, <- ?app_assoc; reflexivity
    | split;
      [ rewrite List.filter_app; cbn [List.filter is_release negb];
        first [ rewrite Hd; cbn [app done_by]; auto
              | destruct Hd as [Hd|Hd]; rewrite Hd; cbn [app done_by]; auto ]
      | window_cbn; intros Hcl; split;
        [ unfold recorder.cleanup, utils.cleanup_pid, utils.PID_FILE_unlink, act;
          cbn [snd]; autorewrite with world;
          first [ reflexivity | apply Hc, Hcl ]
        | apply in_or_app;
          first [ right; cbn [In]; tauto | left; apply Hc, Hcl ] ] ] ] ].

Ltac arrive_somewhere new Hs Hd Hc :=
  first
    [ solve [arrive Idle new (@nil step) Hs Hd Hc]
    | solve [arrive Idle new [Release] Hs Hd Hc]
    | solve [arrive Recording new (@nil step) Hs Hd Hc]
    | solve [arrive Recording new [Release] Hs Hd Hc]
    | solve [arrive Transcribing new (@nil step) Hs Hd Hc]
    | solve [arrive Transcribing new [Release] Hs Hd Hc]
    | solve [arrive Delivering new (@nil step) Hs Hd Hc]
    | solve [arrive Delivering new [Release] Hs Hd Hc]
    | solve [arrive Finished new (@nil step) Hs Hd Hc]
    | solve [arrive Finished new [Release] Hs Hd Hc]
    | solve [arrive Finished new [Teardown; Release] Hs Hd Hc]
    | solve [arrive Finished new [Release; Teardown; Release] Hs Hd Hc] ].

Lemma fire_preserves w0 e st :
  session_invariant w0 st -> session_invariant w0 (fire e st).
Proof.
  intros (p & new & Hp & Hs & Hd & Hc). destruct st as [self w].
  cbn [fst snd] in Hp, Hs, Hc.
  destruct self as [om t rec [lc rrec frames tp strm] stat an sp th dq ct cl].
  destruct p; cbn in Hp, Hc; cbn [done_by] in Hd.
  - (* Idle *)
    destruct Hp as (-> & -> & -> & -> & -> & ->).
    destruct e as [stem|in_data|[| |code]| | | |run clip typed| |];
      window_cbn; solve [arrive_somewhere new Hs Hd Hc].
  - (* Recording *)
    destruct Hp as (-> & -> & -> & (path & Hpath & Htruthy) & -> & -> & ->).
    cbn in Hpath. subst tp.
    destruct lc, strm, frames as [|chunk frames];
      destruct e as [stem|in_data|[| |code]| | | |run clip typed| |];
      window_cbn; rewrite ?Htruthy; window_cbn;
      solve [arrive_somewhere new Hs Hd Hc].
  - (* Transcribing *)
    destruct Hp
      as (-> & -> & -> & (path & Hpath & Htruthy) & (f & ->) & -> & ->).
    cbn in Hpath. subst tp.
    destruct e as [stem|in_data|[| |code]| | | |run clip typed| |];
      try solve [window_cbn; arrive_somewhere new Hs Hd Hc].
    cbn [fire threads with_threads output_mode transcriber recording recorder
         status animating start_pending done_queue close_timers closed].
    match goal with
    | |- context [_transcribe_thread run clip typed f ?s w] =>
        destruct (thread_removes_artifact run clip typed f s w path
                    eq_refl Htruthy) as (text & E1 & E2 & E3);
        destruct (_transcribe_thread run clip typed f s w) as [self' w']
    end.
    cbn [fst snd] in E1, E2, E3. subst self'.
    exists Delivering, (new ++ [RemoveArtifact]). cbn [fst snd].
    split; [cbn [in_phase]; window_cbn; repeat split; eauto|].
    split; [rewrite E2, Hs, <- app_assoc; reflexivity|].
    split; [rewrite List.filter_app, Hd; reflexivity|].
    window_cbn. intros Hcl. rewrite E3.
    split; [apply Hc, Hcl|apply in_or_app; left; apply Hc, Hcl].
  - (* Delivering *)
    destruct Hp as (-> & -> & -> & -> & (text & ->) & ->).
    destruct e as [stem|in_data|[| |code]| | | |run clip typed| |];
      window_cbn; solve [arrive_somewhere new Hs Hd Hc].
  - (* Finished *)
    destruct Hp as (-> & -> & -> & -> & -> & Hct).
    destruct ct as [|ct];
      destruct e as [stem|in_data|[| |code]| | | |run clip typed| |];
      window_cbn; solve [arrive_somewhere new Hs Hd Hc].
Qed.

Lemma run_events_preserves w0 es : forall st,
  session_invariant w0 st -> session_invariant w0 (run_events es st).
Proof.
  induction es as [|e es IH]; intros st H; [exact H|].
  apply (IH (fire e st)), fire_preserves, H.
Qed.

(** Every run of a session keeps the invariant. *)
Lemma session_invariant_holds om t w0 es :
  session_invariant w0 (run_events es (init om t, w0)).
Proof. apply run_events_preserves, init_invariant. Qed.

Lemma finalization_of_recorded_session om t w stem request chunks run clip typed :
  is_stop_request request -> chunks <> [] ->
  let final :=
    run_events ([StartTimer stem] ++ map AudioChunk chunks
                ++ [request; ThreadRuns run clip typed; DoneDelivered;
                    CloseTimer])
               (init om t, w) in
  closed (fst final) = true
  /\ steps (snd final) = steps w ++ [RemoveArtifact; Teardown; Release; Release].
Proof.
  intros Hreq Hne. cbv zeta.
  rewrite run_events_app.
  change (run_events [StartTimer stem] (init om t, w))
    with (fire (StartTimer stem) (init om t, w)).
  rewrite fire_start, run_events_app, run_chunks.
  cbn [recorder]. rewrite deliver_capturing by reflexivity.
  cbn [fst snd with_recorder output_mode transcriber status
       animating threads done_queue close_timers closed recording
       start_pending recorder.level_callback recorder.audio_frames
       recorder.temp_file_path recorder.stream app].
  unfold run_events. cbn [fold_left].
  match goal with
  | |- context [fire request (?s, ?m)] =>
      rewrite (stop_request_recording request s m Hreq eq_refl)
  end.
  match goal with
  | |- context [stop_and_transcribe ?s ?m] =>
      destruct (stop_with_audio s m chunks (stem +:+ ".wav")
                  eq_refl eq_refl eq_refl (suffixed_path_truthy stem)
                  eq_refl Hne)
        as (self3 & w3 & E & Hrec & Hpath & Hthreads & Hqueue & Htimers & Hsteps)
  end.
  rewrite E. clear E.
  destruct self3 as [om3 t3 rec3 r3 st3 an3 sp3 th3 dq3 ct3 cl3].
  cbn in Hrec, Hpath, Hthreads, Hqueue, Htimers. subst rec3 th3 dq3 ct3.
  cbn [fire threads with_threads output_mode transcriber status
       animating done_queue close_timers closed recording recorder
       start_pending].
  match goal with
  | |- context [_transcribe_thread run clip typed ?f ?s ?m] =>
      destruct (thread_removes_artifact run clip typed f s m
                  (stem +:+ ".wav") Hpath (suffixed_path_truthy stem))
        as (text & E1 & E2 & _);
      destruct (_transcribe_thread run clip typed f s m) as [self4 w4]
  end.
  cbn [fst snd] in E1, E2. subst self4.
  cbn [fire done_queue with_done_queue with_threads output_mode transcriber
       status animating close_timers closed recording recorder
       start_pending threads app _on_transcription_done with_close_timers].
  match goal with
  | |- context [closeEvent ?s ?m] =>
      destruct (close_idle s m eq_refl) as [Hclosed Hlast]
  end.
  assert (Hsteps' : steps w3 = steps w).
  { rewrite Hsteps. cbn [recorder.level_callback recorder with_recorder].
    steps_tac. }
  split; [exact Hclosed|]. rewrite Hlast.
  steps_tac. rewrite E2, Hsteps'. steps_tac.
Qed.

Lemma finalization_of_silent_session om t w stem request :
  is_stop_request request ->
  let final :=
    run_events [StartTimer stem; request; CloseTimer] (init om t, w) in
  closed (fst final) = true
  /\ List.filter is_teardown_or_release (steps (snd final))
     = List.filter is_teardown_or_release (steps w)
       ++ [Teardown; Release; Release].
Proof.
  intros Hreq. cbv zeta. unfold run_events. cbn [fold_left].
  rewrite fire_start.
  match goal with
  | |- context [fire request (?s, ?m)] =>
      rewrite (stop_request_recording request s m Hreq eq_refl)
  end.
  match goal with
  | |- context [stop_and_transcribe ?s ?m] =>
      destruct (silent_stop_finishes s m (stem +:+ ".wav")
                  eq_refl eq_refl eq_refl eq_refl)
        as (self3 & w3 & E & Hrec & Htimers & Hsteps)
  end.
  rewrite E. clear E.
  destruct self3 as [om3 t3 rec3 r3 st3 an3 sp3 th3 dq3 ct3 cl3].
  cbn in Hrec, Htimers. subst rec3 ct3.
  cbn [fire close_timers with_close_timers].
  match goal with
  | |- context [closeEvent ?s ?m] =>
      destruct (close_idle s m eq_refl) as [Hclosed Hlast]
  end.
  split; [exact Hclosed|]. rewrite Hlast, List.filter_app, Hsteps.
  steps_tac.
Qed.

(** C3, amended. On every execution path of a session, the removal of
    the temporary audio file and the release of the audio handle run at
    most once each, the removal never after the teardown, and once the
    window has closed the marker has been removed at least once and is
    absent.  In a session that captures at least one chunk, receives a
    stop request (Escape, Space, the stop signal of a peer or a request
    to close the window), has its transcription run and delivered and
    then closes, the steps are, in this order: artifact removal once,
    teardown once, release, and release a second time when the window
    closes.  In a session stopped before any chunk arrived, teardown runs
    exactly once and is followed by the same two releases. *)
Theorem finalization_of_a_session om t w :
  (forall es,
      exists new,
        steps (snd (run_events es (init om t, w))) = steps w ++ new
        /\ (List.filter (fun s => negb (is_release s)) new = []
            \/ List.filter (fun s => negb (is_release s)) new
               = [RemoveArtifact]
            \/ List.filter (fun s => negb (is_release s)) new
               = [RemoveArtifact; Teardown]
            \/ List.filter (fun s => negb (is_release s)) new = [Teardown])
        /\ (closed (fst (run_events es (init om t, w))) = true ->
            pid_file (snd (run_events es (init om t, w))) = None
            /\ In Release new))
  /\ (forall stem request chunks run clip typed,
        is_stop_request request -> chunks <> [] ->
        let final :=
          run_events ([StartTimer stem] ++ map AudioChunk chunks
                      ++ [request; ThreadRuns run clip typed; DoneDelivered;
                          CloseTimer])
                     (init om t, w) in
        closed (fst final) = true
        /\ steps (snd final)
           = steps w ++ [RemoveArtifact; Teardown; Release; Release])
  /\ (forall stem request,
        is_stop_request request ->
        let final :=
          run_events [StartTimer stem; request; CloseTimer] (init om t, w) in
        closed (fst final) = true
        /\ List.filter is_teardown_or_release (steps (snd final))
           = List.filter is_teardown_or_release (steps w)
             ++ [Teardown; Release; Release]).
Proof.
  split; [|split].
  - intros es.
    destruct (session_invariant_holds om t w es) as (p & new & _ & Hs & Hd & Hc).
    exists new. split; [exact Hs|]. split; [|exact Hc].
    destruct p; cbn [done_by] in Hd; tauto.
  - intros. apply finalization_of_recorded_session; assumption.
  - intros. apply finalization_of_silent_session; assumption.
Qed.

Lemma finalization_of_a_session_witness :
  closed (fst (run_events examples.a_session examples.a_start)) = true
  /\ steps (snd (run_events examples.a_session examples.a_start))
     = steps (examples.machine (Some (lit "7001")))
       ++ [RemoveArtifact; Teardown; Release; Release].
Proof.
  apply (proj1 (proj2 (finalization_of_a_session (lit "clipboard")
                         examples.a_transcriber
                         (examples.machine (Some (lit "7001")))))
           "/tmp/tmpk3v9x0q2" (KeyPress Key_Escape)
           [[Byte.x01; Byte.x00; Byte.xff; Byte.x7f]]
           (fun _ _ => transcriber.Completed 0 (lit "hi" ++ [NL]))
           (Return true) (Return true)).
  - left. reflexivity.
  - discriminate.
Defined.

(** *** The marker, the audio device and the sinks during a session *)

Import observed.

Lemma kept_refl m : kept_or_removed m m.
Proof. left. reflexivity. Qed.

Lemma kept_trans a b c :
  kept_or_removed a b -> kept_or_removed b c -> kept_or_removed a c.
Proof. unfold kept_or_removed. intros [->| ->] [->| ->]; auto. Qed.

Lemma recorder_stop_marker r w :
  pid_file (snd (recorder.stop r w)) = pid_file w.
Proof.
  unfold recorder.stop. destruct (recorder.recording r); [|reflexivity].
  cbn [negb].
  destruct (recorder.temp_file_path r);
    [destruct (recorder.path_truthy _ && truthy _)|];
    destruct (recorder.stream r); reflexivity.
Qed.

Lemma stop_and_transcribe_marker self w :
  kept_or_removed (pid_file w) (pid_file (snd (stop_and_transcribe self w))).
Proof.
  unfold stop_and_transcribe. destruct (recording self); [|apply kept_refl].
  cbn [negb].
  pose proof (recorder_stop_marker
                (recorder (with_status (lit "Processing...")
                             (with_recording false self))) w) as H.
  destruct (recorder.stop _ w) as [[[path|] r] w1]; cbn [snd] in H |- *.
  - left. exact H.
  - right. reflexivity.
Qed.

Lemma closeEvent_marker self w :
  kept_or_removed (pid_file w) (pid_file (snd (closeEvent self w))).
Proof.
  unfold closeEvent. destruct (recording self);
    [apply stop_and_transcribe_marker|right; reflexivity].
Qed.

Lemma thread_marker run clip typed audio_file self w :
  pid_file (snd (_transcribe_thread run clip typed audio_file self w))
  = pid_file w.
Proof.
  unfold _transcribe_thread.
  destruct (transcriber.transcribe run (transcriber self) (lit audio_file))
    as [text0 printed].
  unfold recorder.cleanup_temp_file.
  destruct (truthy text0);
    [destruct clip;
     [destruct (bool_decide (output_mode self = lit "type"));
      [destruct typed|]|]|];
    cbn [snd];
    (destruct (recorder.temp_file_path (recorder self));
     [destruct (recorder.path_truthy _)|]); reflexivity.
Qed.

Lemma fire_marker e st :
  kept_or_removed (pid_file (snd st)) (pid_file (snd (fire e st))).
Proof.
  destruct st as [self w]. cbn [snd].
  destruct e as [stem|in_data|[| |code]| | | |run clip typed| |]; cbn [fire].
  - destruct (start_pending self); [|apply kept_refl]. left. reflexivity.
  - unfold recorder._audio_callback.
    destruct (recorder.recording (recorder self)); [|apply kept_refl].
    destruct (recorder.level_callback (recorder self)); apply kept_refl.
  - apply stop_and_transcribe_marker.
  - apply stop_and_transcribe_marker.
  - apply kept_refl.
  - apply stop_and_transcribe_marker.
  - right. unfold sigterm_handler.
    destruct (stop_and_transcribe_marker self (snd (utils.cleanup_pid w)))
      as [H|H]; rewrite H; reflexivity.
  - apply closeEvent_marker.
  - destruct (threads self) as [|f rest]; [apply kept_refl|].
    left. apply thread_marker.
  - destruct (done_queue self) as [|text rest]; [apply kept_refl|].
    right. reflexivity.
  - destruct (close_timers self) as [|n]; [apply kept_refl|].
    apply closeEvent_marker.
Qed.

(** X22. A session never writes the marker file.  Whatever happens to
    the window, in whatever state it is, the marker afterwards holds
    what it held before or is gone; once it is gone it stays gone; and
    the signal SIGTERM or SIGINT removes it at once, whether the window
    is recording or not. *)
Theorem session_never_writes_marker es st :
  kept_or_removed (pid_file (snd st)) (pid_file (snd (run_events es st)))
  /\ (pid_file (snd st) = None -> pid_file (snd (run_events es st)) = None)
  /\ pid_file (snd (run_events (Terminated :: es) st)) = None.
Proof.
  assert (K : forall es st,
             kept_or_removed (pid_file (snd st))
                             (pid_file (snd (run_events es st)))).
  { clear. induction es as [|e es IH]; intros st; [apply kept_refl|].
    eapply kept_trans; [apply (fire_marker e)|apply (IH (fire e st))]. }
  split; [apply K|]. split.
  - intros N. destruct (K es st) as [H|H]; rewrite H; [exact N|reflexivity].
  - change (run_events (Terminated :: es) st)
      with (run_events es (fire Terminated st)).
    assert (T : pid_file (snd (fire Terminated st)) = None).
    { destruct st as [self w]. cbn [fire]. unfold sigterm_handler.
      destruct (stop_and_transcribe_marker self (snd (utils.cleanup_pid w)))
        as [H|H]; rewrite H; reflexivity. }
    destruct (K es (fire Terminated st)) as [H|H]; rewrite H;
      [exact T|reflexivity].
Qed.

Lemma devices_log cs w : devices (log cs w) = devices w ++ List.filter is_device cs.
Proof. unfold devices, log. cbn [trace]. apply List.filter_app. Qed.

Lemma devices_set_tmp v w : devices (set_tmp v w) = devices w.
Proof. reflexivity. Qed.

Lemma devices_set_pid_file v w : devices (set_pid_file v w) = devices w.
Proof. reflexivity. Qed.

Lemma sinks_log cs w : sinks (log cs w) = sinks w ++ List.filter is_sink cs.
Proof. unfold sinks, log. cbn [trace]. apply List.filter_app. Qed.

Lemma sinks_set_tmp v w : sinks (set_tmp v w) = sinks w.
Proof. reflexivity. Qed.

Lemma sinks_set_pid_file v w : sinks (set_pid_file v w) = sinks w.
Proof. reflexivity. Qed.

Lemma no_device_prints lines : List.filter is_device (map Print lines) = [].
Proof. induction lines; [reflexivity|assumption]. Qed.

Lemma no_sink_prints lines : List.filter is_sink (map Print lines) = [].
Proof. induction lines; [reflexivity|assumption]. Qed.

Lemma no_device_reported in_data :
  List.filter is_device (recorder.reported in_data) = [].
Proof.
  unfold recorder.reported. destruct (recorder.level in_data); reflexivity.
Qed.

Lemma no_sink_reported in_data :
  List.filter is_sink (recorder.reported in_data) = [].
Proof.
  unfold recorder.reported. destruct (recorder.level in_data); reflexivity.
Qed.

Create Rewrite HintDb observed.
#[local] Hint Rewrite devices_log devices_set_tmp devices_set_pid_file
  sinks_log sinks_set_tmp sinks_set_pid_file no_device_prints
  no_sink_prints no_device_reported no_sink_reported : observed.

(** Normalizes the device calls and the sink calls of a machine built
    from [log] and the setters. *)
Ltac observed_tac :=
  unfold recorder.cleanup, recorder.cleanup_temp_file, utils.cleanup_pid,
    utils.PID_FILE_unlink, act;
  cbn [snd fst];
  autorewrite with observed;
  cbn [List.filter is_device is_sink];
  rewrite ?app_nil_r, <- ?app_assoc; cbn [app].

Lemma truthy_text {A} (s : list A) : truthy s = true -> s <> [].
Proof. destruct s; [discriminate|discriminate]. Qed.

(** The transcription thread leaves the audio device alone and delivers
    at most once. *)
Lemma thread_observed run clip typed audio_file self w :
  exists text s,
    fst (_transcribe_thread run clip typed audio_file self w)
    = with_done_queue (done_queue self ++ [text]) self
    /\ devices (snd (_transcribe_thread run clip typed audio_file self w))
       = devices w
    /\ sinks (snd (_transcribe_thread run clip typed audio_file self w))
       = sinks w ++ s
    /\ delivered (output_mode self) s.
Proof.
  unfold _transcribe_thread.
  destruct (transcriber.transcribe run (transcriber self) (lit audio_file))
    as [text0 printed].
  assert (C : forall w', devices (recorder.cleanup_temp_file (recorder self) w')
                         = devices w'
                         /\ sinks (recorder.cleanup_temp_file (recorder self) w')
                            = sinks w').
  { intros w'. unfold recorder.cleanup_temp_file.
    destruct (recorder.temp_file_path (recorder self));
      [destruct (recorder.path_truthy _)|]; split; observed_tac; reflexivity. }
  destruct (truthy text0) eqn:T;
    [apply truthy_text in T; destruct clip as [b|e];
     [case_bool_decide as Hmode; [destruct typed as [b'|e']|]|]|];
    cbn [fst snd];
    rewrite (proj1 (C _)), (proj2 (C _)).
  - exists text0, [Clipboard text0; Typing text0].
    split; [reflexivity|]. split; [observed_tac; reflexivity|].
    split; [observed_tac; reflexivity|]. right. exists text0. auto.
  - exists [], [Clipboard text0; Typing text0].
    split; [reflexivity|]. split; [observed_tac; reflexivity|].
    split; [observed_tac; reflexivity|]. right. exists text0. auto.
  - exists text0, [Clipboard text0].
    split; [reflexivity|]. split; [observed_tac; reflexivity|].
    split; [observed_tac; reflexivity|]. right. exists text0. auto.
  - exists [], [Clipboard text0].
    split; [reflexivity|]. split; [observed_tac; reflexivity|].
    split; [observed_tac; reflexivity|]. right. exists text0. auto.
  - exists text0, [].
    split; [reflexivity|]. split; [observed_tac; reflexivity|].
    split; [observed_tac; reflexivity|]. left. reflexivity.
Qed.

Lemma init_observed om t w0 : observed_invariant om w0 (init om t, w0).
Proof.
  exists Idle, []. cbn [fst snd]. split; [cbn; tauto|].
  split; [reflexivity|]. split; [intros E; discriminate E|].
  split; [symmetry; apply app_nil_r|].
  split; [symmetry; apply app_nil_r|reflexivity].
Qed.

(** Shows the invariant after a step that leads to phase [ph] without
    a delivery. *)
Ltac observe ph s Hd Hs Hk :=
  exists ph, s; cbn [fst snd];
  split;
  [ cbn [in_phase]; unfold has_temp_file; window_cbn; repeat split;
    first [ reflexivity | lia
          | eexists; first [ reflexivity
                           | split; [ reflexivity
                                    | first [ apply suffixed_path_truthy
                                            | eassumption ] ] ] ]
  | split;
    [ reflexivity
    | split;
      [ intros E; first [ discriminate E | reflexivity ]
      | split;
        [ observed_tac; rewrite ?Hd; unfold devices_by, device_life;
          cbn [take]; rewrite ?app_nil_r, <- ?app_assoc; reflexivity
        | split;
          [ observed_tac; rewrite ?Hs, ?app_nil_r; reflexivity
          | cbn [sinks_by];
            first [ exact Hk | left; exact Hk ] ] ] ] ] ].

Ltac observe_somewhere s Hd Hs Hk :=
  first
    [ solve [observe Idle s Hd Hs Hk]
    | solve [observe Recording s Hd Hs Hk]
    | solve [observe Transcribing s Hd Hs Hk]
    | solve [observe Delivering s Hd Hs Hk]
    | solve [observe Finished s Hd Hs Hk] ].

Lemma fire_observed om w0 e st :
  observed_invariant om w0 st -> observed_invariant om w0 (fire e st).
Proof.
  intros (p & s & Hp & Hom & Hst & Hd & Hs & Hk). destruct st as [self w].
  cbn [fst snd] in Hp, Hom, Hst, Hd, Hs.
  destruct self as [om' t rec [lc rrec frames tp strm] stat an sp th dq ct cl].
  cbn in Hom. subst om'.
  destruct p; cbn in Hp, Hst; cbn [sinks_by] in Hk;
    unfold devices_by, device_life in Hd; cbn [take] in Hd.
  - (* Idle *)
    destruct Hp as (-> & -> & -> & -> & -> & ->).
    destruct e as [stem|in_data|[| |code]| | | |run clip typed| |];
      window_cbn; solve [observe_somewhere s Hd Hs Hk].
  - (* Recording *)
    destruct Hp as (-> & -> & -> & (path & Hpath & Htruthy) & -> & -> & ->).
    cbn in Hpath. subst tp. rewrite (Hst eq_refl) in *. clear Hst.
    destruct lc, frames as [|chunk frames];
      destruct e as [stem|in_data|[| |code]| | | |run clip typed| |];
      window_cbn; rewrite ?Htruthy; window_cbn;
      solve [observe_somewhere s Hd Hs Hk].
  - (* Transcribing *)
    destruct Hp
      as (-> & -> & -> & (path & Hpath & Htruthy) & (f & ->) & -> & ->).
    cbn in Hpath. subst tp.
    destruct e as [stem|in_data|[| |code]| | | |run clip typed| |];
      try solve [window_cbn; observe_somewhere s Hd Hs Hk].
    cbn [fire threads with_threads output_mode transcriber recording recorder
         status animating start_pending done_queue close_timers closed].
    match goal with
    | |- context [_transcribe_thread run clip typed f ?x w] =>
        destruct (thread_observed run clip typed f x w)
          as (text & s' & E1 & E2 & E3 & E4);
        destruct (_transcribe_thread run clip typed f x w) as [self' w']
    end.
    cbn [fst snd] in E1, E2, E3. subst self'. cbn [output_mode] in E4.
    exists Delivering, s'. cbn [fst snd].
    split; [cbn [in_phase]; window_cbn; repeat split; eauto|].
    split; [reflexivity|]. split; [intros E; discriminate E|].
    split; [rewrite E2; exact Hd|].
    split; [rewrite E3, Hs, Hk, app_nil_r; reflexivity|exact E4].
  - (* Delivering *)
    destruct Hp as (-> & -> & -> & -> & (text & ->) & ->).
    destruct e as [stem|in_data|[| |code]| | | |run clip typed| |];
      window_cbn; solve [observe_somewhere s Hd Hs Hk].
  - (* Finished *)
    destruct Hp as (-> & -> & -> & -> & -> & Hct).
    destruct ct as [|ct];
      destruct e as [stem|in_data|[| |code]| | | |run clip typed| |];
      window_cbn; solve [observe_somewhere s Hd Hs Hk].
Qed.

Lemma run_events_observed om w0 es : forall st,
  observed_invariant om w0 st -> observed_invariant om w0 (run_events es st).
Proof.
  induction es as [|e es IH]; intros st H; [exact H|].
  apply (IH (fire e st)), fire_observed, H.
Qed.

(** X23. The audio device in a session.  Whatever happens to the
    window, in whatever order, the calls made to PortAudio since the
    window was made are a beginning of: open the stream (2 bytes per
    sample, 1 channel, 16000 frames per second, 1024 frames per buffer),
    stop it, close it, terminate PortAudio.  So the stream is opened at
    most once, it is never stopped or closed unless open, never twice,
    and PortAudio is terminated at most once and only after the stream
    has been closed. *)
Theorem device_calls_in_order om t w0 es :
  exists made rest,
    devices (snd (run_events es (init om t, w0))) = devices w0 ++ made
    /\ made ++ rest = device_life.
Proof.
  destruct (run_events_observed om w0 es _ (init_observed om t w0))
    as (p & s & _ & _ & _ & Hd & _).
  exists (devices_by p). destruct p; cbn [devices_by].
  - exists device_life. split; [exact Hd|reflexivity].
  - exists (drop 1 device_life). split; [exact Hd|apply take_drop].
  - exists (drop 3 device_life). split; [exact Hd|apply take_drop].
  - exists (drop 3 device_life). split; [exact Hd|apply take_drop].
  - exists []. split; [exact Hd|apply app_nil_r].
Qed.

(** X24. At most one delivery in a session.  Whatever happens to the
    window, in whatever order, the calls made to the clipboard and to
    the typing tool since the window was made are none at all, or one
    copy of a text that is not empty, or, in the output mode ["type"]
    only, that copy followed by the typing of the same text. *)
Theorem at_most_one_delivery om t w0 es :
  exists s,
    sinks (snd (run_events es (init om t, w0))) = sinks w0 ++ s
    /\ delivered om s.
Proof.
  destruct (run_events_observed om w0 es _ (init_observed om t w0))
    as (p & s & _ & _ & _ & _ & Hs & Hk).
  exists s. split; [exact Hs|].
  destruct p; cbn [sinks_by] in Hk; first [exact Hk | left; exact Hk].
Qed.

(** The audio device and the sinks in the session of the examples. *)
Example a_session_observed :
  devices (snd (run_events examples.a_session examples.a_start)) = device_life
  /\ sinks (snd (run_events examples.a_session examples.a_start))
     = [Clipboard (lit "hi")].
Proof. split; reflexivity. Qed.

(** Once a session is finished, nothing touches the temporary
    directory. *)
Lemma finished_keeps_tmp e self w :
  in_phase Finished self ->
  in_phase Finished (fst (fire e (self, w)))
  /\ tmp (snd (fire e (self, w))) = tmp w.
Proof.
  destruct self as [om t rec [lc rrec frames tp strm] stat an sp th dq ct cl].
  cbn [in_phase]. window_cbn.
  intros (-> & -> & -> & -> & -> & Hct).
  destruct ct as [|ct];
    destruct e as [stem|in_data|[| |code]| | | |run clip typed| |];
    window_cbn; (split; [repeat split; first [reflexivity | lia]|reflexivity]).
Qed.

Lemma finished_run_keeps_tmp es : forall self w,
  in_phase Finished self -> tmp (snd (run_events es (self, w))) = tmp w.
Proof.
  induction es as [|e es IH]; intros self w H; [reflexivity|].
  change (run_events (e :: es) (self, w))
    with (run_events es (fire e (self, w))).
  destruct (finished_keeps_tmp e self w H) as [H1 H2].
  destruct (fire e (self, w)) as [self' w']. cbn [fst snd] in H1, H2.
  rewrite (IH self' w' H1). exact H2.
Qed.

(** X25. A session that is stopped before any chunk of audio has
    arrived never removes its temporary file.  Whichever way the stop
    comes (Escape, Space, the stop signal of a peer, a request to close,
    SIGTERM or SIGINT) and whatever happens afterwards, the temporary
    directory at the end is the one at the start with the empty file
    that [start()] created added to it: [cleanup_temp_file] is called by
    the transcription thread only, and no thread is started. *)
Theorem silent_session_leaves_temp_file om t w stem e es :
  is_stop_request e \/ e = Terminated ->
  tmp (snd (run_events (StartTimer stem :: e :: es) (init om t, w)))
  = <[(stem +:+ ".wav")%string := Blank]> (tmp w).
Proof.
  intros He.
  change (run_events (StartTimer stem :: e :: es) (init om t, w))
    with (run_events es (fire e (fire (StartTimer stem) (init om t, w)))).
  rewrite fire_start.
  assert (F : in_phase Finished
                (fst (fire e
                        (Build om t true
                           (recorder.Build true true []
                              (Some (stem +:+ ".wav")%string) true)
                           (lit "Listening...") true false [] [] 0 false,
                         log [StreamOpen 2 1 16000 1024]
                             (set_tmp (<[(stem +:+ ".wav")%string := Blank]>
                                         (tmp w)) w))))
              /\ tmp (snd (fire e
                        (Build om t true
                           (recorder.Build true true []
                              (Some (stem +:+ ".wav")%string) true)
                           (lit "Listening...") true false [] [] 0 false,
                         log [StreamOpen 2 1 16000 1024]
                             (set_tmp (<[(stem +:+ ".wav")%string := Blank]>
                                         (tmp w)) w))))
                 = <[(stem +:+ ".wav")%string := Blank]> (tmp w)).
  { destruct He as [[-> | [-> | [-> | ->]]] | ->]; window_cbn;
      rewrite ?suffixed_path_truthy; window_cbn;
      (split; [cbn [in_phase]; window_cbn; repeat split;
               first [reflexivity | lia]
              |reflexivity]). }
  destruct F as [F1 F2].
  destruct (fire e _) as [self' w']. cbn [fst snd] in F1, F2.
  rewrite (finished_run_keeps_tmp es self' w' F1). exact F2.
Qed.

Lemma silent_session_leaves_temp_file_witness :
  tmp (snd (run_events examples.a_silent_session examples.a_start))
  = <[("/tmp/tmpk3v9x0q2" +:+ ".wav")%string := Blank]>
      (tmp (examples.machine (Some (lit "7001")))).
Proof.
  apply (silent_session_leaves_temp_file (lit "clipboard")
           examples.a_transcriber (examples.machine (Some (lit "7001")))
           "/tmp/tmpk3v9x0q2" (KeyPress Key_Escape) [CloseTimer]).
  left. left. reflexivity.
Defined.
End session_facts.

(** ** More on the marker file *)

Module marker_facts.
Import Py host utils cli.

(** X16. What [is_already_running] can come to, for any marker and any
    process table.  It returns [True] only after it has sent the stop
    signal, once, to a live process whose identifier the marker holds,
    and it leaves the marker as it is.  It returns [False] only with no
    marker left: there was none, or it has removed it.  It raises only
    when [os.kill] refuses the identifier ([PermissionError],
    [OverflowError]), and then nothing has changed. *)
Theorem is_already_running_outcomes int_ w :
  match is_already_running int_ w with
  | (Return true, w') =>
      exists text pid,
        pid_file w = Some text /\ int_ (strip text) = Some pid
        /\ processes w pid = Live
        /\ w' = log [Signal pid SIGUSR1] w
  | (Return false, w') =>
      pid_file w' = None
      /\ (w' = w \/ w' = log [UnlinkPidFile] (set_pid_file None w))
  | (Raise e, w') =>
      w' = w /\ pid_file w <> None
      /\ (exn_cls e = PermissionError \/ exn_cls e = OverflowError)
  end.
Proof.
  unfold is_already_running, bind, try_except, PID_FILE_exists,
    PID_FILE_read_text, int_or_raise, os_kill, ret, raise.
  destruct (pid_file w) as [text|] eqn:Hm; cbn.
  - rewrite Hm.
    destruct (int_ (strip text)) as [pid|] eqn:Hi; cbn.
    + destruct (processes w pid) eqn:Hp; cbn; rewrite ?Hp; cbn.
      * exists text, pid. repeat split; assumption.
      * split; [reflexivity|right; reflexivity].
      * split; [reflexivity|]. split; [discriminate|left; reflexivity].
      * split; [reflexivity|]. split; [discriminate|right; reflexivity].
    + split; [reflexivity|right; reflexivity].
  - split; [exact Hm|left; reflexivity].
Qed.

(** X17. The toggle.  On a machine without a marker the first
    invocation claims it, writing its own process identifier.  A second
    invocation that finds this marker while the first process is alive
    reads the identifier back, sends that process the stop signal and
    nothing else, and does not claim.  Once the first has removed the
    marker, the next invocation claims again. *)
Theorem toggle_cycle w w2 w3 :
  pid_file w = None -> (0 <= getpid w)%Z ->
  pid_file w2 = pid_file (snd (claimOrSignal int_ascii w)) ->
  processes w2 (getpid w) = Live ->
  pid_file w3 = pid_file (snd (cleanup_pid (snd (claimOrSignal int_ascii w)))) ->
  claimOrSignal int_ascii w
  = (Return Claimed, set_pid_file (Some (str_of_int (getpid w))) w)
  /\ claimOrSignal int_ascii w2
     = (Return SignaledExisting, log [Signal (getpid w) SIGUSR1] w2)
  /\ claimOrSignal int_ascii w3
     = (Return Claimed, set_pid_file (Some (str_of_int (getpid w3))) w3).
Proof.
  intros Hfresh Hpid H2 Hlive H3.
  assert (C : forall m, pid_file m = None ->
              claimOrSignal int_ascii m
              = (Return Claimed, set_pid_file (Some (str_of_int (getpid m))) m)).
  { intros m Hm. unfold claimOrSignal, bind.
    rewrite (utils_facts.is_already_running_absent int_ascii m Hm).
    reflexivity. }
  split; [apply C, Hfresh|]. split.
  - apply (utils_facts.second_invocation_signals_first w w2); assumption.
  - apply C. rewrite H3. reflexivity.
Qed.

Lemma toggle_cycle_witness :
  claimOrSignal int_ascii
    (World (Some (lit "7001")) ∅ 7002
           (fun pid => if (pid =? 7001)%Z then Live else Gone) [])
  = (Return SignaledExisting,
     log [Signal 7001 SIGUSR1]
         (World (Some (lit "7001")) ∅ 7002
                (fun pid => if (pid =? 7001)%Z then Live else Gone) [])).
Proof.
  apply (toggle_cycle (examples.machine None)
           (World (Some (lit "7001")) ∅ 7002
                  (fun pid => if (pid =? 7001)%Z then Live else Gone) [])
           (examples.machine None));
    first [reflexivity | vm_compute; discriminate].
Defined.

End marker_facts.

(** ** More on the recorder *)

Module capture_facts.
Import Py host recorder.

Lemma stop_idle self w : recording self = false -> stop self w = (None, self, w).
Proof. intros H. unfold stop. rewrite H. reflexivity. Qed.

Lemma stop_stops self w : recording (snd (fst (stop self w))) = false.
Proof.
  unfold stop. destruct (recording self) eqn:E; cbn [negb fst snd]; [|exact E].
  destruct (temp_file_path self);
    [destruct (path_truthy _ && truthy _)|]; reflexivity.
Qed.

(** X18. [stop()] is idempotent, whatever state the recorder is in: a
    second call returns [None] and changes neither the recorder nor the
    machine, so that the file written by the first call is not written
    again and the stream is not closed twice; and a chunk that arrives
    after [stop()] is neither kept nor reported. *)
Theorem stop_is_idempotent self w in_data :
  let stopped := stop self w in
  stop (snd (fst stopped)) (snd stopped)
  = (None, snd (fst stopped), snd stopped)
  /\ _audio_callback in_data (snd (fst stopped)) (snd stopped)
     = (snd (fst stopped), snd stopped).
Proof.
  cbv zeta. split.
  - apply stop_idle, stop_stops.
  - unfold _audio_callback. rewrite stop_stops. reflexivity.
Qed.

(** X19. The calls a recorder makes from [start()] to [stop()]: the
    stream is opened with 2 bytes per sample, 1 channel, 16000 frames
    per second and buffers of 1024 frames; the level callback, if one
    was given, is called once for each chunk that is a whole number of
    16-bit samples, in the order of arrival, with the level of the
    chunk: the binary32 mean of the absolute values of its samples,
    divided by 32768; the stream is stopped, then closed.  For a chunk with an odd number of bytes computing the
    level raises [ValueError] and the callback is not called; the chunk
    is kept all the same.  Chunks that arrive after [stop()] add
    nothing, and the frames kept are the chunks that arrived in
    between. *)
Theorem recording_lifecycle stem callback w chunks late :
  let started := start stem (init callback) w in
  let captured := deliver chunks (fst started) (snd started) in
  let stopped := stop (fst captured) (snd captured) in
  let after := deliver late (snd (fst stopped)) (snd stopped) in
  let whole in_data := Nat.even (length in_data) in
  let mean_abs in_data :=
    np.mean (np.abs (np.astype_float32 (np.int16_pairs in_data))) in
  let level_of in_data :=
    np.true_divide (mean_abs in_data) (np.float32_of_int 32768) in
  trace (snd after)
  = trace w ++ [StreamOpen 2 1 16000 1024]
    ++ (if callback
        then map (fun in_data => Level (level_of in_data))
                 (List.filter whole chunks)
        else [])
    ++ [StreamStop; StreamClose]
  /\ audio_frames (fst after) = chunks
  /\ (forall in_data,
        whole in_data = false ->
        level in_data
        = Raise (Exn ValueError
                   (lit "buffer size must be a multiple of element size"))
        /\ forall self w',
             recording self = true ->
             _audio_callback in_data self w'
             = (Build (level_callback self) true
                      (audio_frames self ++ [in_data])
                      (temp_file_path self) (stream self), w'))
  /\ (forall in_data,
        whole in_data = true -> level in_data = Return (level_of in_data)).
Proof.
  cbv zeta. rewrite recorder_facts.deliver_idle by apply stop_stops.
  rewrite recorder_facts.stop_after_capture.
  unfold start. cbn [fst snd].
  rewrite recorder_facts.deliver_capturing by reflexivity.
  cbn [fst snd level_callback init].
  rewrite recorder_facts.reported_whole.
  split; [|split; [|split]].
  - destruct chunks as [|c chunks]; cbn [fst snd audio_frames];
      unfold log, set_tmp; cbn [trace]; rewrite <- !app_assoc; reflexivity.
  - destruct chunks as [|c chunks]; reflexivity.
  - intros in_data E. split; [apply recorder_facts.level_ragged, E|].
    intros [lc rc frames path st] w' R. cbn in R. subst rc.
    unfold _audio_callback, reported.
    rewrite (recorder_facts.level_ragged _ E).
    cbn [recording level_callback audio_frames temp_file_path stream].
    destruct lc; [|reflexivity].
    unfold log. destruct w'. cbn. rewrite app_nil_r. reflexivity.
  - intros in_data E. apply recorder_facts.level_whole, E.
Qed.

(** X20. The temporary file of a recording.  After [start()], any
    chunks, [stop()] and [cleanup_temp_file()] the temporary directory
    holds what it held before, less the file of the recording: if the
    name [NamedTemporaryFile] picked was free, as it is, the directory
    is as it was.  No other file is touched, and a second
    [cleanup_temp_file()] removes nothing more. *)
Theorem temp_file_round_trip stem self w chunks :
  let started := start stem self w in
  let captured := deliver chunks (fst started) (snd started) in
  let stopped := stop (fst captured) (snd captured) in
  let cleaned := cleanup_temp_file (snd (fst stopped)) (snd stopped) in
  tmp cleaned = delete (stem +:+ ".wav")%string (tmp w)
  /\ (tmp w !! (stem +:+ ".wav")%string = None -> tmp cleaned = tmp w)
  /\ tmp (cleanup_temp_file (snd (fst stopped)) cleaned) = tmp cleaned
  /\ pid_file cleaned = pid_file w.
Proof.
  cbv zeta. rewrite recorder_facts.stop_after_capture.
  unfold start. cbn [fst snd].
  rewrite recorder_facts.deliver_capturing by reflexivity.
  cbn [fst snd].
  assert (E : forall (m : gmap string artifact) v,
             delete (stem +:+ ".wav")%string
                    (<[(stem +:+ ".wav")%string := v]> m)
             = delete (stem +:+ ".wav")%string m).
  { intros m v. apply delete_insert_eq. }
  destruct chunks as [|c chunks]; cbn [fst snd];
    unfold cleanup_temp_file; cbn [temp_file_path];
    rewrite recorder_facts.suffixed_path_truthy;
    unfold log, set_tmp; cbn [tmp pid_file trace];
    rewrite ?E;
    (split; [reflexivity|]);
    (split; [intros N; apply delete_id; exact N|]);
    (split; [apply delete_id, lookup_delete_eq|reflexivity]).
Qed.

End capture_facts.

(** ** The shape of a transcription *)

Module text_facts.
Import Py transcriber.

Lemma lstrip_head s c r : lstrip s = c :: r -> isspace c = false.
Proof.
  induction s as [|a s IH]; cbn [lstrip]; [discriminate|].
  destruct (isspace a) eqn:E; [exact IH|].
  intros [= <- _]. exact E.
Qed.

Lemma rstrip_head s c r : rstrip s = c :: r -> exists r', s = c :: r'.
Proof.
  destruct s as [|a s]; cbn [rstrip]; [discriminate|].
  destruct (rstrip s); [destruct (isspace a); [discriminate|]|];
    intros [= <- _]; eexists; reflexivity.
Qed.

Lemma rstrip_last s : forall i d, rstrip s = i ++ [d] -> isspace d = false.
Proof.
  induction s as [|a s IH]; intros i d; cbn [rstrip].
  - destruct i; discriminate.
  - destruct (rstrip s) as [|y r] eqn:E.
    + destruct (isspace a) eqn:Ea; [destruct i; discriminate|].
      destruct i as [|b i]; [intros [= <-]; exact Ea|].
      destruct i; discriminate.
    + destruct i as [|b i]; [discriminate|].
      intros [= _ H]. exact (IH i d H).
Qed.

Lemma lstrip_fixed x :
  (forall c r, x = c :: r -> isspace c = false) -> lstrip x = x.
Proof.
  destruct x as [|c r]; [reflexivity|]. intros H. cbn [lstrip].
  rewrite (H c r eq_refl). reflexivity.
Qed.

Lemma rstrip_fixed x :
  (forall i d, x = i ++ [d] -> isspace d = false) -> rstrip x = x.
Proof.
  induction x as [|c x IH]; [reflexivity|]. intros H. cbn [rstrip].
  rewrite IH by (intros i d ->; exact (H (c :: i) d eq_refl)).
  destruct x as [|y x]; [|reflexivity].
  rewrite (H [] c eq_refl). reflexivity.
Qed.

(** Neither end of a stripped string is whitespace. *)
Lemma strip_ends s :
  (forall c r, strip s = c :: r -> isspace c = false)
  /\ (forall i d, strip s = i ++ [d] -> isspace d = false).
Proof.
  unfold strip. split.
  - intros c r H. destruct (rstrip_head _ _ _ H) as [r' H'].
    exact (lstrip_head _ _ _ H').
  - apply rstrip_last.
Qed.

Lemma ends_fixed x :
  (forall c r, x = c :: r -> isspace c = false) ->
  (forall i d, x = i ++ [d] -> isspace d = false) ->
  strip x = x.
Proof.
  intros H1 H2. unfold strip. rewrite (lstrip_fixed x H1).
  exact (rstrip_fixed x H2).
Qed.

Lemma in_lstrip c s : In c (lstrip s) -> In c s.
Proof.
  induction s as [|a s IH]; cbn [lstrip]; [tauto|].
  destruct (isspace a); [right; auto|tauto].
Qed.

Lemma in_rstrip c s : In c (rstrip s) -> In c s.
Proof.
  induction s as [|a s IH]; cbn [rstrip]; [tauto|].
  destruct (rstrip s) as [|y r].
  - destruct (isspace a); cbn [In]; tauto.
  - intros [H|H]; [left; exact H|right; exact (IH H)].
Qed.

Lemma in_strip c s : In c (strip s) -> In c s.
Proof. intros H. apply in_lstrip, in_rstrip, H. Qed.

Lemma split_no_sep sep s : Forall (fun field => ~ In sep field) (split sep s).
Proof.
  induction s as [|c s IH]; cbn [split].
  - repeat constructor. intros [].
  - destruct (c =? sep)%N eqn:E.
    + constructor; [intros []|exact IH].
    + destruct (split sep s) as [|field fields]; inversion IH; subst.
      * repeat constructor. intros [H|[]]. subst c.
        rewrite N.eqb_refl in E. discriminate E.
      * constructor; [|assumption].
        intros [H|H]; [|tauto]. subst c.
        rewrite N.eqb_refl in E. discriminate E.
Qed.

(** The words joined by [transcribe]: not empty, stripped, and free of
    line feeds. *)
Lemma clean_lines_words stdout :
  Forall (fun word => word <> [] /\ strip word = word /\ ~ In NL word)
         (clean_lines stdout).
Proof.
  unfold clean_lines. apply List.Forall_forall. intros word H.
  apply List.in_map_iff in H as (line & <- & H).
  apply List.filter_In in H as [H T].
  split; [destruct (strip line); [discriminate T|discriminate]|].
  split.
  - destruct (strip_ends line) as [H1 H2]. exact (ends_fixed _ H1 H2).
  - intros I. apply in_strip in I.
    pose proof (split_no_sep NL (strip stdout)) as F.
    rewrite List.Forall_forall in F. exact (F line H I).
Qed.

Lemma join_cons sep x y words :
  join sep (x :: y :: words) = x ++ sep ++ join sep (y :: words).
Proof. reflexivity. Qed.

Lemma join_words sep words :
  Forall (fun word => word <> [] /\ strip word = word /\ ~ In NL word) words ->
  ~ In NL sep ->
  (words <> [] -> join sep words <> [])
  /\ (forall c r, join sep words = c :: r -> isspace c = false)
  /\ (forall i d, join sep words = i ++ [d] -> isspace d = false)
  /\ ~ In NL (join sep words).
Proof.
  intros F S. induction F as [|x words (N & T & L) F IH].
  - cbn [join]. split; [congruence|]. split; [discriminate|].
    split; [intros [] ? ?; discriminate|intros []].
  - destruct IH as (IN & IH1 & IH2 & IL).
    destruct (strip_ends x) as [E1 E2]. rewrite T in E1, E2.
    destruct words as [|y words].
    + cbn [join].
      split; [intros _; exact N|]. split; [exact E1|]. split; [exact E2|exact L].
    + rewrite join_cons.
      assert (NJ : join sep (y :: words) <> []) by (apply IN; discriminate).
      split; [intros _ H; apply app_eq_nil in H as [H _]; exact (N H)|].
      split; [|split].
      * intros c r H. destruct x as [|a x]; [congruence|].
        injection H as <- _. exact (E1 a x eq_refl).
      * intros i d H.
        destruct (exists_last NJ) as (i' & d' & EJ).
        assert (H' : x ++ sep ++ i' ++ [d'] = i ++ [d])
          by (rewrite <- EJ; exact H).
        rewrite !app_assoc in H'.
        apply app_inj_tail in H' as [_ <-].
        exact (IH2 i' d' EJ).
      * rewrite !in_app_iff. tauto.
Qed.

(** X21. Whatever the executable prints, and whether or not it runs at
    all, the text [transcribe] returns is a single line with no
    whitespace at either end: it contains no line feed, and stripping it
    again gives the same text. *)
Theorem transcription_is_one_trimmed_line run self audio_file :
  ~ In NL (fst (transcribe run self audio_file))
  /\ strip (fst (transcribe run self audio_file))
     = fst (transcribe run self audio_file).
Proof.
  unfold transcribe.
  destruct (run (command self audio_file) (timeout self)) as [rc stdout|[[] msg]];
    cbn [fst]; try (split; [intros []|reflexivity]).
  assert (S : ~ In NL (lit " ")) by (intros [H|[]]; discriminate H).
  destruct (join_words (lit " ") _ (clean_lines_words stdout) S)
    as (_ & H1 & H2 & L).
  split; [exact L|exact (ends_fixed _ H1 H2)].
Qed.

End text_facts.

(** ** utils.py: detection of external tools, the output sinks *)

Module tools_facts.
Import Py builtins tools.

Lemma preferred_head installed t names :
  installed t = true -> preferred installed (t :: names) t.
Proof. intros H. exists [], names. repeat split; [exact H|constructor]. Qed.

Lemma preferred_tail installed c t names :
  installed c = false -> preferred installed names t ->
  preferred installed (c :: names) t.
Proof.
  intros Hc (before & after & -> & Ht & Hb).
  exists (c :: before), after. repeat split; [exact Ht|].
  apply List.Forall_cons; assumption.
Qed.

(** X1. [detect_clipboard_tool] and [detect_typing_tool] return the
    first installed tool of their list (wl-copy, xclip, pbcopy;
    ydotool, xdotool): the tool returned is installed and none listed
    before it is, and nothing is returned only when none is installed. *)
Theorem detection_prefers_first_installed sys :
  (forall t, detect_clipboard_tool sys = Some t ->
             preferred (on_path sys) clipboard_tools t)
  /\ (detect_clipboard_tool sys = None ->
      Forall (fun c => on_path sys c = false) clipboard_tools)
  /\ (forall t, detect_typing_tool sys = Some t ->
                preferred (on_path sys) typing_tools t)
  /\ (detect_typing_tool sys = None ->
      Forall (fun c => on_path sys c = false) typing_tools).
Proof.
  unfold detect_clipboard_tool, detect_typing_tool, clipboard_tools,
    typing_tools.
  fold (on_path sys (lit "wl-copy")) (on_path sys (lit "xclip"))
       (on_path sys (lit "pbcopy")) (on_path sys (lit "ydotool"))
       (on_path sys (lit "xdotool")).
  destruct (on_path sys (lit "wl-copy")) eqn:E1,
           (on_path sys (lit "xclip")) eqn:E2,
           (on_path sys (lit "pbcopy")) eqn:E3,
           (on_path sys (lit "ydotool")) eqn:E4,
           (on_path sys (lit "xdotool")) eqn:E5;
    (repeat split;
     [ intros t H; try discriminate H; injection H as <-
     | intros H; try discriminate H
     | intros t H; try discriminate H; injection H as <-
     | intros H; try discriminate H ]);
    repeat first [ apply preferred_head; assumption
                 | apply preferred_tail; [assumption|]
                 | apply List.Forall_cons; [assumption|]
                 | apply List.Forall_nil ].
Qed.

Lemma detection_prefers_first_installed_witness :
  preferred (on_path examples.an_x11_system) clipboard_tools (lit "xclip").
Proof.
  apply (proj1 (detection_prefers_first_installed examples.an_x11_system)).
  reflexivity.
Defined.

Lemma first_on_path_spec sys names :
  match first_on_path sys names with
  | Some path =>
      exists cmd, which sys cmd = Some path
                  /\ preferred (on_path sys) names cmd
  | None => Forall (fun c => on_path sys c = false) names
  end.
Proof.
  induction names as [|c names IH]; simpl; [constructor|].
  destruct (truthy_opt (which sys c)) eqn:E.
  - destruct (which sys c) as [path|] eqn:W; [|discriminate E].
    exists c. split; [exact W|]. apply preferred_head.
    unfold on_path. rewrite W. exact E.
  - destruct (first_on_path sys names) as [path|].
    + destruct IH as (cmd & W & P). exists cmd. split; [exact W|].
      apply preferred_tail; assumption.
    + apply List.Forall_cons; assumption.
Qed.

Lemma first_existing_spec sys paths :
  match first_existing sys paths with
  | Some path => preferred (path_exists sys) paths path
  | None => Forall (fun p => path_exists sys p = false) paths
  end.
Proof.
  induction paths as [|p paths IH]; simpl; [constructor|].
  destruct (path_exists sys p) eqn:E; [apply preferred_head, E|].
  destruct (first_existing sys paths) as [path|].
  - apply preferred_tail; assumption.
  - apply List.Forall_cons; assumption.
Qed.

Lemma preferred_in installed names t : preferred installed names t -> In t names.
Proof.
  intros (before & after & -> & _ & _). apply in_or_app. right. left. reflexivity.
Qed.

Lemma common_paths_truthy sys p : In p (common_paths sys) -> truthy p = true.
Proof.
  unfold common_paths, Path_div. simpl.
  intros [<-|[<-|[<-|[]]]]; try reflexivity.
  destruct (bool_decide (home sys = lit "/")); destruct (home sys); reflexivity.
Qed.

(** The search of [detect_whisper_cli], in full. *)
Lemma whisper_cli_search_order_aux sys :
  (forall cmd, preferred (on_path sys) candidates cmd ->
               detect_whisper_cli sys = which sys cmd)
  /\ (Forall (fun c => on_path sys c = false) candidates ->
      forall p, preferred (path_exists sys) (common_paths sys) p ->
                detect_whisper_cli sys = Some p)
  /\ (forall path, detect_whisper_cli sys = Some path -> truthy path = true)
  /\ (detect_whisper_cli sys = None <->
      Forall (fun c => on_path sys c = false) candidates
      /\ Forall (fun p => path_exists sys p = false) (common_paths sys)).
Proof.
  unfold detect_whisper_cli.
  pose proof (first_on_path_spec sys candidates) as HP.
  pose proof (first_existing_spec sys (common_paths sys)) as HE.
  assert (U : forall (installed : str -> bool) names a b,
             preferred installed names a -> preferred installed names b ->
             a = b).
  { intros installed names a b (b1 & a1 & E1 & I1 & F1) (b2 & a2 & E2 & I2 & F2).
    subst names. revert b2 E2 F2.
    induction b1 as [|x b1 IH]; intros [|y b2] E2 F2; simpl in *.
    - congruence.
    - injection E2 as <- _. apply Forall_inv in F2. congruence.
    - injection E2 as -> _. apply Forall_inv in F1. congruence.
    - injection E2 as <- E2. apply (IH (Forall_inv_tail F1) b2 E2).
      apply (Forall_inv_tail F2). }
  assert (N : forall (installed : str -> bool) names a,
             preferred installed names a ->
             Forall (fun c => installed c = false) names -> False).
  { intros installed names a P F. pose proof (preferred_in _ _ _ P) as I.
    destruct P as (_ & _ & _ & Ia & _).
    rewrite List.Forall_forall in F. specialize (F a I). congruence. }
  split; [|split; [|split]].
  - intros cmd P.
    destruct (first_on_path sys candidates) as [path|].
    + destruct HP as (cmd' & W & P'). rewrite (U _ _ _ _ P P'). symmetry. exact W.
    + destruct (N _ _ _ P HP).
  - intros F p P.
    destruct (first_on_path sys candidates) as [path|].
    + destruct HP as (cmd' & _ & P'). destruct (N _ _ _ P' F).
    + destruct (first_existing sys (common_paths sys)) as [q|].
      * f_equal. apply (U _ _ _ _ HE P).
      * destruct (N _ _ _ P HE).
  - intros path H.
    destruct (first_on_path sys candidates) as [q|].
    + injection H as ->. destruct HP as (cmd & W & (_ & _ & _ & I & _)).
      unfold on_path in I. rewrite W in I. exact I.
    + rewrite H in HE. apply (common_paths_truthy sys), (preferred_in _ _ _ HE).
  - split.
    + intros H. destruct (first_on_path sys candidates); [discriminate H|].
      rewrite H in HE. split; assumption.
    + intros [F1 F2].
      destruct (first_on_path sys candidates) as [q|].
      * destruct HP as (cmd & _ & P). destruct (N _ _ _ P F1).
      * destruct (first_existing sys (common_paths sys)) as [q|]; [|reflexivity].
        destruct (N _ _ _ HE F2).
Qed.

(** X2. [detect_whisper_cli] looks on the search path first: when one of
    the names whisper-cli, whisper, main is found there, the result is
    what [shutil.which] gave for the first such name, whatever exists at
    the fixed locations.  Otherwise it is the first of /usr/bin,
    /usr/local/bin and ~/.local/bin that holds whisper-cli.  The result
    is never an empty string, and it is absent exactly when neither
    search finds anything. *)
Theorem whisper_cli_search_order sys :
  (forall cmd, preferred (on_path sys) candidates cmd ->
               detect_whisper_cli sys = which sys cmd)
  /\ (Forall (fun c => on_path sys c = false) candidates ->
      forall p, preferred (path_exists sys) (common_paths sys) p ->
                detect_whisper_cli sys = Some p)
  /\ (forall path, detect_whisper_cli sys = Some path -> truthy path = true)
  /\ (detect_whisper_cli sys = None <->
      Forall (fun c => on_path sys c = false) candidates
      /\ Forall (fun p => path_exists sys p = false) (common_paths sys)).
Proof. exact (whisper_cli_search_order_aux sys). Qed.

Lemma whisper_cli_search_order_witness :
  detect_whisper_cli examples.an_x11_system = Some (lit "/opt/whisper/whisper").
Proof.
  apply (proj1 (whisper_cli_search_order examples.an_x11_system) (lit "whisper")).
  exists [lit "whisper-cli"], [lit "main"].
  repeat split. apply List.Forall_cons; [reflexivity|constructor].
Defined.

Lemma run_checked_spec run inv :
  snd (run_checked run inv) = [inv]
  /\ decided_by run inv (fst (run_checked run inv)).
Proof.
  unfold run_checked, decided_by. destruct (run inv); split; reflexivity.
Qed.

Lemma decided_true run inv r :
  decided_by run inv r -> (r = Return true <-> run inv = Exit 0).
Proof.
  unfold decided_by. destruct (run inv) as [rc|e]; intros ->; split; intros H.
  - injection H as H. apply Z.eqb_eq in H. subst rc. reflexivity.
  - injection H as ->. reflexivity.
  - discriminate H.
  - discriminate H.
Qed.

Lemma decided_raise run inv r e :
  decided_by run inv r -> r = Raise e -> run inv = Fails e.
Proof.
  unfold decided_by. destruct (run inv) as [rc|e']; intros -> H.
  - discriminate H.
  - injection H as ->. reflexivity.
Qed.

(** What a sink comes to when it runs nothing and returns [False], and
    when it hands the decision to one command. *)
Lemma nothing_run run :
  (fst (Return false, @nil invocation) = Return true
   <-> exists inv, snd (Return false, @nil invocation) = [inv]
                   /\ run inv = Exit 0)
  /\ (forall e text,
        fst (Return false, @nil invocation) = Raise e ->
        (exists inv, snd (Return false, @nil invocation) = [inv]
                     /\ run inv = Fails e)
        \/ (snd (Return false, @nil invocation) = []
            /\ encode_error text = Some e)).
Proof.
  cbn [fst snd]. split.
  - split; [intros H; discriminate H|intros (inv & H & _); discriminate H].
  - intros e text H. discriminate H.
Qed.

Lemma one_run run inv text :
  (fst (run_checked run inv) = Return true
   <-> exists inv', snd (run_checked run inv) = [inv'] /\ run inv' = Exit 0)
  /\ (forall e,
        fst (run_checked run inv) = Raise e ->
        (exists inv', snd (run_checked run inv) = [inv']
                      /\ run inv' = Fails e)
        \/ (snd (run_checked run inv) = [] /\ encode_error text = Some e)).
Proof.
  destruct (run_checked_spec run inv) as [S D]. rewrite S. split.
  - rewrite (decided_true _ _ _ D). split.
    + intros H. exists inv. auto.
    + intros (inv' & [= <-] & H). exact H.
  - intros e H. left. exists inv. split; [reflexivity|].
    exact (decided_raise _ _ _ _ D H).
Qed.

Lemma one_run_encoded run argv text :
  (fst (run_encoded run argv text) = Return true
   <-> exists inv', snd (run_encoded run argv text) = [inv']
                    /\ run inv' = Exit 0)
  /\ (forall e,
        fst (run_encoded run argv text) = Raise e ->
        (exists inv', snd (run_encoded run argv text) = [inv']
                      /\ run inv' = Fails e)
        \/ (snd (run_encoded run argv text) = []
            /\ encode_error text = Some e)).
Proof.
  unfold run_encoded. destruct (encode_error text) as [e'|] eqn:E.
  - cbn [fst snd]. split.
    + split; [intros H; discriminate H|intros (inv & H & _); discriminate H].
    + intros e [= <-]. right. auto.
  - destruct (one_run run (Invocation argv (Encoded text)) text) as [H1 H2].
    split; [exact H1|]. intros e H. destruct (H2 e H) as [H'|[_ H']];
      [left; exact H'|rewrite E in H'; discriminate H'].
Qed.

Lemma resolved_given detected tool :
  truthy_opt tool = true -> resolved detected tool = tool.
Proof. intros H. unfold resolved. rewrite H. reflexivity. Qed.

(** X3. What [copy_to_clipboard] does, for the tool it goes on with
    (the one it was given, or else the one it detects).  With no tool,
    or one that is not wl-copy, xclip or pbcopy, it runs nothing and
    returns [False].  With wl-copy it runs one command, with the text
    as its argument; with xclip or pbcopy it first encodes the text,
    and a text that cannot be encoded makes it raise
    [UnicodeEncodeError] with nothing run; otherwise it runs one
    command with the encoded text on standard input.  Where a command
    is run, the value returned is [True] for the exit status zero and
    [False] for any other, and an exception of the call itself is let
    through.  So [True] is returned exactly when one command was run
    and exited with status zero, and a tool given by the caller is used
    without consulting [shutil.which]. *)
Theorem copy_to_clipboard_sound sys run text tool :
  let used := resolved (detect_clipboard_tool sys) tool in
  let r := copy_to_clipboard sys run text tool in
  ((forall name, used = Some name -> ~ In name clipboard_tools) ->
   r = (Return false, []))
  /\ (used = Some (lit "wl-copy") ->
      snd r = [Invocation [lit "wl-copy"; text] NoInput]
      /\ decided_by run (Invocation [lit "wl-copy"; text] NoInput) (fst r))
  /\ (used = Some (lit "xclip") -> encode_error text = None ->
      snd r = [Invocation [lit "xclip"; lit "-selection"; lit "clipboard"]
                          (Encoded text)]
      /\ decided_by run
           (Invocation [lit "xclip"; lit "-selection"; lit "clipboard"]
                       (Encoded text))
           (fst r))
  /\ (used = Some (lit "pbcopy") -> encode_error text = None ->
      snd r = [Invocation [lit "pbcopy"] (Encoded text)]
      /\ decided_by run (Invocation [lit "pbcopy"] (Encoded text)) (fst r))
  /\ (forall e,
        used = Some (lit "xclip") \/ used = Some (lit "pbcopy") ->
        encode_error text = Some e ->
        r = (Raise e, []))
  /\ (fst r = Return true <-> exists inv, snd r = [inv] /\ run inv = Exit 0)
  /\ (forall e,
        fst r = Raise e ->
        (exists inv, snd r = [inv] /\ run inv = Fails e)
        \/ (snd r = [] /\ encode_error text = Some e))
  /\ (truthy_opt tool = true ->
      forall sys', copy_to_clipboard sys' run text tool = r).
Proof.
  intros used r. subst r. unfold copy_to_clipboard. fold used.
  split; [|split; [|split; [|split; [|split; [|split; [|split]]]]]].
  - intros H. destruct used as [name|]; [|reflexivity].
    destruct (negb (truthy name)); [reflexivity|].
    repeat (case_bool_decide;
            [exfalso; apply (H name eq_refl); subst name; cbn; tauto|]).
    reflexivity.
  - intros ->. cbn. apply run_checked_spec.
  - intros -> E. cbn. unfold run_encoded. rewrite E. apply run_checked_spec.
  - intros -> E. cbn. unfold run_encoded. rewrite E. apply run_checked_spec.
  - intros e [-> | ->] E; cbn; unfold run_encoded; rewrite E; reflexivity.
  - destruct used as [name|]; [|apply (nothing_run run)].
    destruct (negb (truthy name)); [apply (nothing_run run)|].
    repeat (case_bool_decide;
            [first [apply (one_run run _ text) | apply one_run_encoded]|]).
    apply (nothing_run run).
  - destruct used as [name|]; [|intros e; apply (nothing_run run)].
    destruct (negb (truthy name)); [intros e; apply (nothing_run run)|].
    repeat (case_bool_decide;
            [first [apply (one_run run _ text) | apply one_run_encoded]|]).
    intros e. apply (nothing_run run).
  - intros H sys'. subst used. rewrite !(resolved_given _ _ H). reflexivity.
Qed.

Lemma copy_to_clipboard_sound_witness :
  copy_to_clipboard examples.an_x11_system (fun _ => Exit 0)
    [0xDC80%N] None
  = (Raise (Exn ValueError
              (lit "'utf-8' codec can't encode character '\udc80' in position 0: surrogates not allowed")),
     []).
Proof.
  apply (proj1 (proj2 (proj2 (proj2 (proj2
           (copy_to_clipboard_sound examples.an_x11_system (fun _ => Exit 0)
              [0xDC80%N] None)))))).
  - left. reflexivity.
  - reflexivity.
Defined.

(** X4. What [type_text] does, for the tool it goes on with (the one it
    was given, or else the one it detects).  With no tool, or one that
    is neither ydotool nor xdotool, it runs nothing and returns
    [False].  With ydotool it runs one command that reads the text
    from standard input; with xdotool one command that is given the
    text as its last argument, after [--], so that a text beginning
    with a dash is not read as an option.  The value returned is [True]
    for the exit status zero and [False] for any other, and an
    exception of the call itself is let through.  So [True] is returned
    exactly when one command was run and exited with status zero,
    nothing is raised unless the call raised it, and a tool given by
    the caller is used without consulting [shutil.which]. *)
Theorem type_text_sound sys run text tool :
  let used := resolved (detect_typing_tool sys) tool in
  let r := type_text sys run text tool in
  ((forall name, used = Some name -> ~ In name typing_tools) ->
   r = (Return false, []))
  /\ (used = Some (lit "ydotool") ->
      snd r = [Invocation [lit "ydotool"; lit "type"; lit "--file"; lit "-"]
                          (AsText text)]
      /\ decided_by run
           (Invocation [lit "ydotool"; lit "type"; lit "--file"; lit "-"]
                       (AsText text))
           (fst r))
  /\ (used = Some (lit "xdotool") ->
      snd r = [Invocation [lit "xdotool"; lit "type"; lit "--"; text] NoInput]
      /\ decided_by run
           (Invocation [lit "xdotool"; lit "type"; lit "--"; text] NoInput)
           (fst r))
  /\ (fst r = Return true <-> exists inv, snd r = [inv] /\ run inv = Exit 0)
  /\ (forall e,
        fst r = Raise e -> exists inv, snd r = [inv] /\ run inv = Fails e)
  /\ (truthy_opt tool = true ->
      forall sys', type_text sys' run text tool = r).
Proof.
  intros used r. subst r. unfold type_text. fold used.
  assert (N : forall e,
             fst (Return false, @nil invocation) = Raise e ->
             exists inv, snd (Return false, @nil invocation) = [inv]
                         /\ run inv = Fails e)
    by (intros e H; discriminate H).
  assert (R : forall inv e,
             fst (run_checked run inv) = Raise e ->
             exists inv', snd (run_checked run inv) = [inv']
                          /\ run inv' = Fails e).
  { intros inv e H. destruct (proj2 (one_run run inv text) e H) as [H'|[H' _]];
      [exact H'|]. rewrite (proj1 (run_checked_spec run inv)) in H'.
    discriminate H'. }
  split; [|split; [|split; [|split; [|split]]]].
  - intros H. destruct used as [name|]; [|reflexivity].
    destruct (negb (truthy name)); [reflexivity|].
    repeat (case_bool_decide;
            [exfalso; apply (H name eq_refl); subst name; cbn; tauto|]).
    reflexivity.
  - intros ->. cbn. apply run_checked_spec.
  - intros ->. cbn. apply run_checked_spec.
  - destruct used as [name|]; [|apply (nothing_run run)].
    destruct (negb (truthy name)); [apply (nothing_run run)|].
    repeat (case_bool_decide; [apply (one_run run _ text)|]).
    apply (nothing_run run).
  - destruct used as [name|]; [|exact N].
    destruct (negb (truthy name)); [exact N|].
    repeat (case_bool_decide; [apply R|]).
    exact N.
  - intros H sys'. subst used. rewrite !(resolved_given _ _ H). reflexivity.
Qed.

Lemma type_text_sound_witness :
  type_text examples.a_bare_system (fun _ => Exit 0) (lit "-v is a flag")
    (Some (lit "foo"))
  = (Return false, []).
Proof.
  apply (proj1 (type_text_sound examples.a_bare_system (fun _ => Exit 0)
                  (lit "-v is a flag") (Some (lit "foo")))).
  intros name [= <-] [H|[H|[]]]; discriminate H.
Defined.

(** X5. [Transcriber.__init__] takes the path given by the caller
    whenever it is a non-empty string, without looking for the
    executable; otherwise it takes what [detect_whisper_cli] finds.  It
    raises exactly when no path is given and none is found, and a
    transcriber that was built never has an empty [whisper_cli]. *)
Theorem Transcriber_init_cli sys model_path whisper_cli language threads timeout :
  (forall cli,
      whisper_cli = Some cli -> truthy cli = true ->
      Transcriber_init sys model_path whisper_cli language threads timeout
      = Return (transcriber.Build_Transcriber model_path language threads
                  timeout cli))
  /\ (truthy_opt whisper_cli = false ->
      forall cli,
        detect_whisper_cli sys = Some cli ->
        Transcriber_init sys model_path whisper_cli language threads timeout
        = Return (transcriber.Build_Transcriber model_path language threads
                    timeout cli))
  /\ ((exists e,
         Transcriber_init sys model_path whisper_cli language threads timeout
         = Raise e)
      <-> truthy_opt whisper_cli = false /\ detect_whisper_cli sys = None)
  /\ (forall self,
        Transcriber_init sys model_path whisper_cli language threads timeout
        = Return self ->
        truthy (transcriber.whisper_cli self) = true
        /\ transcriber.model_path self = model_path
        /\ transcriber.language self = language
        /\ transcriber.threads self = threads
        /\ transcriber.timeout self = timeout).
Proof.
  pose proof (proj1 (proj2 (proj2 (whisper_cli_search_order_aux sys)))) as D.
  unfold Transcriber_init, or_else.
  split; [|split; [|split]].
  - intros cli -> H. cbn [truthy_opt]. rewrite H. cbn [negb]. rewrite H.
    reflexivity.
  - intros H cli E. rewrite H, E. rewrite (D cli E). reflexivity.
  - split.
    + intros [e H]. destruct (truthy_opt whisper_cli) eqn:T.
      * destruct whisper_cli as [cli|]; [|discriminate T].
        cbn [truthy_opt] in T.
        repeat first [rewrite T in H | progress cbn [negb truthy_opt] in H].
        discriminate H.
      * split; [reflexivity|].
        destruct (detect_whisper_cli sys) as [cli|] eqn:E; [|reflexivity].
        rewrite (D cli eq_refl) in H. discriminate H.
    + intros [T E]. rewrite T, E. eexists. reflexivity.
  - intros self H. destruct (truthy_opt whisper_cli) eqn:T.
    + destruct whisper_cli as [cli|]; [|discriminate T].
      cbn [truthy_opt] in T.
      repeat first [rewrite T in H | progress cbn [negb truthy_opt] in H].
      injection H as <-. cbn [transcriber.whisper_cli transcriber.model_path
        transcriber.language transcriber.threads transcriber.timeout]. auto.
    + destruct (detect_whisper_cli sys) as [cli|] eqn:E; [|discriminate H].
      rewrite (D cli eq_refl) in H. cbn [negb] in H. injection H as <-.
      cbn [transcriber.whisper_cli transcriber.model_path
        transcriber.language transcriber.threads transcriber.timeout].
      split; [apply (D cli eq_refl)|auto].
Qed.

Lemma Transcriber_init_cli_witness :
  Transcriber_init examples.a_bare_system (lit "/models/ggml-small.en.bin")
    (Some (lit "/usr/bin/whisper-cli")) (lit "en") 4 60
  = Return examples.a_transcriber.
Proof.
  apply (proj1 (Transcriber_init_cli examples.a_bare_system
                  (lit "/models/ggml-small.en.bin")
                  (Some (lit "/usr/bin/whisper-cli")) (lit "en") 4 60)
           (lit "/usr/bin/whisper-cli"));
    reflexivity.
Defined.

End tools_facts.

(** ** transcriber.py and window.py: model file names *)

Module models_facts.
Import Py builtins models.

Lemma startswith_iff p s : startswith p s = true <-> exists r, s = p ++ r.
Proof.
  unfold startswith. rewrite bool_decide_eq_true. split.
  - intros H. exists (drop (length p) s).
    pose proof (take_drop (length p) s) as E.
    rewrite H in E. symmetry. exact E.
  - intros [r ->]. apply take_app_length.
Qed.

Lemma endswith_iff x s : endswith x s = true <-> exists q, s = q ++ x.
Proof.
  unfold endswith. rewrite andb_true_iff, Nat.leb_le, bool_decide_eq_true.
  split.
  - intros [_ H]. exists (take (length s - length x) s).
    pose proof (take_drop (length s - length x) s) as E.
    rewrite H in E. symmetry. exact E.
  - intros [q ->]. rewrite length_app. split; [lia|].
    replace (length q + length x - length x) with (length q) by lia.
    apply drop_app_length.
Qed.

(** A name that begins with ["ggml-"] and ends with [".bin"] has
    something, possibly nothing, between the two. *)
Lemma prefix_suffix_apart r q :
  lit "ggml-" ++ r = q ++ lit ".bin" -> exists mid, r = mid ++ lit ".bin".
Proof.
  intros H.
  do 5 (destruct q as [|? q]; [cbn in H; discriminate H|];
        cbn in H; injection H as <- H).
  exists q. exact H.
Qed.

Lemma normalize_form model_name :
  exists mid, normalize model_name = lit "ggml-" ++ mid ++ lit ".bin".
Proof.
  unfold normalize.
  destruct (startswith (lit "ggml-") model_name) eqn:P; cbn [negb].
  - apply startswith_iff in P as [r ->].
    destruct (endswith (lit ".bin") (lit "ggml-" ++ r)) eqn:S; cbn [negb].
    + apply endswith_iff in S as [q S].
      destruct (prefix_suffix_apart r q S) as [mid ->]. exists mid. reflexivity.
    + exists r. rewrite <- app_assoc. reflexivity.
  - destruct (endswith (lit ".bin") (lit "ggml-" ++ model_name)) eqn:S;
      cbn [negb].
    + apply endswith_iff in S as [q S].
      destruct (prefix_suffix_apart model_name q S) as [mid ->].
      exists mid. reflexivity.
    + exists model_name. rewrite <- app_assoc. reflexivity.
Qed.

Lemma startswith_app p r : startswith p (p ++ r) = true.
Proof. apply startswith_iff. exists r. reflexivity. Qed.

Lemma endswith_app q x : endswith x (q ++ x) = true.
Proof. apply endswith_iff. exists q. reflexivity. Qed.

(** The pattern of [get_available_models] accepts exactly the names
    that begin with ["ggml-"] and end with [".bin"] behind it. *)
Lemma fnmatch_model_pattern name :
  fnmatch model_pattern name = true
  <-> exists mid, name = lit "ggml-" ++ mid ++ lit ".bin".
Proof.
  assert (Star : forall s,
    (fix star (name : str) : bool :=
       fnmatch (lit ".bin") name
       || match name with [] => false | _ :: rest => star rest end) s = true
    <-> exists mid, s = mid ++ lit ".bin").
  { assert (Lit : forall s, fnmatch (lit ".bin") s = true <-> s = lit ".bin").
    { intros s. split.
      - intros H.
        do 4 (destruct s as [|c s]; [discriminate H|];
              cbn in H; apply andb_true_iff in H as [Hc H];
              apply N.eqb_eq in Hc; subst c).
        destruct s; [reflexivity|discriminate H].
      - intros ->. reflexivity. }
    induction s as [|c s IH].
    - rewrite orb_false_r, Lit. split.
      + intros H. discriminate H.
      + intros [[|? mid] H]; discriminate H.
    - rewrite orb_true_iff, Lit, IH. split.
      + intros [H|[mid ->]].
        * exists []. exact H.
        * exists (c :: mid). reflexivity.
      + intros [[|c' mid] H].
        * left. exact H.
        * injection H as -> ->. right. exists mid. reflexivity. }
  split.
  - intros H.
    do 5 (destruct name as [|c name]; [discriminate H|];
          cbn in H; apply andb_true_iff in H as [Hc H];
          apply N.eqb_eq in Hc; subst c).
    apply Star in H as [mid ->]. exists mid. reflexivity.
  - intros [mid ->]. cbn. apply Star. exists mid. reflexivity.
Qed.

Lemma complete_name_form name :
  startswith (lit "ggml-") name = true -> endswith (lit ".bin") name = true ->
  exists mid, name = lit "ggml-" ++ mid ++ lit ".bin".
Proof.
  intros P S. apply startswith_iff in P as [r ->].
  apply endswith_iff in S as [q S].
  destruct (prefix_suffix_apart r q S) as [mid ->]. exists mid. reflexivity.
Qed.

Lemma form_complete mid :
  startswith (lit "ggml-") (lit "ggml-" ++ mid ++ lit ".bin") = true
  /\ endswith (lit ".bin") (lit "ggml-" ++ mid ++ lit ".bin") = true.
Proof.
  split; [apply startswith_app|].
  rewrite app_assoc. apply endswith_app.
Qed.

Lemma normalize_complete name :
  startswith (lit "ggml-") name = true -> endswith (lit ".bin") name = true ->
  normalize name = name.
Proof. intros P S. unfold normalize. rewrite P. cbn [negb]. rewrite S. reflexivity. Qed.

Lemma prefixed_not_suffixed name :
  endswith (lit ".bin") name = false ->
  endswith (lit ".bin") (lit "ggml-" ++ name) = false.
Proof.
  intros S. destruct (endswith (lit ".bin") (lit "ggml-" ++ name)) eqn:E;
    [|reflexivity].
  apply endswith_iff in E as [q E].
  destruct (prefix_suffix_apart name q E) as [mid ->].
  rewrite endswith_app in S. discriminate S.
Qed.

(** X6. The name under which [download_model] stores a model begins
    with ["ggml-"] and ends with [".bin"], whatever name it is given; a
    name that already has both is kept as it is, so that normalizing
    twice changes nothing; and a name with neither, such as
    ["small.en"], gets both. *)
Theorem normalize_model_name model_name :
  startswith (lit "ggml-") (normalize model_name) = true
  /\ endswith (lit ".bin") (normalize model_name) = true
  /\ normalize (normalize model_name) = normalize model_name
  /\ (startswith (lit "ggml-") model_name = true ->
      endswith (lit ".bin") model_name = true ->
      normalize model_name = model_name)
  /\ (startswith (lit "ggml-") model_name = false ->
      endswith (lit ".bin") model_name = false ->
      normalize model_name = lit "ggml-" ++ model_name ++ lit ".bin").
Proof.
  destruct (normalize_form model_name) as [mid E].
  destruct (form_complete mid) as [P S]. rewrite <- E in P, S.
  split; [exact P|]. split; [exact S|].
  split; [apply normalize_complete; assumption|].
  split; [apply normalize_complete|].
  intros P' S'. unfold normalize. rewrite P'. cbn [negb].
  rewrite (prefixed_not_suffixed _ S'). cbn [negb].
  rewrite <- app_assoc. reflexivity.
Qed.

Lemma normalize_model_name_witness :
  normalize (lit "small.en") = lit "ggml-" ++ lit "small.en" ++ lit ".bin".
Proof.
  apply (proj2 (proj2 (proj2 (proj2 (normalize_model_name (lit "small.en"))))));
    reflexivity.
Defined.

(** X7. [get_available_models] returns nothing for a directory that
    does not exist; otherwise it lists, in the order of the directory,
    exactly the entries whose name begins with ["ggml-"] and ends with
    [".bin"].  In particular a file stored under the name
    [download_model] computes is listed. *)
Theorem available_models_listing :
  get_available_models None = []
  /\ (forall names name,
        In name (get_available_models (Some names))
        <-> In name names
            /\ startswith (lit "ggml-") name = true
            /\ endswith (lit ".bin") name = true)
  /\ (forall names,
        exists keep, get_available_models (Some names) = List.filter keep names)
  /\ (forall names model_name,
        In (normalize model_name) names ->
        In (normalize model_name) (get_available_models (Some names))).
Proof.
  assert (L : forall names name,
             In name (get_available_models (Some names))
             <-> In name names
                 /\ startswith (lit "ggml-") name = true
                 /\ endswith (lit ".bin") name = true).
  { intros names name. cbn [get_available_models].
    rewrite List.filter_In, fnmatch_model_pattern. split.
    - intros [I [mid ->]]. split; [exact I|apply form_complete].
    - intros (I & P & S). split; [exact I|apply complete_name_form; assumption]. }
  split; [reflexivity|]. split; [exact L|]. split.
  - intros names. exists (fnmatch model_pattern). reflexivity.
  - intros names model_name I. apply L. split; [exact I|].
    destruct (normalize_form model_name) as [mid E]. rewrite E.
    apply form_complete.
Qed.

Lemma available_models_listing_witness :
  In (normalize (lit "base.en"))
     (get_available_models
        (Some [lit "README.md"; lit "ggml-base.en.bin"; lit "ggml-tiny.bin"])).
Proof.
  apply (proj2 (proj2 (proj2 available_models_listing))).
  right. left. reflexivity.
Defined.

Lemma except_clause_removes fs output_path url downloading e :
  returned (except_clause fs output_path url downloading e) = false
  /\ files_after (except_clause fs output_path url downloading e)
     = delete output_path fs.
Proof.
  unfold except_clause, exists_. cbn [returned files_after].
  split; [reflexivity|]. case_bool_decide as E; [reflexivity|].
  symmetry. apply delete_id. apply eq_None_not_Some. exact E.
Qed.

(** X8. [download_model] returns [True] exactly when the model file
    exists when it returns: a download that fails, at whatever stage,
    leaves no partial file behind.  No other file is touched.  A model
    file that is already there is kept as it is and reported as a
    success without any request being made; otherwise exactly one URL is
    opened, the base URL followed by the normalized name. *)
Theorem download_model_outcome model_name models_dir fs net :
  let output_path := Path_div models_dir (normalize model_name) in
  let r := download_model model_name models_dir fs net in
  (returned r = true <-> is_Some (files_after r !! output_path))
  /\ (forall path, path <> output_path -> files_after r !! path = fs !! path)
  /\ (is_Some (fs !! output_path) ->
      returned r = true /\ files_after r = fs /\ requested r = [])
  /\ (fs !! output_path = None ->
      requested r = [base_url ++ lit "/" ++ normalize model_name]
      /\ (returned r = true
          <-> exists body,
              net (base_url ++ lit "/" ++ normalize model_name) = Copied body
              /\ files_after r !! output_path = Some body)).
Proof.
  intros output_path r. subst r output_path. unfold download_model.
  cbv zeta. set (output_path := Path_div models_dir (normalize model_name)).
  unfold exists_. case_bool_decide as E.
  - cbn [returned files_after requested].
    split; [split; [intros _; exact E|reflexivity]|].
    split; [reflexivity|]. split; [intros _; repeat split|].
    intros N. rewrite N in E. destruct E as [? E]. discriminate E.
  - assert (N : fs !! output_path = None).
    { apply eq_None_not_Some. exact E. }
    destruct (net (base_url ++ lit "/" ++ normalize model_name)) as [e|e|p e|body];
      try (match goal with
           | |- context [except_clause ?f ?o ?u ?d ?x] =>
               destruct (except_clause_removes f o u d x) as [R F];
               rewrite R, F
           end;
           split; [split; [intros H; discriminate H
                          |rewrite lookup_delete_eq; intros [? H]; discriminate H]|];
           split; [intros path D; rewrite lookup_delete_ne by congruence;
                   rewrite ?lookup_insert_ne by congruence; reflexivity|];
           split; [intros I; contradiction|];
           intros _; split; [reflexivity|];
           split; [intros H; discriminate H|intros (body & H & _); discriminate H]).
    cbn [returned files_after requested].
    split; [split; [intros _; rewrite lookup_insert_eq; eexists; reflexivity
                   |reflexivity]|].
    split; [intros path D; rewrite lookup_insert_ne by congruence; reflexivity|].
    split; [intros I; contradiction|].
    intros _. split; [reflexivity|]. split; [|reflexivity].
    intros _. exists body. split; [reflexivity|apply lookup_insert_eq].
Qed.

Lemma download_model_outcome_witness :
  returned (download_model (lit "tiny.en") (lit "/data/models")
              (<[lit "/data/models/ggml-tiny.en.bin" := []]> ∅)
              (fun _ => UrlopenRaises (Exn OtherException (lit "offline"))))
  = true.
Proof.
  destruct (download_model_outcome (lit "tiny.en") (lit "/data/models")
              (<[lit "/data/models/ggml-tiny.en.bin" := []]> ∅)
              (fun _ => UrlopenRaises (Exn OtherException (lit "offline"))))
    as (_ & _ & H & _).
  apply H. exists []. vm_compute. reflexivity.
Defined.

Lemma app_length_neq (a b : str) : a <> [] -> a ++ b <> b.
Proof.
  intros Ha H. apply (f_equal (@length N)) in H. rewrite length_app in H.
  destruct a; [congruence|]. cbn in H. lia.
Qed.

(** X9. The file the window loads for [config.model.name] is the file
    [download_model] stores for the same name exactly when the name has
    both the prefix ["ggml-"] and the suffix [".bin"] or has neither:
    for ["small.en"] and for ["ggml-small.en.bin"] the two agree, for a
    name with only one of the two they differ. *)
Theorem window_loads_what_download_stores name :
  window_model_file name = normalize name
  <-> startswith (lit "ggml-") name = endswith (lit ".bin") name.
Proof.
  unfold window_model_file, normalize.
  destruct (startswith (lit "ggml-") name) eqn:P,
           (endswith (lit ".bin") name) eqn:S; cbn [negb].
  - rewrite S. cbn [negb]. split; reflexivity.
  - rewrite S. cbn [negb]. split; [|intros H; discriminate H].
    intros H. exfalso.
    apply (app_length_neq (lit "ggml-") (name ++ lit ".bin")); [discriminate|].
    exact H.
  - split; [|intros H; discriminate H].
    intros H. exfalso.
    destruct (endswith (lit ".bin") (lit "ggml-" ++ name)); cbn [negb] in H.
    + apply (app_length_neq (lit "ggml-") name); [discriminate|].
      symmetry. exact H.
    + apply (f_equal (@length N)) in H. rewrite !length_app in H. cbn in H. lia.
  - rewrite (prefixed_not_suffixed _ S). cbn [negb].
    rewrite <- app_assoc. split; reflexivity.
Qed.

End models_facts.
(** ** Facts about whisper_dictate/config.py *)

Module config_facts.
Import Py builtins config.

Lemma load_general_ok data c :
  section_ok data (lit "general") = true ->
  load_general data c
  = Return
      (match item (lit "general") data with
       | Some _ =>
           with_general
             (Build_GeneralConfig
                (setting data (lit "general") (lit "output_mode")
                         (VStr (lit "clipboard")))
                (setting data (lit "general") (lit "language")
                         (VStr (lit "en")))) c
       | None => c
       end).
Proof.
  unfold section_ok, load_general, setting.
  destruct (item (lit "general") data) as [[]|]; intros H;
    try discriminate H; reflexivity.
Qed.

Lemma load_model_ok models_dir data c :
  section_ok data (lit "model") = true ->
  load_model models_dir data c
  = Return
      (match item (lit "model") data with
       | Some _ =>
           with_model
             (ModelConfig_init models_dir
                (setting data (lit "model") (lit "name")
                         (VStr (lit "small.en")))
                (setting data (lit "model") (lit "path") (VStr (lit "")))) c
       | None => c
       end).
Proof.
  unfold section_ok, load_model, setting.
  destruct (item (lit "model") data) as [[]|]; intros H;
    try discriminate H; reflexivity.
Qed.

Lemma load_transcription_ok data c :
  section_ok data (lit "transcription") = true ->
  load_transcription data c
  = Return
      (match item (lit "transcription") data with
       | Some _ =>
           with_transcription
             (Build_TranscriptionConfig
                (setting data (lit "transcription") (lit "whisper_cli")
                         (VStr (lit "")))
                (setting data (lit "transcription") (lit "threads") (VInt 4))
                (setting data (lit "transcription") (lit "timeout") (VInt 60)))
             c
       | None => c
       end).
Proof.
  unfold section_ok, load_transcription, setting.
  destruct (item (lit "transcription") data) as [[]|]; intros H;
    try discriminate H; reflexivity.
Qed.

Lemma load_ui_ok data c :
  section_ok data (lit "ui") = true ->
  load_ui data c
  = Return
      (match item (lit "ui") data with
       | Some _ =>
           with_ui
             (Build_UIConfig
                (setting data (lit "ui") (lit "position") (VStr (lit "bottom")))
                (setting data (lit "ui") (lit "edge_margin") (VInt 60))
                (setting data (lit "ui") (lit "theme") (VStr (lit "google"))))
             c
       | None => c
       end).
Proof.
  unfold section_ok, load_ui, setting.
  destruct (item (lit "ui") data) as [[]|]; intros H;
    try discriminate H; reflexivity.
Qed.

Lemma setting_absent data section key default :
  item section data = None -> setting data section key default = default.
Proof. unfold setting. intros ->. reflexivity. Qed.

(** X10. For a document in which every section that is present is a
    table, [load_config] prints nothing and every field of the result
    is what the document says under its section and key, and the
    default of a fresh [Config()] where the document says nothing; an
    empty [model.path] is replaced by the models directory. *)
Theorem load_config_reads_settings models_dir path data :
  section_ok data (lit "general") = true ->
  section_ok data (lit "model") = true ->
  section_ok data (lit "transcription") = true ->
  section_ok data (lit "ui") = true ->
  let default := Config_default models_dir in
  let says section key field := setting data section key (field default) in
  load_config models_dir path (Document data)
  = (Build_Config
       (Build_GeneralConfig
          (says (lit "general") (lit "output_mode")
                (fun c => output_mode (general c)))
          (says (lit "general") (lit "language")
                (fun c => language (general c))))
       (ModelConfig_init models_dir
          (says (lit "model") (lit "name") (fun c => name (model c)))
          (setting data (lit "model") (lit "path") (VStr (lit ""))))
       (Build_TranscriptionConfig
          (says (lit "transcription") (lit "whisper_cli")
                (fun c => whisper_cli (transcription c)))
          (says (lit "transcription") (lit "threads")
                (fun c => threads (transcription c)))
          (says (lit "transcription") (lit "timeout")
                (fun c => timeout (transcription c))))
       (Build_UIConfig
          (says (lit "ui") (lit "position") (fun c => position (ui c)))
          (says (lit "ui") (lit "edge_margin") (fun c => edge_margin (ui c)))
          (says (lit "ui") (lit "theme") (fun c => theme (ui c)))),
     []).
Proof.
  intros G M T U default says. subst says default. unfold load_config.
  rewrite (load_general_ok _ _ G), (load_model_ok _ _ _ M),
    (load_transcription_ok _ _ T), (load_ui_ok _ _ U).
  cbv beta.
  destruct (item (lit "general") data) eqn:Eg;
    destruct (item (lit "model") data) eqn:Em;
    destruct (item (lit "transcription") data) eqn:Et;
    destruct (item (lit "ui") data) eqn:Eu;
    rewrite ?(setting_absent _ _ _ _ Eg), ?(setting_absent _ _ _ _ Em),
      ?(setting_absent _ _ _ _ Et), ?(setting_absent _ _ _ _ Eu);
    reflexivity.
Qed.

Lemma load_config_reads_settings_witness :
  output_mode (general (fst (load_config examples.a_models_dir
                               examples.a_config_path
                               (Document examples.a_config_document))))
  = VStr (lit "type")
  /\ position (ui (fst (load_config examples.a_models_dir
                          examples.a_config_path
                          (Document examples.a_config_document))))
     = VStr (lit "bottom").
Proof.
  rewrite (load_config_reads_settings examples.a_models_dir
             examples.a_config_path examples.a_config_document);
    [|reflexivity..].
  split; reflexivity.
Defined.

Lemma get_not_table g k default :
  (forall entries, g <> VTable entries) ->
  exists e, get g k default = Raise e.
Proof.
  intros H. destruct g; try (eexists; reflexivity).
  exfalso. exact (H _ eq_refl).
Qed.

(** X11. One section that is present but is not a table ends the
    loading there: the sections before it are kept as loaded, the
    section itself and every section after it keep their defaults,
    whatever the document says for them, and one warning is printed.
    Shown for the section [model]: [general] is loaded, [model],
    [transcription] and [ui] are those of a fresh [Config()]. *)
Theorem malformed_section_stops_loading models_dir path data m :
  section_ok data (lit "general") = true ->
  item (lit "model") data = Some m ->
  (forall entries, m <> VTable entries) ->
  let default := Config_default models_dir in
  let loaded := load_config models_dir path (Document data) in
  output_mode (general (fst loaded))
  = setting data (lit "general") (lit "output_mode")
            (output_mode (general default))
  /\ language (general (fst loaded))
     = setting data (lit "general") (lit "language")
               (language (general default))
  /\ model (fst loaded) = model default
  /\ transcription (fst loaded) = transcription default
  /\ ui (fst loaded) = ui default
  /\ exists e, snd loaded = [warning path e].
Proof.
  intros G M T default loaded. subst loaded default. unfold load_config.
  rewrite (load_general_ok _ _ G). unfold load_model. rewrite M.
  destruct (get_not_table m (lit "name") (VStr (lit "small.en")) T) as [e ->].
  cbn [fst snd].
  destruct (item (lit "general") data) eqn:Eg;
    rewrite ?(setting_absent _ _ _ _ Eg);
    (repeat split; try reflexivity); exists e; reflexivity.
Qed.

Lemma malformed_section_stops_loading_witness :
  position (ui (fst (load_config examples.a_models_dir examples.a_config_path
                       (Document examples.a_broken_document))))
  = VStr (lit "bottom").
Proof.
  destruct (malformed_section_stops_loading examples.a_models_dir
              examples.a_config_path examples.a_broken_document
              (VStr (lit "medium")))
    as (_ & _ & _ & _ & U & _);
    [reflexivity|reflexivity|intros entries H; discriminate H|].
  rewrite U. reflexivity.
Defined.

Lemma ModelConfig_init_path models_dir n p :
  truthy models_dir = true ->
  truth (path (ModelConfig_init models_dir n p)) = true.
Proof.
  intros H. unfold ModelConfig_init. cbn [path].
  destruct (truth p) eqn:E; cbn [negb]; [exact E|exact H].
Qed.

Lemma load_general_model data c c' :
  load_general data c = Return c' -> model c' = model c.
Proof.
  unfold load_general. destruct (item (lit "general") data) as [g|].
  - destruct (get g _ _); [|discriminate]. destruct (get g _ _); [|discriminate].
    intros [= <-]. reflexivity.
  - intros [= <-]. reflexivity.
Qed.

Lemma load_model_path models_dir data c c' :
  truthy models_dir = true ->
  truth (path (model c)) = true ->
  load_model models_dir data c = Return c' ->
  truth (path (model c')) = true.
Proof.
  intros H P. unfold load_model. destruct (item (lit "model") data) as [m|].
  - destruct (get m _ _); [|discriminate]. destruct (get m _ _); [|discriminate].
    intros [= <-]. cbn [model with_model]. apply ModelConfig_init_path. exact H.
  - intros [= <-]. exact P.
Qed.

Lemma load_transcription_model data c c' :
  load_transcription data c = Return c' -> model c' = model c.
Proof.
  unfold load_transcription.
  destruct (item (lit "transcription") data) as [g|].
  - destruct (get g _ _); [|discriminate]. destruct (get g _ _); [|discriminate].
    destruct (get g _ _); [|discriminate].
    intros [= <-]. reflexivity.
  - intros [= <-]. reflexivity.
Qed.

Lemma load_ui_model data c c' :
  load_ui data c = Return c' -> model c' = model c.
Proof.
  unfold load_ui. destruct (item (lit "ui") data) as [g|].
  - destruct (get g _ _); [|discriminate]. destruct (get g _ _); [|discriminate].
    destruct (get g _ _); [|discriminate].
    intros [= <-]. reflexivity.
  - intros [= <-]. reflexivity.
Qed.

(** X12. Whatever is found at the path of the configuration file, be it
    nothing, an unreadable file, or a document with sections of any
    shape, the configuration [load_config] returns has a non-empty
    [model.path], provided the models directory has a non-empty name. *)
Theorem loaded_model_path_is_set models_dir path f :
  truthy models_dir = true ->
  truth (config.path (model (fst (load_config models_dir path f)))) = true.
Proof.
  intros H.
  assert (D : truth (config.path (model (Config_default models_dir))) = true).
  { cbn [Config_default model]. apply ModelConfig_init_path. exact H. }
  unfold load_config. destruct f as [|e|data]; [exact D..|].
  destruct (load_general data _) as [c1|] eqn:E1; [|exact D].
  assert (D1 : truth (config.path (model c1)) = true).
  { rewrite (load_general_model _ _ _ E1). exact D. }
  destruct (load_model models_dir data c1) as [c2|] eqn:E2; [|exact D1].
  pose proof (load_model_path _ _ _ _ H D1 E2) as D2.
  destruct (load_transcription data c2) as [c3|] eqn:E3; [|exact D2].
  assert (D3 : truth (config.path (model c3)) = true).
  { rewrite (load_transcription_model _ _ _ E3). exact D2. }
  destruct (load_ui data c3) as [c4|] eqn:E4; [|exact D3].
  cbn [fst]. rewrite (load_ui_model _ _ _ E4). exact D3.
Qed.

Lemma loaded_model_path_is_set_witness :
  truth (config.path
           (model (fst (load_config examples.a_models_dir
                          examples.a_config_path
                          (Document examples.a_broken_document)))))
  = true.
Proof.
  apply (loaded_model_path_is_set examples.a_models_dir). reflexivity.
Defined.

Lemma load_saved models_dir path c :
  load_config models_dir path (Document (save_data c))
  = (with_model
       (ModelConfig_init models_dir (name (model c)) (config.path (model c)))
       c,
     []).
Proof.
  destruct c as [[o l] [n p] [w t s] [po e th]]. reflexivity.
Qed.

(** X13. Saving and loading.  If [save_config] returns [True], for a
    configuration whose [model.path] is not empty, then [load_config]
    returns the very configuration that was saved, and neither call
    prints anything; the file is taken to hold the document dumped into
    it.  [save_config] returns [True] exactly when the directory could
    be made, the file opened and the document dumped; otherwise it
    returns [False] and prints one line naming the exception, the file
    being untouched when it could not be opened, and left as the failed
    dump left it otherwise. *)
Theorem save_load_round_trip models_dir path c d f :
  truth (config.path (model c)) = true ->
  let saved := save_config c path d f in
  (fst (fst saved) = true ->
   load_config models_dir path (snd (fst saved)) = (c, [])
   /\ snd saved = [])
  /\ (fst (fst saved) = true <-> d = Writable)
  /\ (forall e,
        d = Refuses e ->
        saved
        = (false, f,
           [lit "Error saving config to " ++ path ++ lit ": " ++ exn_msg e]))
  /\ (forall e remains,
        d = Truncates e remains ->
        saved
        = (false, remains,
           [lit "Error saving config to " ++ path ++ lit ": " ++ exn_msg e])).
Proof.
  intros H saved. subst saved.
  split; [|split; [|split]].
  - destruct d; cbn [save_config fst snd]; intros T; try discriminate T.
    split; [|reflexivity].
    rewrite load_saved. unfold ModelConfig_init. rewrite H. cbn [negb].
    destruct c as [g [n p] t u]. reflexivity.
  - destruct d; cbn [save_config fst snd]; split; intros T;
      first [reflexivity | discriminate T].
  - intros e ->. reflexivity.
  - intros e remains ->. reflexivity.
Qed.

Lemma save_load_round_trip_witness :
  load_config examples.a_models_dir examples.a_config_path
    (snd (fst (save_config
                 (fst (load_config examples.a_models_dir
                         examples.a_config_path
                         (Document examples.a_config_document)))
                 examples.a_config_path Writable Missing)))
  = (fst (load_config examples.a_models_dir examples.a_config_path
            (Document examples.a_config_document)), []).
Proof.
  apply (proj1 (save_load_round_trip examples.a_models_dir
                  examples.a_config_path
                  (fst (load_config examples.a_models_dir
                          examples.a_config_path
                          (Document examples.a_config_document)))
                  Writable Missing eq_refl)).
  reflexivity.
Defined.

(** X14. [create_default_config] never changes a file that exists,
    readable or not.  Where there is none and the file can be written,
    the file it creates loads, silently, as the configuration that is
    used when there is no file at all. *)
Theorem create_default_config_first_run models_dir path :
  truthy models_dir = true ->
  (forall d f, f <> Missing -> create_default_config models_dir path d f = f)
  /\ load_config models_dir path
       (create_default_config models_dir path Writable Missing)
     = (fst (load_config models_dir path Missing), []).
Proof.
  intros H. split.
  - intros d f N. destruct f; [contradiction|reflexivity..].
  - cbn [create_default_config save_config fst snd].
    rewrite load_saved. unfold load_config. cbn [fst].
    assert (P : truth (config.path (model (Config_default models_dir))) = true).
    { cbn [Config_default model]. apply ModelConfig_init_path. exact H. }
    unfold ModelConfig_init at 1. rewrite P. cbn [negb]. reflexivity.
Qed.

Lemma create_default_config_first_run_witness :
  load_config examples.a_models_dir examples.a_config_path
    (create_default_config examples.a_models_dir examples.a_config_path
       Writable Missing)
  = (fst (load_config examples.a_models_dir examples.a_config_path Missing),
     []).
Proof.
  apply (create_default_config_first_run examples.a_models_dir
           examples.a_config_path).
  reflexivity.
Defined.

End config_facts.

(** ** Facts about the placing of the window *)

Module placement_facts.
Import Py placement.

(** X15. [position_window] keeps the size of the window and computes
    its place from the width and the height of the available geometry
    alone: where that geometry starts on the screen does not enter.
    Measured inside the available area, the space to the right of the
    window exceeds the space to its left by twice the horizontal start
    of the area, or by one pixel more.  With [position] equal to
    ["top"] the top of the window is [edge_margin] below the top of the
    screen; with any other value its bottom is [edge_margin] above the
    line that lies the available height below the top of the screen.
    So the window is centred in the available area, and keeps the
    margin from its edge, when the area starts at the origin of the
    screen, and is centred only then. *)
Theorem position_window_centres available size position edge_margin placed :
  position_window (Some available) size position edge_margin = Some placed ->
  (width placed, height placed) = size
  /\ (forall start_left start_top,
        position_window
          (Some (Rect start_left start_top (width available)
                      (height available)))
          size position edge_margin
        = Some placed)
  /\ (0 <= ((left available + width available)
            - (left placed + width placed))
           - (left placed - left available)
           - 2 * left available <= 1)%Z
  /\ (if config.eq_str position (lit "top")
      then top placed = edge_margin
      else (height available - (top placed + height placed)
            = edge_margin)%Z)
  /\ ((0 <= ((left available + width available)
             - (left placed + width placed))
            - (left placed - left available) <= 1)%Z
      <-> left available = 0%Z).
Proof.
  unfold position_window. destruct size as [w h]. cbn [fst snd].
  intros [= <-]. cbn [left top width height].
  pose proof (Z.div_mod (width available - w) 2 ltac:(lia)) as D.
  pose proof (Z.mod_pos_bound (width available - w) 2 ltac:(lia)) as B.
  split; [reflexivity|]. split; [reflexivity|]. split; [lia|].
  split; [destruct (config.eq_str position (lit "top")); lia|].
  split; lia.
Qed.

Lemma position_window_centres_witness :
  (0 <= ((0 + 1921) - (885 + 150)) - (885 - 0) - 2 * 0 <= 1)%Z.
Proof.
  destruct (position_window_centres (Rect 0 0 1921 1080) (150, 75)%Z
              (config.VStr (lit "bottom")) 60 (Rect 885 945 150 75))
    as (_ & _ & H & _); [reflexivity|exact H].
Defined.

End placement_facts.
